(** * telegram-executor: execution registry, submission and rendering helpers

    A shallow embedding of the Go sources of telegram-executor:
    - [internal/executions/executions.go]  (the registry),
    - [internal/telegram/shared/markup.go] and [messages.go],
    - the [/execute] HTTP handler, the update handler and the voice
      normaliser,
    - [internal/telegram/service.go] (submission).

    Go strings are modelled as sequences of code points (what [range] over
    a string and [len([]rune(s))] observe on valid UTF-8, which is what
    [encoding/json] produces).  The registry mutex makes every registry
    method atomic, so each method is a function on the registry state. *)

From Stdlib Require Import ZArith NArith List String Ascii Bool Lia DecimalString DecimalPos.
From stdpp Require Import base option list gmap.

Open Scope Z_scope.

(** ** Go strings *)

Abbreviation rune := N (only parsing).
Abbreviation gostring := (list N) (only parsing).

(** An ASCII literal as a Go string. *)
Definition lit (s : string) : gostring :=
  List.map N_of_ascii (list_ascii_of_string s).

(** ** Values of type [any] produced by [encoding/json] or built by the code.
    A finite [float64] is kept as mantissa and binary exponent. *)
Inductive any : Type :=
  | ANil
  | ABool (b : bool)
  | AInt (z : Z)
  | AInt32 (z : Z)
  | AInt64 (z : Z)
  | AFloat64 (m e : Z)
  | AString (s : gostring)
  | AArray (items : list any)
  | AMap (fields : list (gostring * any)).

Module executions.

(** [type Status string] *)
Abbreviation Status := (list N) (only parsing).
Definition StatusSuccess : Status := lit "success".
Definition StatusError : Status := lit "error".
Definition StatusPending : Status := lit "pending".

Record Callback := { URL : gostring }.

Record Tool := {
  Name : gostring;
  Title : gostring;
  Description : gostring;
  InputSchema : gmap gostring any;
  OutputSchema : gmap gostring any;
  Metadata : gmap gostring any;
  Tags : list gostring
}.

Record Request := {
  CorrelationID : gostring;
  ReqTool : Tool;
Arguments : gmap gostring any;
Spec : gmap gostring any;
Question : gostring;
Context : gostring;
Options : list gostring;
AllowCustom : bool;
CustomLabel : gostring;
Lang : gostring;
Markup : gostring;
ReqCallback : Callback
}.

Record Result := {
  ResStatus : Status;
  Output : any;
  Note : gostring
}.

(** [CreatedAt] is the clock reading taken by [Add]. *)
Record Execution := {
  ExecRequest : Request;
  CreatedAt : Z;
  MessageID : Z;
  MessageText : gostring;
  AwaitingText : bool
}.

Definition withMessage (e : Execution) (messageID : Z) (messageText : gostring) : Execution :=
  {| ExecRequest := ExecRequest e; CreatedAt := CreatedAt e;
     MessageID := messageID; MessageText := messageText;
     AwaitingText := AwaitingText e |}.

Definition withAwaitingText (e : Execution) (b : bool) : Execution :=
  {| ExecRequest := ExecRequest e; CreatedAt := CreatedAt e;
     MessageID := MessageID e; MessageText := MessageText e;
     AwaitingText := b |}.

(** The registry state guarded by [mu].  The map holds [*Execution];
    every pointer is created by [Add] and stored under one key, so the
    objects reachable from the map are the map's values. *)
Record Registry := {
  execs : gmap gostring Execution;
  promptMessageID : Z;
  promptCorrelation : gostring
}.

Definition NewRegistry : Registry :=
  {| execs := ∅; promptMessageID := 0; promptCorrelation := [] |}.

(** [Add]: [None] stands for [ErrAlreadyExists]. *)
Definition Add (r : Registry) (req : Request) (now : Z) : Registry * option Execution :=
  match execs r !! CorrelationID req with
  | Some _ => (r, None)
  | None =>
      let exec := {| ExecRequest := req; CreatedAt := now; MessageID := 0;
                     MessageText := []; AwaitingText := false |} in
      ({| execs := <[CorrelationID req := exec]> (execs r);
          promptMessageID := promptMessageID r;
          promptCorrelation := promptCorrelation r |}, Some exec)
  end.

Definition Get (r : Registry) (correlationID : gostring) : option Execution :=
  execs r !! correlationID.

Definition SetMessage (r : Registry) (correlationID : gostring)
    (messageID : Z) (messageText : gostring) : Registry :=
  match execs r !! correlationID with
  | Some exec =>
      {| execs := <[correlationID := withMessage exec messageID messageText]> (execs r);
         promptMessageID := promptMessageID r;
         promptCorrelation := promptCorrelation r |}
  | None => r
  end.

(** [StartCustomInput] returns [(previousPrompt, ok)]. *)
Definition StartCustomInput (r : Registry) (correlationID : gostring) : Registry * (Z * bool) :=
  match execs r !! correlationID with
  | None => (r, (0, false))
  | Some exec =>
      let swap := negb (bool_decide (promptCorrelation r = []))
                  && negb (bool_decide (promptCorrelation r = correlationID)) in
      let m1 :=
        if swap then
          match execs r !! promptCorrelation r with
          | Some prevExec =>
              <[promptCorrelation r := withAwaitingText prevExec false]> (execs r)
          | None => execs r
          end
        else execs r in
      let previousPrompt := if swap then promptMessageID r else 0 in
      (* [exec] was read before the swap; the swap writes only under a
         key different from [correlationID], so [exec] is still the
         object stored there *)
      ({| execs := <[correlationID := withAwaitingText exec true]> m1;
          promptMessageID := 0; promptCorrelation := correlationID |},
       (previousPrompt, true))
  end.

Definition SetPromptMessage (r : Registry) (correlationID : gostring) (messageID : Z) : Registry :=
  if bool_decide (promptCorrelation r = correlationID) then
    {| execs := execs r; promptMessageID := messageID;
       promptCorrelation := promptCorrelation r |}
  else r.

Definition ClearPrompt (r : Registry) (correlationID : gostring) : Registry * Z :=
  if negb (bool_decide (promptCorrelation r = correlationID)) then (r, 0)
  else
    let m :=
      match execs r !! correlationID with
      | Some exec => <[correlationID := withAwaitingText exec false]> (execs r)
      | None => execs r
      end in
    ({| execs := m; promptMessageID := 0; promptCorrelation := [] |},
     promptMessageID r).

Definition CurrentPrompt (r : Registry) : option Execution * Z :=
  if bool_decide (promptCorrelation r = []) then (None, 0)
  else
    match execs r !! promptCorrelation r with
    | None => (None, 0)
    | Some exec =>
        if negb (AwaitingText exec) then (None, 0)
        else (Some exec, promptMessageID r)
    end.

(** [Resolve] returns [(exec, promptID, ok)]. *)
Definition Resolve (r : Registry) (correlationID : gostring)
    : Registry * (option Execution * Z * bool) :=
  match execs r !! correlationID with
  | None => (r, (None, 0, false))
  | Some exec =>
      let m := delete correlationID (execs r) in
      if bool_decide (promptCorrelation r = correlationID) then
        ({| execs := m; promptMessageID := 0; promptCorrelation := [] |},
         (Some exec, promptMessageID r, true))
      else
        ({| execs := m; promptMessageID := promptMessageID r;
            promptCorrelation := promptCorrelation r |},
         (Some exec, 0, true))
  end.

(** *** Sequences of registry operations *)

Inductive op :=
  | OpAdd (req : Request) (now : Z)
  | OpSetMessage (correlationID : gostring) (messageID : Z) (messageText : gostring)
  | OpStartCustomInput (correlationID : gostring)
  | OpSetPromptMessage (correlationID : gostring) (messageID : Z)
  | OpClearPrompt (correlationID : gostring)
  | OpResolve (correlationID : gostring).

Definition step (r : Registry) (o : op) : Registry :=
  match o with
  | OpAdd req now => fst (Add r req now)
  | OpSetMessage id mid text => SetMessage r id mid text
  | OpStartCustomInput id => fst (StartCustomInput r id)
  | OpSetPromptMessage id mid => SetPromptMessage r id mid
  | OpClearPrompt id => fst (ClearPrompt r id)
  | OpResolve id => fst (Resolve r id)
  end.

Definition run (ops : list op) (r : Registry) : Registry :=
  fold_left step ops r.

(** An operation that registers [id]. *)
Definition adds (id : gostring) (o : op) : Prop :=
  match o with
  | OpAdd req _ => CorrelationID req = id
  | _ => False
  end.

(** The correlation id of a registered request is a non-empty string. *)
Definition wf_op (o : op) : Prop :=
  match o with
  | OpAdd req _ => CorrelationID req ≠ []
  | _ => True
  end.

(** [id] names a live execution that awaits text. *)
Definition awaiting (r : Registry) (id : gostring) : Prop :=
  ∃ e, execs r !! id = Some e ∧ AwaitingText e = true.

(** Invariant 2 of the data model: at most one live execution awaits
    text, and either the singleton names it or the singleton is empty
    and no live execution awaits text. *)
Definition prompt_singleton (r : Registry) : Prop :=
  (∀ id1 id2, awaiting r id1 → awaiting r id2 → id1 = id2) ∧
  (awaiting r (promptCorrelation r) ∨
   (promptCorrelation r = [] ∧ ∀ id, ¬ awaiting r id)).

(** The inductive invariant behind it. *)
Definition prompt_inv (r : Registry) : Prop :=
  (∀ id e, execs r !! id = Some e → AwaitingText e = true → promptCorrelation r = id) ∧
  (promptCorrelation r ≠ [] → awaiting r (promptCorrelation r)) ∧
  execs r !! [] = None.

(** An operation that resolves [id]. *)
Definition resolves (id : gostring) (o : op) : Prop :=
  match o with
  | OpResolve id' => id' = id
  | _ => False
  end.

End executions.

(** ** The parts of Go's [strings], [unicode] and [strconv] the code uses *)

Module strings.

(** [unicode.IsSpace]: the Latin-1 spaces and the White_Space table. *)
Definition IsSpace (r : rune) : bool :=
  ((9 <=? r) && (r <=? 13) || (r =? 32) || (r =? 133) || (r =? 160)
   || (r =? 5760) || ((8192 <=? r) && (r <=? 8202)) || (r =? 8232)
   || (r =? 8233) || (r =? 8239) || (r =? 8287) || (r =? 12288))%N.

Definition notSpace (r : rune) : Prop := IsSpace r = false.

Fixpoint TrimLeftSpace (s : gostring) : gostring :=
  match s with
  | [] => []
  | r :: rest => if IsSpace r then TrimLeftSpace rest else s
  end.

Definition TrimRightSpace (s : gostring) : gostring :=
  rev (TrimLeftSpace (rev s)).

Definition TrimSpace (s : gostring) : gostring :=
  TrimRightSpace (TrimLeftSpace s).

Fixpoint HasPrefix (s prefix : gostring) : bool :=
  match prefix, s with
  | [], _ => true
  | _ :: _, [] => false
  | p :: prefix', c :: s' => (p =? c)%N && HasPrefix s' prefix'
  end.

Definition HasSuffix (s suffix : gostring) : bool :=
  HasPrefix (rev s) (rev suffix).

Definition ContainsRune (s : gostring) (r : rune) : bool :=
  existsb (N.eqb r) s.

(** [strconv.Itoa] / the verb [%d]. *)
Definition Itoa (z : Z) : gostring :=
  lit (DecimalString.NilZero.string_of_int (Z.to_int z)).

Section Lower.
(** [unicode.To(unicode.LowerCase, r)] for [r] above ASCII: the
    Unicode case table, which is data of the Go runtime. *)
Variable caseTable : rune → rune.

(** [unicode.ToLower] *)
Definition ToLowerRune (r : rune) : rune :=
  if (r <=? 127)%N then
    if ((65 <=? r) && (r <=? 90))%N then (r + 32)%N else r
  else caseTable r.

Definition ToLower (s : gostring) : gostring :=
  List.map ToLowerRune s.
End Lower.

End strings.

(** ** package i18n *)

Module i18n.

Record Messages := {
  ExecutionTitle : gostring;
  ExecutionCorrelation : gostring;
  ExecutionTool : gostring;
  ExecutionParams : gostring;
  SectionContext : gostring;
  SectionAction : gostring;
  SectionParams : gostring;
  QuestionLabel : gostring;
  ContextLabel : gostring;
  OptionsLabel : gostring;
  CustomOptionButton : gostring;
  CancelCustomButton : gostring;
  DeleteButton : gostring;
  CustomPrompt : gostring;
  SelectedNote : gostring;
  TimeoutNote : gostring;
  ErrorNote : gostring;
  InvalidAction : gostring;
  AlreadyResolved : gostring;
  InvalidChat : gostring;
  VoiceDisabled : gostring;
  TranscriptionFailed : gostring
}.

(** The zero value [i18n.Messages{}]. *)
Definition blank : Messages :=
  Build_Messages [] [] [] [] [] [] [] [] [] [] [] [] [] [] [] [] [] [] [] [] [] [].

End i18n.

(** ** package shared: markup.go and messages.go *)

Module shared.

Definition escapeHTMLRune (r : rune) : gostring :=
  if (r =? 38)%N then lit "&amp;"
  else if (r =? 60)%N then lit "&lt;"
  else if (r =? 62)%N then lit "&gt;"
  else if (r =? 34)%N then lit "&quot;"
  else if (r =? 39)%N then lit "&#39;"
  else [r].

(** [strings.NewReplacer] with one-byte ASCII patterns rewrites each
    occurrence independently, left to right. *)
Definition EscapeHTML (value : gostring) : gostring :=
  flat_map escapeHTMLRune value.

Definition escapeWithSet (value escapedRunes : gostring) : gostring :=
  match value with
  | [] => value
  | _ =>
      flat_map (fun r => if strings.ContainsRune escapedRunes r
                         then [92%N; r] else [r]) value
  end.

(** The set [_*[]()~`>#+-=|{}.!] followed by the backslash. *)
Definition markdownV2Set : gostring := lit "_*[]()~`>#+-=|{}.!" ++ [92%N].
(** Backslash and backquote. *)
Definition markdownV2CodeSet : gostring := [92%N; 96%N].

Definition EscapeMarkdownV2 (value : gostring) : gostring :=
  escapeWithSet value markdownV2Set.

Definition EscapeMarkdownV2Code (value : gostring) : gostring :=
  escapeWithSet value markdownV2CodeSet.

Section Messages.
Variable caseTable : rune → rune.

Definition MessagesFor (messages : gmap gostring i18n.Messages)
    (lang fallbackLang : gostring) : i18n.Messages :=
  let lang := strings.ToLower caseTable (strings.TrimSpace lang) in
  let lang := if bool_decide (lang = [])
              then strings.ToLower caseTable (strings.TrimSpace fallbackLang)
              else lang in
  match messages !! lang with
  | Some msg => msg
  | None =>
      match messages !! lit "en" with
      | Some msg => msg
      | None => i18n.blank
      end
  end.
End Messages.

(** *** Reading the two dialects back

    The escaped text is read by the chat service, not by this program.
    These are the readers the two dialects prescribe: in MarkdownV2 a
    backslash makes the next character an ordinary one; in HTML the
    entities [&amp;] [&lt;] [&gt;] [&quot;] and [&#39;] stand for
    their characters. *)
Fixpoint decodeMarkdownV2 (s : gostring) : gostring :=
  match s with
  | [] => []
  | c :: rest =>
      if (c =? 92)%N then
        match rest with
        | [] => [c]
        | d :: rest' => d :: decodeMarkdownV2 rest'
        end
      else c :: decodeMarkdownV2 rest
  end.

Fixpoint decodeHTML (s : gostring) : gostring :=
  match s with
  | [] => []
  | c :: rest =>
      if (c =? 38)%N then
        match rest with
        | 97%N :: 109%N :: 112%N :: 59%N :: rest' => 38%N :: decodeHTML rest'
        | 108%N :: 116%N :: 59%N :: rest' => 60%N :: decodeHTML rest'
        | 103%N :: 116%N :: 59%N :: rest' => 62%N :: decodeHTML rest'
        | 113%N :: 117%N :: 111%N :: 116%N :: 59%N :: rest' => 34%N :: decodeHTML rest'
        | 35%N :: 51%N :: 57%N :: 59%N :: rest' => 39%N :: decodeHTML rest'
        | _ => c :: decodeHTML rest
        end
      else c :: decodeHTML rest
  end.

End shared.

(** ** package config (the fields the request path reads) *)

Module config.

Record Config := {
  Lang : gostring;
  ChatID : Z;
  ExecutionTimeout : Z;   (* time.Duration, nanoseconds *)
  TimeoutMessage : gostring
}.

End config.

(** [time.Duration] is an [int64] count of nanoseconds. *)
Definition wrap64 (z : Z) : Z := (z + 2 ^ 63) mod 2 ^ 64 - 2 ^ 63.
Definition Second : Z := 1000000000.
Definition Hour : Z := 3600 * Second.

(** ** Calls on the chat client and the outbound callback, in call order.
    The reply markup of a sent or edited message is not recorded. *)
Inductive BotCall :=
  | DeleteMessageCall (messageID : Z)
  | SendMessageCall (text parseMode : gostring) (replyTo : option Z)
  | EditMessageTextCall (messageID : Z) (text parseMode : gostring)
  | AnswerCallbackQueryCall (queryID text : gostring)
  | WebhookPost (url correlationID status : gostring) (result : any) (tool : gostring).

Definition ModeHTML : gostring := lit "HTML".
Definition ModeMarkdownV2 : gostring := lit "MarkdownV2".

(** ** package handlers *)

Module handlers.
Import executions.

Record Handler := {
  messages : gmap gostring i18n.Messages;
  defaultLang : gostring;
  chatID : Z;
  sttLang : gostring
}.

Definition DeleteMessage (messageID : Z) : list BotCall :=
  if messageID <=? 0 then [] else [DeleteMessageCall messageID].

Definition answerCallback (queryID text : gostring) : list BotCall :=
  [AnswerCallbackQueryCall queryID
     (if bool_decide (strings.TrimSpace text = []) then [] else text)].

Section WithRuntime.
Variable caseTable : rune → rune.
(** [fmt.Sprintf("%v", x)] *)
Variable Sprint_v : any → gostring.
(** Whether [http.NewRequestWithContext] builds a POST request for the
    URL, that is, whether [net/url] parses it. *)
Variable validURL : gostring → bool.

(** [sendWebhook] returns without posting when the callback URL is blank,
    when [json.Marshal] fails, or when the request cannot be built.  The
    payload holds three strings and [result.Output], a value of [any],
    which [json.Marshal] always encodes; a [WebhookPost] is the call of
    [client.Do], whose outcome is only logged. *)
Definition sendWebhook (exec : Execution) (result : Result) : list BotCall :=
  if bool_decide (strings.TrimSpace (URL (ReqCallback (ExecRequest exec))) = []) then []
  else if negb (validURL (URL (ReqCallback (ExecRequest exec)))) then []
  else [WebhookPost (URL (ReqCallback (ExecRequest exec)))
          (CorrelationID (ExecRequest exec)) (ResStatus result) (Output result)
          (Name (ReqTool (ExecRequest exec)))].

Definition parseMode (markup : gostring) : gostring :=
  if bool_decide (strings.ToLower caseTable (strings.TrimSpace markup) = lit "html")
  then ModeHTML else ModeMarkdownV2.

Definition messageFor (h : Handler) (lang : gostring) : i18n.Messages :=
  let lang := strings.ToLower caseTable (strings.TrimSpace lang) in
  let lang := if bool_decide (lang = []) then defaultLang h else lang in
  match messages h !! lang with
  | Some msg => msg
  | None =>
      match messages h !! lit "en" with
      | Some msg => msg
      | None => i18n.blank
      end
  end.

Definition noteForResult (msg : i18n.Messages) (result : Result)
    (timeoutMessage : gostring) : gostring :=
  if bool_decide (ResStatus result = StatusSuccess) then
    if negb (bool_decide (strings.TrimSpace (Note result) = [])) then Note result
    else
      match Output result with
      | ANil => [9989%N; 32%N] ++ i18n.SelectedNote msg
      | out => [9989%N; 32%N] ++ Sprint_v out
      end
  else if bool_decide (ResStatus result = StatusError) then
    let tail :=
      if negb (bool_decide (strings.TrimSpace (Note result) = [])) then Note result
      else [9888%N; 65039%N; 32%N] ++ i18n.ErrorNote msg in
    match Output result with
    | AString value =>
        if bool_decide (strings.TrimSpace value = lit "execution timeout") then
          if negb (bool_decide (strings.TrimSpace timeoutMessage = [])) then timeoutMessage
          else [9201%N; 65039%N; 32%N] ++ i18n.TimeoutNote msg
        else if negb (bool_decide (strings.TrimSpace value = [])) then
          [9888%N; 65039%N; 32%N] ++ value
        else tail
    | _ => tail
    end
  else [].

Definition FinalizeExecution (h : Handler) (exec : Execution) (result : Result)
    (timeoutMessage : gostring) : list BotCall :=
  let msg := messageFor h (Lang (ExecRequest exec)) in
  let note := noteForResult msg result timeoutMessage in
  let text :=
    if negb (bool_decide (strings.TrimSpace note = []))
    then MessageText exec ++ [10%N; 10%N] ++ note
    else MessageText exec in
  EditMessageTextCall (MessageID exec) text (parseMode (Markup (ExecRequest exec)))
    :: sendWebhook exec result.

(** [startCustomPrompt]: [sent] is the outcome of the prompt's
    [SendMessage] ([None] when it fails, else the new message id). *)
Definition startCustomPrompt (h : Handler) (r : Registry) (queryID correlationID : gostring)
    (sent : option Z) : Registry * list BotCall :=
  match Get r correlationID with
  | None => (r, answerCallback queryID (i18n.AlreadyResolved (messageFor h [])))
  | Some exec =>
      if negb (AllowCustom (ExecRequest exec)) then
        (r, answerCallback queryID
              (i18n.InvalidAction (messageFor h (Lang (ExecRequest exec)))))
      else
        let '(r1, (prevPromptID, ok)) := StartCustomInput r correlationID in
        if negb ok then
          (r1, answerCallback queryID
                 (i18n.AlreadyResolved (messageFor h (Lang (ExecRequest exec)))))
        else
          let deleted := if prevPromptID >? 0 then DeleteMessage prevPromptID else [] in
          let msg := messageFor h (Lang (ExecRequest exec)) in
          let send := SendMessageCall (i18n.CustomPrompt msg)
                        (parseMode (Markup (ExecRequest exec)))
                        (Some (MessageID exec)) in
          match sent with
          | None =>
              (r1, deleted ++ send :: answerCallback queryID (i18n.ErrorNote msg))
          | Some promptID =>
              (SetPromptMessage r1 correlationID promptID,
               deleted ++ send :: answerCallback queryID [])
          end
  end.

Definition cancelCustomPrompt (r : Registry) (queryID correlationID : gostring)
    : Registry * list BotCall :=
  let '(r1, promptID) := ClearPrompt r correlationID in
  (r1, (if promptID >? 0 then DeleteMessage promptID else [])
         ++ answerCallback queryID []).

End WithRuntime.

(** *** voice normaliser *)

(** The MIME types of the [case] list in [isOpenAICompatibleAudio]. *)
Definition acceptedMimeTypes : list gostring :=
  [lit "audio/mpeg"; lit "audio/mp3"; lit "audio/mp4"; lit "audio/mp4a-latm";
   lit "audio/x-m4a"; lit "audio/m4a"; lit "audio/wav"; lit "audio/x-wav";
   lit "audio/webm"].

(** The file name endings it tests in turn. *)
Definition acceptedExtensions : list gostring :=
  [lit ".mp3"; lit ".mpeg"; lit ".mp4"; lit ".m4a"; lit ".wav"; lit ".webm"].

Definition isOpenAICompatibleAudio (caseTable : rune → rune)
    (mimeType filename : gostring) : bool :=
  let mimeOK :=
    if bool_decide (mimeType = []) then false
    else
      let m := strings.ToLower caseTable (strings.TrimSpace mimeType) in
      bool_decide (m ∈ acceptedMimeTypes) in
  if mimeOK then true
  else
    let lowerName := strings.ToLower caseTable (strings.TrimSpace filename) in
    if bool_decide (lowerName = []) then false
    else
      strings.HasSuffix lowerName (lit ".mp3") ||
      strings.HasSuffix lowerName (lit ".mpeg") ||
      strings.HasSuffix lowerName (lit ".mp4") ||
      strings.HasSuffix lowerName (lit ".m4a") ||
      strings.HasSuffix lowerName (lit ".wav") ||
      strings.HasSuffix lowerName (lit ".webm").

(** [filepath.Ext]: the suffix from the last dot of the last path element. *)
Fixpoint extFromRev (revPath acc : gostring) : gostring :=
  match revPath with
  | [] => []
  | c :: rest =>
      if (c =? 47)%N then []
      else if (c =? 46)%N then c :: acc
      else extFromRev rest (c :: acc)
  end.

Definition Ext (path : gostring) : gostring := extFromRev (rev path) [].

Definition TrimSuffix (s suffix : gostring) : gostring :=
  if strings.HasSuffix s suffix then take (length s - length suffix)%nat s else s.

Definition normalizeFilename (caseTable : rune → rune) (filename : gostring) : gostring :=
  if bool_decide (strings.TrimSpace filename = []) then lit "voice.mp3"
  else if strings.HasSuffix (strings.ToLower caseTable filename) (lit ".mp3") then filename
  else
    match Ext filename with
    | [] => filename ++ lit ".mp3"
    | ext => TrimSuffix filename ext ++ lit ".mp3"
    end.

(** Outcome of [normalizeVoiceAudio]: the triple, or an error. *)
Inductive audio :=
  | Audio (content : list Byte.byte) (mimeType filename : gostring)
  | AudioError (msg : gostring).

(** What running the [ffmpeg] subprocess on the content gives: its
    standard output, or the run error with the text of standard error. *)
Inductive ffmpegOutcome :=
  | RunOK (stdout : list Byte.byte)
  | RunFailed (err stderr : gostring).

Definition normalizeVoiceAudio (caseTable : rune → rune)
    (ffmpeg : list Byte.byte → ffmpegOutcome)
    (content : list Byte.byte) (mimeType filename : gostring) : audio :=
  match content with
  | [] => AudioError (lit "empty audio content")
  | _ =>
      let lowerMime := strings.ToLower caseTable (strings.TrimSpace mimeType) in
      if isOpenAICompatibleAudio caseTable lowerMime filename
      then Audio content mimeType filename
      else
        match ffmpeg content with
        | RunFailed err stderr =>
            let errMsg := strings.TrimSpace stderr in
            if negb (bool_decide (errMsg = []))
            then AudioError (lit "ffmpeg failed: " ++ err ++ lit ": " ++ errMsg)
            else AudioError (lit "ffmpeg failed: " ++ err)
        | RunOK [] => AudioError (lit "empty transcoded audio")
        | RunOK out => Audio out (lit "audio/mpeg") (normalizeFilename caseTable filename)
        end
  end.

End handlers.

(** ** package telegram: service.go *)

Module telegram.
Import executions.

Record Service := {
  svcMessages : gmap gostring i18n.Messages;
  svcLang : gostring;
  svcChatID : Z;
  handler : handlers.Handler
}.

(** A timer armed by [scheduleTimeout]. *)
Record Timer := {
  timerCorrelationID : gostring;
  timerTimeout : Z;
  timerMessage : gostring
}.

(** What the service and the update handler share and act on: the
    registry, the armed timers and the calls made so far. *)
Record World := {
  registry : Registry;
  timers : list Timer;
  calls : list BotCall
}.

Definition fallbackText (value fallback : gostring) : gostring :=
  if bool_decide (strings.TrimSpace value = []) then fallback else value.

Record executionLabels := {
  ContextTitle : gostring;
  ActionTitle : gostring;
  LblQuestion : gostring;
  LblContext : gostring;
  LblOptions : gostring
}.

Definition executionLabelsFor (msg : i18n.Messages) : executionLabels :=
  {| ContextTitle := fallbackText (i18n.SectionContext msg) (lit "Context");
     ActionTitle := fallbackText (i18n.SectionAction msg) (lit "Action");
     LblQuestion := fallbackText (i18n.QuestionLabel msg) (lit "Question");
     LblContext := fallbackText (i18n.ContextLabel msg) (lit "Context");
     LblOptions := fallbackText (i18n.OptionsLabel msg) (lit "Options") |}.

Definition appendOptionalLineBreak (lineBreak : gostring) (enabled : bool) : gostring :=
  if enabled then lineBreak else [].

(** [executionMessageWriter]; each method returns what it appends. *)
Class executionMessageWriter := {
  WriteTitle : gostring → gostring;
  WriteSectionHeader : gostring → gostring;
  WriteLabelValue : gostring → gostring → bool → gostring;
  WriteOptions : gostring → list gostring → gostring;
  WriteCodeValue : gostring → gostring → bool → gostring
}.

Fixpoint writeOptionLines (marker lineEnd : gostring) (escape : gostring → gostring)
    (idx : Z) (options : list gostring) : gostring :=
  match options with
  | [] => []
  | option :: rest =>
      strings.Itoa (idx + 1) ++ marker ++ lit " " ++ escape option ++ lineEnd
        ++ writeOptionLines marker lineEnd escape (idx + 1) rest
  end.

Definition NL : gostring := [10%N].

Definition markdownExecutionWriter : executionMessageWriter := {|
  WriteTitle title := lit "*" ++ shared.EscapeMarkdownV2 title ++ lit "*" ++ NL ++ NL;
  WriteSectionHeader title := lit "*" ++ shared.EscapeMarkdownV2 title ++ lit "*" ++ NL;
  WriteLabelValue label value addEmptyLine :=
    lit "*" ++ shared.EscapeMarkdownV2 label ++ lit ":* "
      ++ shared.EscapeMarkdownV2 value ++ NL
      ++ appendOptionalLineBreak NL addEmptyLine;
  WriteOptions label options :=
    lit "*" ++ shared.EscapeMarkdownV2 label ++ lit ":*" ++ NL
      ++ writeOptionLines [92%N; 41%N] NL shared.EscapeMarkdownV2 0 options ++ NL;
  WriteCodeValue label value addEmptyLine :=
    lit "*" ++ shared.EscapeMarkdownV2 label ++ lit ":* `"
      ++ shared.EscapeMarkdownV2Code value ++ lit "`" ++ NL
      ++ appendOptionalLineBreak NL addEmptyLine
|}.

Definition htmlExecutionWriter : executionMessageWriter := {|
  WriteTitle title := lit "<b>" ++ shared.EscapeHTML title ++ lit "</b><br><br>";
  WriteSectionHeader title := lit "<b>" ++ shared.EscapeHTML title ++ lit "</b><br>";
  WriteLabelValue label value addEmptyLine :=
    lit "<b>" ++ shared.EscapeHTML label ++ lit ":</b> "
      ++ shared.EscapeHTML value ++ lit "<br>"
      ++ appendOptionalLineBreak (lit "<br>") addEmptyLine;
  WriteOptions label options :=
    lit "<b>" ++ shared.EscapeHTML label ++ lit ":</b><br>"
      ++ writeOptionLines (lit ")") (lit "<br>") shared.EscapeHTML 0 options
      ++ lit "<br>";
  WriteCodeValue label value addEmptyLine :=
    lit "<b>" ++ shared.EscapeHTML label ++ lit ":</b> <code>"
      ++ shared.EscapeHTML value ++ lit "</code><br>"
      ++ appendOptionalLineBreak (lit "<br>") addEmptyLine
|}.

Definition renderExecution (msg : i18n.Messages) (req : Request)
    (writer : executionMessageWriter) : gostring :=
  let labels := executionLabelsFor msg in
  WriteTitle (i18n.ExecutionTitle msg)
    ++ WriteSectionHeader (ContextTitle labels)
    ++ WriteLabelValue (LblQuestion labels) (Question req) false
    ++ (if negb (bool_decide (strings.TrimSpace (Context req) = []))
        then WriteLabelValue (LblContext labels) (Context req) false else [])
    ++ WriteOptions (LblOptions labels) (Options req)
    ++ WriteSectionHeader (ActionTitle labels)
    ++ WriteCodeValue (i18n.ExecutionTool msg) (Name (ReqTool req)) false
    ++ WriteCodeValue (i18n.ExecutionCorrelation msg) (CorrelationID req) false.

(** The three results of [SubmitExecution]. *)
Definition alreadyExists : Result :=
  {| ResStatus := StatusError; Output := AString (lit "execution already exists");
     Note := [] |}.

Definition sendFailed : Result :=
  {| ResStatus := StatusError;
     Output := AString (lit "failed to send telegram message"); Note := [] |}.

Definition queued : Result :=
  {| ResStatus := StatusPending; Output := AString (lit "queued"); Note := [] |}.

Section WithRuntime.
Variable caseTable : rune → rune.
Variable Sprint_v : any → gostring.
Variable validURL : gostring → bool.

Definition messagesFor (s : Service) (lang : gostring) : i18n.Messages :=
  shared.MessagesFor caseTable (svcMessages s) lang (svcLang s).

Definition parseMode (markup : gostring) : gostring :=
  if bool_decide (strings.ToLower caseTable (strings.TrimSpace markup) = lit "html")
  then ModeHTML else ModeMarkdownV2.

Definition renderMessage (s : Service) (req : Request) : gostring :=
  let msg := messagesFor s (Lang req) in
  if bool_decide (strings.ToLower caseTable (strings.TrimSpace (Markup req)) = lit "html")
  then renderExecution msg req htmlExecutionWriter
  else renderExecution msg req markdownExecutionWriter.

(** [SubmitExecution] returns the result and whether the error is
    non-nil.  [now] is the clock read by [Add]; [sent] is the outcome of
    the [SendMessage] call ([None] when it fails, else the message id). *)
Definition SubmitExecution (s : Service) (w : World) (req : Request)
    (timeout : Z) (timeoutMessage : gostring) (now : Z) (sent : option Z)
    : World * (Result * bool) :=
  let timeout := if timeout <=? 0 then Hour else timeout in
  match Add (registry w) req now with
  | (_, None) =>
      (w, (alreadyExists, false))
  | (r1, Some _) =>
      let messageText := renderMessage s req in
      let send := SendMessageCall messageText (parseMode (Markup req)) None in
      match sent with
      | None =>
          ({| registry := r1; timers := timers w; calls := calls w ++ [send] |},
           (sendFailed, true))
      | Some messageID =>
          ({| registry := SetMessage r1 (CorrelationID req) messageID messageText;
              timers := timers w ++
                [{| timerCorrelationID := CorrelationID req;
                    timerTimeout := timeout; timerMessage := timeoutMessage |}];
              calls := calls w ++ [send] |},
           (queued, false))
      end
  end.

(** The body of the goroutine started by [scheduleTimeout], run when
    its timer fires. *)
Definition fireTimeout (s : Service) (w : World) (t : Timer) : World :=
  match Resolve (registry w) (timerCorrelationID t) with
  | (r1, (Some exec, promptID, true)) =>
      {| registry := r1; timers := timers w;
         calls := calls w
           ++ (if promptID >? 0 then handlers.DeleteMessage promptID else [])
           ++ handlers.FinalizeExecution caseTable Sprint_v validURL (handler s) exec
                {| ResStatus := StatusError;
                   Output := AString (lit "execution timeout"); Note := [] |}
                (timerMessage t) |}
  | _ => w
  end.

End WithRuntime.

End telegram.

(** ** package http: the [/execute] handler *)

Module httpapi.
Import executions.

Inductive result (A : Type) :=
  | Ok (a : A)
  | Err (msg : gostring).
Arguments Ok {A} a.
Arguments Err {A} msg.

(** [ExecuteRequest].  A nil [Arguments] or [Spec] map reads like the
    empty map, which is what the handler turns a nil [Arguments] into. *)
Record ExecuteRequest := {
  ReqCorrelationID : gostring;
  ReqToolField : Tool;
  ReqArguments : gmap gostring any;
  ReqSpec : gmap gostring any;
  ReqLang : gostring;
  ReqMarkup : gostring;
  ReqCallbackField : option Callback;
  TimeoutSec : Z
}.

Record ExecuteResponse := {
  RespStatus : gostring;
  RespResult : any;
  RespCorrelationID : gostring
}.

(** What [ServeHTTP] writes: the status code and, unless the method is
    refused, the JSON body. *)
Record Response := {
  statusCode : Z;
  body : option ExecuteResponse
}.

(** The incoming request: its method and the outcome of decoding its
    body ([None] when [json.Decoder.Decode] fails). *)
Record HTTPRequest := {
  Method : gostring;
  Decoded : option ExecuteRequest
}.

Definition StatusAccepted : Z := 202.
Definition StatusBadRequest : Z := 400.
Definition StatusMethodNotAllowed : Z := 405.
Definition StatusInternalServerError : Z := 500.

Definition respond (statusCode : Z) (status : gostring) (result : any)
    (correlationID : list gostring) : Response :=
  {| statusCode := statusCode;
     body := Some {| RespStatus := status; RespResult := result;
                     RespCorrelationID :=
                       match correlationID with
                       | id :: _ => id
                       | [] => []
                       end |} |}.

Definition extractString (data : gmap gostring any) (key : gostring) : option gostring :=
  match data !! key with
  | Some (AString value) =>
      let value := strings.TrimSpace value in
      if bool_decide (value = []) then None else Some value
  | _ => None
  end.

Definition extractBool (data : gmap gostring any) (key : gostring) : option bool :=
  match data !! key with
  | Some (ABool value) => Some value
  | _ => None
  end.

(** The integer part of the finite [float64] [m * 2^e]. *)
Definition integerPart (m e : Z) : Z :=
  if 0 <=? e then m * 2 ^ e else Z.quot m (2 ^ (- e)).

Section Conversion.
(** What [int(value)] gives for a [float64] whose integer part no [int]
    holds: the language leaves the result to the implementation (amd64
    gives the least [int]). *)
Variable overflowInt : Z → Z.

(** The conversion [int(value)] of a finite [float64] [m * 2^e] on a
    64-bit platform: the fraction is discarded. *)
Definition float64ToInt (m e : Z) : Z :=
  let n := integerPart m e in
  if (- 2 ^ 63 <=? n) && (n <? 2 ^ 63) then n else wrap64 (overflowInt n).

Definition extractInt (data : gmap gostring any) (key : gostring) : option Z :=
  match data !! key with
  | Some (AInt value) => Some value
  | Some (AInt32 value) => Some value
  | Some (AInt64 value) => Some value
  | Some (AFloat64 m e) => Some (float64ToInt m e)
  | _ => None
  end.

Definition optionLimitsFromSpec (spec : gmap gostring any) : Z * Z :=
  let minOptions :=
    match extractInt spec (lit "options_min") with
    | Some value => if 0 <? value then value else 2
    | None => 2
    end in
  let maxOptions :=
    match extractInt spec (lit "options_max") with
    | Some value => if minOptions <=? value then value else 5
    | None => 5
    end in
  (minOptions, maxOptions).

(** The loop of [extractOptions]. *)
Fixpoint extractOptionItems (items : list any) (idx : Z) (out : list gostring)
    : result (list gostring) :=
  match items with
  | [] => Ok out
  | item :: rest =>
      match item with
      | AString value =>
          let value := strings.TrimSpace value in
          if bool_decide (value = []) then
            Err (lit "options[" ++ strings.Itoa idx ++ lit "] is empty")
          else if 300 <? Z.of_nat (length value) then
            Err (lit "options[" ++ strings.Itoa idx ++ lit "] must be <= 300 characters")
          else extractOptionItems rest (idx + 1) (out ++ [value])
      | _ => Err (lit "options[" ++ strings.Itoa idx ++ lit "] must be string")
      end
  end.

Definition extractOptions (arguments : gmap gostring any) (minOptions maxOptions : Z)
    : result (list gostring) :=
  match arguments !! lit "options" with
  | None | Some ANil => Err (lit "options is required")
  | Some (AArray items) =>
      if (Z.of_nat (length items) <? minOptions) || (maxOptions <? Z.of_nat (length items))
      then Err (lit "options count must be " ++ strings.Itoa minOptions
                  ++ lit "-" ++ strings.Itoa maxOptions)
      else extractOptionItems items 0 []
  | Some _ => Err (lit "options must be array")
  end.

(** What the option loop asks of one option string: not blank, and at
    most 300 code points once trimmed. *)
Definition optionOK (s : gostring) : Prop :=
  strings.TrimSpace s ≠ [] ∧ (length (strings.TrimSpace s) ≤ 300)%nat.

Definition parseFeedbackArgs (arguments spec : gmap gostring any)
    : result (gostring * gostring * list gostring * bool) :=
  match extractString arguments (lit "question") with
  | None => Err (lit "question is required")
  | Some question =>
      if (Z.of_nat (length question) <? 10) || (1000 <? Z.of_nat (length question))
      then Err (lit "question must be 10-1000 characters")
      else
        let contextValue := default [] (extractString arguments (lit "context")) in
        if 2000 <? Z.of_nat (length contextValue)
        then Err (lit "context must be <= 2000 characters")
        else
          let '(minOptions, maxOptions) := optionLimitsFromSpec spec in
          match extractOptions arguments minOptions maxOptions with
          | Err msg => Err msg
          | Ok options =>
              let allowCustom := true in
              let allowCustom :=
                default allowCustom (extractBool spec (lit "allow_custom_option")) in
              let allowCustom :=
                default allowCustom (extractBool arguments (lit "allow_custom")) in
              Ok (question, contextValue, options, allowCustom)
          end
  end.

End Conversion.

Section WithRuntime.
Variable caseTable : rune → rune.
Variable overflowInt : Z → Z.

Definition normalizeLang (value fallback : gostring) : gostring :=
  let value := strings.TrimSpace (strings.ToLower caseTable value) in
  if bool_decide (value = lit "ru") || bool_decide (value = lit "en") then value
  else
    let fallback := strings.TrimSpace (strings.ToLower caseTable fallback) in
    if bool_decide (fallback = lit "ru") || bool_decide (fallback = lit "en")
    then fallback else lit "en".

(** The first part of [ServeHTTP], from decoding the body to building
    the [executions.Request] and the effective timeout.  Every refusal
    in it is answered with [StatusBadRequest], [StatusError] and the
    message, so the message stands for that answer. *)
Definition decodeAndValidate (cfg : config.Config) (r : HTTPRequest)
    : result (Request * Z) :=
  match Decoded r with
  | None => Err (lit "invalid json payload")
  | Some req =>
      if bool_decide (strings.TrimSpace (ReqCorrelationID req) = []) then
        Err (lit "correlation_id is required")
      else if bool_decide (strings.TrimSpace (Name (ReqToolField req)) = []) then
        Err (lit "tool.name is required")
      else
        let markup := if bool_decide (strings.TrimSpace (ReqMarkup req) = [])
                      then lit "markdown" else ReqMarkup req in
        let m := strings.ToLower caseTable (strings.TrimSpace markup) in
        if negb (bool_decide (m = lit "markdown") || bool_decide (m = lit "html")) then
          Err (lit "markup must be markdown or html")
        else
          let lang := normalizeLang (ReqLang req) (config.Lang cfg) in
          match ReqCallbackField req with
          | None => Err (lit "callback.url is required for async execution")
          | Some callback =>
              if bool_decide (strings.TrimSpace (URL callback) = []) then
                Err (lit "callback.url is required for async execution")
              else
                match parseFeedbackArgs overflowInt (ReqArguments req) (ReqSpec req) with
                | Err msg => Err msg
                | Ok (question, contextValue, options, allowCustom) =>
                    let timeout :=
                      if 0 <? TimeoutSec req
                      then wrap64 (TimeoutSec req * Second)
                      else config.ExecutionTimeout cfg in
                    Ok ({| CorrelationID := ReqCorrelationID req;
                           ReqTool := ReqToolField req;
Arguments := ReqArguments req;
Spec := ReqSpec req;
Question := question;
Context := contextValue;
Options := options;
AllowCustom := allowCustom;
CustomLabel := [];
Lang := lang;
Markup := markup;
ReqCallback := callback |}, timeout)
end
end
end.

(** [ServeHTTP]; [now] and [sent] are passed on to [SubmitExecution]. *)
Definition ServeHTTP (cfg : config.Config) (svc : telegram.Service)
    (w : telegram.World) (r : HTTPRequest) (now : Z) (sent : option Z)
    : telegram.World * Response :=
  if negb (bool_decide (Method r = lit "POST")) then
    (w, {| statusCode := StatusMethodNotAllowed; body := None |})
  else
    match decodeAndValidate cfg r with
    | Err msg => (w, respond StatusBadRequest StatusError (AString msg) [])
    | Ok (req, timeout) =>
        let '(w1, (res, failed)) :=
          telegram.SubmitExecution caseTable svc w req timeout
            (config.TimeoutMessage cfg) now sent in
        if failed && bool_decide (ResStatus res = []) then
          (w1, respond StatusInternalServerError StatusError
                 (AString (lit "execution failed")) [])
        else
          (w1, respond StatusAccepted (ResStatus res) (Output res)
                 [CorrelationID req])
    end.

End WithRuntime.

End httpapi.

(** ** The parts of [strings] and [strconv] the update handler uses *)

Module gostd.

(** The first occurrence of [sep] cuts [s] in two. *)
Fixpoint cut (sep : rune) (s : gostring) : option (gostring * gostring) :=
  match s with
  | [] => None
  | c :: rest =>
      if (c =? sep)%N then Some ([], rest)
      else
        match cut sep rest with
        | Some (before, after) => Some (c :: before, after)
        | None => None
        end
  end.

(** [strings.SplitN(s, sep, 2)] for a separator of one ASCII character. *)
Definition SplitN2 (s : gostring) (sep : rune) : list gostring :=
  match cut sep s with
  | None => [s]
  | Some (before, after) => [before; after]
  end.

(** The digit loop of [strconv.Atoi]. *)
Fixpoint parseDigits (s : gostring) (n : Z) : option Z :=
  match s with
  | [] => Some n
  | ch :: rest =>
      if ((48 <=? ch) && (ch <=? 57))%N
      then parseDigits rest (n * 10 + (Z.of_N ch - 48))
      else None
  end.

Definition minInt : Z := - 2 ^ 63.
Definition maxInt : Z := 2 ^ 63 - 1.

(** [strconv.Atoi] on a 64-bit platform: an optional sign, at least one
    decimal digit, nothing else, and a value that fits [int]; [None] is
    the error. *)
Definition Atoi (s : gostring) : option Z :=
  match s with
  | [] => None
  | c :: rest =>
      let neg := (c =? 45)%N in
      let digits := if (c =? 45)%N || (c =? 43)%N then rest else s in
      match digits with
      | [] => None
      | _ =>
          match parseDigits digits 0 with
          | None => None
          | Some n =>
              let v := if neg then - n else n in
              if (minInt <=? v) && (v <=? maxInt) then Some v else None
          end
      end
  end.

End gostd.

(** ** package handlers: the dispatch of updates *)

Definition ModeMarkdown : gostring := lit "Markdown".

Module dispatch.
Import executions.

Definition ActionOption : gostring := lit "option".
Definition ActionCustom : gostring := lit "custom".
Definition ActionCancelCustom : gostring := lit "custom_cancel".
Definition ActionDelete : gostring := lit "delete".

(** [telego.CallbackQuery]: [QueryChat] is the chat of [query.Message],
    [None] when the query carries no message. *)
Record CallbackQuery := {
  QueryID : gostring;
  QueryData : gostring;
  QueryChat : option Z
}.

Record Voice := { FileID : gostring }.

Record Message := {
  MsgChat : Z;
  MsgText : gostring;
  MsgVoice : option Voice
}.

Record Update := {
  UpdCallbackQuery : option CallbackQuery;
  UpdMessage : option Message
}.

(** What the outside world answers while one update is handled: the
    outcome of sending the custom prompt, of [GetFile] and of the download,
    the transcoder, and the speech-to-text call ([None] when the handler
    has no transcriber).  The speech-to-text call gets the audio, the file
    name, the content type and the language, and gives the text or fails. *)
Record Env := {
  promptSent : option Z;
  getFile : gostring → option gostring;
  downloadFile : gostring → option (list Byte.byte);
  ffmpeg : list Byte.byte → handlers.ffmpegOutcome;
  transcriber :
    option (list Byte.byte → gostring → gostring → gostring → option gostring)
}.

Definition CallbackData (action payload : gostring) : gostring :=
  match payload with
  | [] => action
  | _ => action ++ lit ":" ++ payload
  end.

Definition parseCallback (data : gostring) : gostring * gostring :=
  match gostd.SplitN2 data 58%N with
  | [part] => (part, [])
  | part0 :: part1 :: _ => (part0, part1)
  | [] => ([], [])
  end.

(** [parseOptionPayload]: [None] is "invalid option payload". *)
Definition parseOptionPayload (payload : gostring) : option (gostring * Z) :=
  match gostd.SplitN2 payload 124%N with
  | [part0; part1] =>
      match gostd.Atoi part1 with
      | Some index => Some (part0, index)
      | None => None
      end
  | _ => None
  end.

(** Outcome of [transcribeVoice]; of an error only its being
    [errTranscriberDisabled] or not is looked at. *)
Inductive transcription :=
  | Transcript (text : gostring)
  | TranscriberDisabled
  | TranscriptionError.

(** [OpenAITranscriber.Transcribe] around the provider call [api]. *)
Definition Transcribe
    (api : list Byte.byte → gostring → gostring → gostring → option gostring)
    (data : list Byte.byte) (filename contentType language : gostring) : transcription :=
  match data with
  | [] => TranscriptionError
  | _ =>
      let filename := match filename with [] => lit "voice.mp3" | _ => filename end in
      let contentType :=
        match contentType with [] => lit "audio/mpeg" | _ => contentType end in
      match api data filename contentType language with
      | None => TranscriptionError
      | Some [] => TranscriptionError
      | Some text => Transcript text
      end
  end.

(** The success output of a resolution, with the keys in source order. *)
Definition answerOutput (question selected : gostring) (index : any)
    (custom : bool) (inputMode : gostring) : any :=
  AMap [(lit "question", AString question);
        (lit "selected_option", AString selected);
        (lit "selected_index", index);
        (lit "custom", ABool custom);
        (lit "input_mode", AString inputMode)].

(** [fmt.Sprintf("✅ %s: %s", label, answer)] *)
Definition selectedNote (label answer : gostring) : gostring :=
  [9989%N; 32%N] ++ label ++ lit ": " ++ answer.

Definition emit (w : telegram.World) (cs : list BotCall) : telegram.World :=
  {| telegram.registry := telegram.registry w;
     telegram.timers := telegram.timers w;
     telegram.calls := telegram.calls w ++ cs |}.

Definition withRegistry (w : telegram.World) (r : Registry) : telegram.World :=
  {| telegram.registry := r;
     telegram.timers := telegram.timers w;
     telegram.calls := telegram.calls w |}.

Definition allowedChat (h : handlers.Handler) (chatID : Z) : bool :=
  chatID =? handlers.chatID h.

Definition reply (text : gostring) : list BotCall :=
  [SendMessageCall text ModeMarkdown None].

Section WithRuntime.
Variable caseTable : rune → rune.
Variable Sprint_v : any → gostring.
Variable validURL : gostring → bool.

Definition transcribeVoice (h : handlers.Handler) (env : Env) (voice : Voice)
    : transcription :=
  match transcriber env with
  | None => TranscriberDisabled
  | Some api =>
      match getFile env (FileID voice) with
      | None => TranscriptionError
      | Some filePath =>
          match downloadFile env filePath with
          | None => TranscriptionError
          | Some data =>
              match handlers.normalizeVoiceAudio caseTable (ffmpeg env) data [] filePath with
              | handlers.AudioError _ => TranscriptionError
              | handlers.Audio normalized mimeType fileName =>
                  Transcribe api normalized fileName mimeType (handlers.sttLang h)
              end
          end
      end
  end.

(** The common end of the text and the voice branch of [handleMessage]:
    resolve the prompt owner with a free-form [answer]. *)
Definition resolveCustom (h : handlers.Handler) (w : telegram.World)
    (exec : Execution) (answer inputMode : gostring) : telegram.World :=
  match Resolve (telegram.registry w) (CorrelationID (ExecRequest exec)) with
  | (r1, (Some exec, promptID, true)) =>
      let output := answerOutput (Question (ExecRequest exec)) answer ANil true inputMode in
      let note :=
        selectedNote
          (i18n.SelectedNote (handlers.messageFor caseTable h (Lang (ExecRequest exec))))
          answer in
      emit (withRegistry w r1)
        ((if promptID >? 0 then handlers.DeleteMessage promptID else [])
         ++ handlers.FinalizeExecution caseTable Sprint_v validURL h exec
              {| ResStatus := StatusSuccess; Output := output; Note := note |} [])
  | (r1, _) => withRegistry w r1
  end.

Definition handleMessage (h : handlers.Handler) (w : telegram.World) (env : Env)
    (message : Message) : telegram.World :=
  if negb (allowedChat h (MsgChat message)) then w
  else
    match CurrentPrompt (telegram.registry w) with
    | (None, _) => w
    | (Some exec, _) =>
        if negb (AwaitingText exec) then w
        else
          match MsgText message with
          | _ :: _ =>
              let answer := strings.TrimSpace (MsgText message) in
              match answer with
              | [] => w
              | _ => resolveCustom h w exec answer (lit "text")
              end
          | [] =>
              match MsgVoice message with
              | None => w
              | Some voice =>
                  match transcribeVoice h env voice with
                  | TranscriberDisabled =>
                      emit w (reply (i18n.VoiceDisabled
                                       (handlers.messageFor caseTable h
                                          (Lang (ExecRequest exec)))))
                  | TranscriptionError =>
                      emit w (reply (i18n.TranscriptionFailed
                                       (handlers.messageFor caseTable h
                                          (Lang (ExecRequest exec)))))
                  | Transcript answer =>
                      let answer := strings.TrimSpace answer in
                      match answer with
                      | [] => w
                      | _ => resolveCustom h w exec answer (lit "voice")
                      end
                  end
              end
          end
    end.

Definition deleteMessage (h : handlers.Handler) (w : telegram.World)
    (queryID payload : gostring) : telegram.World :=
  match gostd.Atoi payload with
  | Some messageID =>
      if messageID <=? 0 then
        emit w (handlers.answerCallback queryID
                  (i18n.InvalidAction (handlers.messageFor caseTable h [])))
      else
        emit w (handlers.DeleteMessage messageID ++ handlers.answerCallback queryID [])
  | None =>
      emit w (handlers.answerCallback queryID
                (i18n.InvalidAction (handlers.messageFor caseTable h [])))
  end.

Definition resolveOption (h : handlers.Handler) (w : telegram.World)
    (queryID payload : gostring) : telegram.World :=
  match parseOptionPayload payload with
  | None =>
      emit w (handlers.answerCallback queryID
                (i18n.InvalidAction (handlers.messageFor caseTable h [])))
  | Some (correlationID, optionIndex) =>
      match Get (telegram.registry w) correlationID with
      | None =>
          emit w (handlers.answerCallback queryID
                    (i18n.AlreadyResolved (handlers.messageFor caseTable h [])))
      | Some exec =>
          if (optionIndex <? 0)
             || (Z.of_nat (length (Options (ExecRequest exec))) <=? optionIndex)
          then
            emit w (handlers.answerCallback queryID
                      (i18n.InvalidAction
                         (handlers.messageFor caseTable h (Lang (ExecRequest exec)))))
          else
            match Resolve (telegram.registry w) correlationID with
            | (r1, (Some exec, promptID, true)) =>
                let selected :=
                  nth (Z.to_nat optionIndex) (Options (ExecRequest exec)) [] in
                let output :=
                  answerOutput (Question (ExecRequest exec)) selected
                    (AInt optionIndex) false (lit "button") in
                let msg := handlers.messageFor caseTable h (Lang (ExecRequest exec)) in
                let note := selectedNote (i18n.SelectedNote msg) selected in
                emit (withRegistry w r1)
                  ((if promptID >? 0 then handlers.DeleteMessage promptID else [])
                   ++ handlers.FinalizeExecution caseTable Sprint_v validURL h exec
                        {| ResStatus := StatusSuccess; Output := output; Note := note |} []
                   ++ handlers.answerCallback queryID note)
            | (r1, _) =>
                emit (withRegistry w r1)
                  (handlers.answerCallback queryID
                     (i18n.AlreadyResolved (handlers.messageFor caseTable h [])))
            end
      end
  end.

Definition handleCallback (h : handlers.Handler) (w : telegram.World) (env : Env)
    (query : CallbackQuery) : telegram.World :=
  match QueryChat query with
  | None => w
  | Some chat =>
      if negb (allowedChat h chat) then
        emit w (handlers.answerCallback (QueryID query)
                  (i18n.InvalidChat (handlers.messageFor caseTable h [])))
      else
        let '(action, payload) := parseCallback (QueryData query) in
        if bool_decide (action = ActionOption) then
          resolveOption h w (QueryID query) payload
        else if bool_decide (action = ActionCustom) then
          let '(r1, cs) :=
            handlers.startCustomPrompt caseTable h (telegram.registry w)
              (QueryID query) payload (promptSent env) in
          emit (withRegistry w r1) cs
        else if bool_decide (action = ActionCancelCustom) then
          let '(r1, cs) :=
            handlers.cancelCustomPrompt (telegram.registry w) (QueryID query) payload in
          emit (withRegistry w r1) cs
        else if bool_decide (action = ActionDelete) then
          deleteMessage h w (QueryID query) payload
        else
          emit w (handlers.answerCallback (QueryID query)
                    (i18n.InvalidAction (handlers.messageFor caseTable h [])))
  end.

Definition HandleUpdate (h : handlers.Handler) (w : telegram.World) (env : Env)
    (update : Update) : telegram.World :=
  match UpdCallbackQuery update with
  | Some query => handleCallback h w env query
  | None =>
      match UpdMessage update with
      | Some message => handleMessage h w env message
      | None => w
      end
  end.

End WithRuntime.

End dispatch.

(** ** Inline keyboards (service.go and the update handler) *)

Module keyboard.
Import executions.

(** One keyboard row holding one button. *)
Record Button := {
  Label : gostring;
  Data : gostring
}.

Definition shortenButtonLabel (value : gostring) (maxRunes : Z) : gostring :=
  let value := strings.TrimSpace value in
  match value with
  | [] => lit "-"
  | _ =>
      if maxRunes <=? 0 then value
      else if Z.of_nat (length value) <=? maxRunes then value
      else if maxRunes <=? 1 then take (Z.to_nat maxRunes) value
      else if maxRunes <=? 3 then take (Z.to_nat maxRunes) value
      else take (Z.to_nat (maxRunes - 3)) value ++ lit "..."
  end.

(** The loop of [optionsKeyboard], from index [idx] on. *)
Fixpoint optionRows (correlationID : gostring) (idx : Z) (options : list gostring)
    : list Button :=
  match options with
  | [] => []
  | option :: rest =>
      let payload := correlationID ++ lit "|" ++ strings.Itoa idx in
      let label := strings.Itoa (idx + 1) ++ lit ". " ++ shortenButtonLabel option 42 in
      {| Label := label; Data := dispatch.CallbackData dispatch.ActionOption payload |}
        :: optionRows correlationID (idx + 1) rest
  end.

Section WithRuntime.
Variable caseTable : rune → rune.

Definition optionsKeyboard (s : telegram.Service) (req : Request) : list Button :=
  let msg := telegram.messagesFor caseTable s (Lang req) in
  optionRows (CorrelationID req) 0 (Options req)
    ++ (if AllowCustom req then
          let customLabel := strings.TrimSpace (i18n.CustomOptionButton msg) in
          let customLabel :=
            match customLabel with [] => lit "Custom option" | _ => customLabel end in
          [{| Label := customLabel;
              Data := dispatch.CallbackData dispatch.ActionCustom (CorrelationID req) |}]
        else []).

Definition promptKeyboard (h : handlers.Handler) (lang correlationID : gostring)
    : list Button :=
  [{| Label := i18n.CancelCustomButton (handlers.messageFor caseTable h lang);
      Data := dispatch.CallbackData dispatch.ActionCancelCustom correlationID |}].

Definition resolvedKeyboard (h : handlers.Handler) (lang : gostring) (messageID : Z)
    : list Button :=
  [{| Label := i18n.DeleteButton (handlers.messageFor caseTable h lang);
      Data := dispatch.CallbackData dispatch.ActionDelete (strings.Itoa messageID) |}].

End WithRuntime.

End keyboard.

(** ** package updates: the webhook source *)

Module webhook.

(** The webhook source: the shared secret, the buffered channel of
    updates (oldest first) and the [closed] flag. *)
Record Webhook := {
  secret : gostring;
  updates : list dispatch.Update;
  closed : bool
}.

(** Capacity of the channel made by [NewWebhook]. *)
Definition capacity : nat := 128.

Definition NewWebhook (secret : gostring) : Webhook :=
  {| secret := secret; updates := []; closed := false |}.

(** A request to the webhook endpoint: its method, the value of the
    [X-Telegram-Bot-Api-Secret-Token] header (empty when absent) and the
    outcome of decoding the body. *)
Record Request := {
  Method : gostring;
  SecretToken : gostring;
  Body : option dispatch.Update
}.

Definition StatusOK : Z := 200.
Definition StatusBadRequest : Z := 400.
Definition StatusUnauthorized : Z := 401.
Definition StatusMethodNotAllowed : Z := 405.
Definition StatusServiceUnavailable : Z := 503.

(** The handler returned by [Handler]: the new state and the status code. *)
Definition Handler (w : Webhook) (r : Request) : Webhook * Z :=
  if closed w then (w, StatusServiceUnavailable)
  else if negb (bool_decide (Method r = lit "POST")) then (w, StatusMethodNotAllowed)
  else if negb (bool_decide (SecretToken r = secret w)) then (w, StatusUnauthorized)
  else
    match Body r with
    | None => (w, StatusBadRequest)
    | Some update =>
        if (length (updates w) <? capacity)%nat then
          ({| secret := secret w; updates := updates w ++ [update]; closed := closed w |},
           StatusOK)
        else (w, StatusServiceUnavailable)
    end.

Definition Stop (w : Webhook) : Webhook :=
  {| secret := secret w; updates := updates w; closed := true |}.

(** The consumer takes the oldest update from the channel. *)
Definition receive (w : Webhook) : Webhook * option dispatch.Update :=
  match updates w with
  | [] => (w, None)
  | update :: rest =>
      ({| secret := secret w; updates := rest; closed := closed w |}, Some update)
  end.

Inductive action :=
  | Serve (r : Request)
  | Receive
  | StopSource.

Definition act (w : Webhook) (a : action) : Webhook :=
  match a with
  | Serve r => fst (Handler w r)
  | Receive => fst (receive w)
  | StopSource => Stop w
  end.

End webhook.

(** ** The running program: requests, updates and timers in some order *)

Module program.
Import executions.

Inductive event :=
  | Execute (r : httpapi.HTTPRequest) (now : Z) (sent : option Z)
  | Incoming (update : dispatch.Update) (env : dispatch.Env)
  | TimerFires (n : nat).

Section WithRuntime.
Variable caseTable : rune → rune.
Variable Sprint_v : any → gostring.
Variable validURL : gostring → bool.
Variable overflowInt : Z → Z.
Variable cfg : config.Config.
Variable svc : telegram.Service.

(** One event.  The [n]-th armed timer fires once and is then gone. *)
Definition step (w : telegram.World) (e : event) : telegram.World :=
  match e with
  | Execute r now sent =>
      fst (httpapi.ServeHTTP caseTable overflowInt cfg svc w r now sent)
  | Incoming update env =>
      dispatch.HandleUpdate caseTable Sprint_v validURL (telegram.handler svc) w env update
  | TimerFires n =>
      match telegram.timers w !! n with
      | None => w
      | Some t =>
          let w1 := telegram.fireTimeout caseTable Sprint_v validURL svc w t in
          {| telegram.registry := telegram.registry w1;
             telegram.timers := delete n (telegram.timers w1);
             telegram.calls := telegram.calls w1 |}
      end
  end.

Definition run (events : list event) (w : telegram.World) : telegram.World :=
  fold_left step events w.

Definition registered (r : Registry) (id : gostring) : bool :=
  match execs r !! id with
  | Some _ => true
  | None => false
  end.

(** Whether the [/execute] request [e], arriving in world [w], registers
    an execution under [id]: the id is free before it and taken after. *)
Definition registers (id : gostring) (w : telegram.World) (e : event) : bool :=
  match e with
  | Execute _ _ _ =>
      negb (registered (telegram.registry w) id)
      && registered (telegram.registry (step w e)) id
  | _ => false
  end.

(** How many of [events], arriving one after the other from world [w]
    on, are requests that register an execution under [id]. *)
Fixpoint registrationsFor (id : gostring) (events : list event) (w : telegram.World)
    : nat :=
  match events with
  | [] => 0
  | e :: rest =>
      ((if registers id w e then 1 else 0) + registrationsFor id rest (step w e))%nat
  end.

End WithRuntime.

(** The world at start: [NewRegistry], no timer, no call. *)
Definition start : telegram.World :=
  {| telegram.registry := NewRegistry; telegram.timers := []; telegram.calls := [] |}.

Definition isWebhookFor (id : gostring) (c : BotCall) : bool :=
  match c with
  | WebhookPost _ correlationID _ _ _ => bool_decide (correlationID = id)
  | _ => false
  end.

(** The callbacks posted for [id] among [cs]. *)
Definition webhooksFor (id : gostring) (cs : list BotCall) : nat :=
  length (List.filter (isWebhookFor id) cs).

Definition isExecuteFor (id : gostring) (e : event) : bool :=
  match e with
  | Execute r _ _ =>
      match httpapi.Decoded r with
      | Some req => bool_decide (httpapi.ReqCorrelationID req = id)
      | None => false
      end
  | _ => false
  end.

(** The [/execute] requests among [events] that carry [id]. *)
Definition executesFor (id : gostring) (events : list event) : nat :=
  length (List.filter (isExecuteFor id) events).

Definition isAnswerTo (queryID : gostring) (c : BotCall) : bool :=
  match c with
  | AnswerCallbackQueryCall q _ => bool_decide (q = queryID)
  | _ => false
  end.

(** The acknowledgements of callback query [queryID] among [cs]. *)
Definition answersTo (queryID : gostring) (cs : list BotCall) : nat :=
  length (List.filter (isAnswerTo queryID) cs).

End program.

(** ** The specification's readings, to compare with the code *)

Module claimed.

(** The number a field of a JSON object holds, as its integer part;
    [encoding/json] stores every number of a [map[string]any] as a
    [float64]. *)
Definition numberField (data : gmap gostring any) (key : gostring) : option Z :=
  match data !! key with
  | Some (AFloat64 m e) => Some (httpapi.integerPart m e)
  | _ => None
  end.

(** The field is as [encoding/json] decodes it (absent, or not an [int],
    [int32] or [int64]) and, when it is a number, an [int] holds its
    integer part. *)
Definition plainField (data : gmap gostring any) (key : gostring) : Prop :=
  match data !! key with
  | Some (AInt _) | Some (AInt32 _) | Some (AInt64 _) => False
  | Some (AFloat64 m e) => - 2 ^ 63 ≤ httpapi.integerPart m e < 2 ^ 63
  | _ => True
  end.

(** The effective limits in the specification's words: [options_min] is
    2 unless [spec.options_min] is positive, [options_max] is 5 unless
    [spec.options_max] is at least the effective [options_min]. *)
Definition optionLimits (spec : gmap gostring any) : Z * Z :=
  let optionsMin :=
    match numberField spec (lit "options_min") with
    | Some n => if 0 <? n then n else 2
    | None => 2
    end in
  let optionsMax :=
    match numberField spec (lit "options_max") with
    | Some n => if optionsMin <=? n then n else 5
    | None => 5
    end in
  (optionsMin, optionsMax).



End claimed.

(** ** Predicates used to state properties of the registry *)

Module facts.
Import executions.

(** Every stored execution carries the correlation id it is stored under. *)
Definition keyed (r : Registry) : Prop :=
  ∀ id e, execs r !! id = Some e → CorrelationID (ExecRequest e) = id.

(** An empty singleton records no prompt message. *)
Definition no_stale_prompt (r : Registry) : Prop :=
  promptCorrelation r = [] → promptMessageID r = 0.

(** The registry with the execution under [id] replaced by [e]. *)
Definition store (r : Registry) (id : gostring) (e : Execution)
    (promptID : Z) (owner : gostring) : Registry :=
  {| execs := <[id := e]> (execs r); promptMessageID := promptID;
     promptCorrelation := owner |}.

(** [s] is well formed MarkdownV2 text with respect to [reserved]: every
    backslash is followed by a character, which it escapes, and no other
    character is reserved. *)
Fixpoint escaped (reserved s : gostring) : bool :=
  match s with
  | [] => true
  | c :: rest =>
      if (c =? 92)%N then
        match rest with
        | [] => false
        | _ :: rest' => escaped reserved rest'
        end
      else negb (strings.ContainsRune reserved c) && escaped reserved rest
  end.

(** The characters HTML escaping removes altogether. *)
Definition htmlDelimiter (c : rune) : bool :=
  ((c =? 60) || (c =? 62) || (c =? 34) || (c =? 39))%N.

(** An operation that neither registers nor resolves an execution. *)
Definition quiet (o : op) : Prop :=
  match o with
  | OpAdd _ _ | OpResolve _ => False
  | _ => True
  end.

(** 1 when [id] is registered, else 0. *)
Definition live (r : Registry) (id : gostring) : nat :=
  match execs r !! id with
  | Some _ => 1%nat
  | None => 0%nat
  end.

(** What handling an update or a timer does to the world: it adds calls,
    and either runs quiet registry operations and posts no callback, or
    resolves one registered execution and posts at most one callback, for
    the id in that execution's request. *)
Definition handled (w w' : telegram.World) : Prop :=
  ∃ cs,
    telegram.calls w' = telegram.calls w ++ cs ∧
    ((∃ ops, Forall quiet ops ∧
             telegram.registry w' = run ops (telegram.registry w) ∧
             ∀ id, program.webhooksFor id cs = 0%nat) ∨
     (∃ id exec,
        execs (telegram.registry w) !! id = Some exec ∧
        telegram.registry w' = fst (Resolve (telegram.registry w) id) ∧
        ∀ id', (program.webhooksFor id' cs
                ≤ if bool_decide (CorrelationID (ExecRequest exec) = id')
                  then 1 else 0)%nat)).

(** Every armed timer runs for a positive duration. *)
Definition timersPositive (w : telegram.World) : Prop :=
  Forall (λ t, 0 < telegram.timerTimeout t) (telegram.timers w).

End facts.

(** ** Concrete data used to run the definitions *)

Module sample.

(** A case table under which no rune above ASCII has a lower-case form. *)
Definition caseTable (r : rune) : rune := r.

(** A [%v] printer that prints strings as they are. *)
Definition sprint (x : any) : gostring :=
  match x with
  | AString s => s
  | _ => lit "?"
  end.

Definition tool : executions.Tool :=
  {| executions.Name := lit "t"; executions.Title := []; executions.Description := [];
     executions.InputSchema := ∅; executions.OutputSchema := ∅;
     executions.Metadata := ∅; executions.Tags := [] |}.

Definition request (id : gostring) : executions.Request :=
  {| executions.CorrelationID := id;
     executions.ReqTool := tool;
     executions.Arguments := ∅;
     executions.Spec := ∅;
     executions.Question := lit "Question??";
     executions.Context := [];
     executions.Options := [lit "A"; lit "B"];
     executions.AllowCustom := true;
     executions.CustomLabel := [];
     executions.Lang := lit "en";
     executions.Markup := lit "markdown";
     executions.ReqCallback := {| executions.URL := lit "http://cb" |} |}.

(** A label set whose every label is [tag]. *)
Definition labels (tag : gostring) : i18n.Messages :=
  i18n.Build_Messages tag tag tag tag tag tag tag tag tag tag tag
    tag tag tag tag tag tag tag tag tag tag tag.

Definition handler : handlers.Handler :=
  {| handlers.messages := {[ lit "en" := labels (lit "EN"); lit "ru" := labels (lit "RU") ]};
     handlers.defaultLang := lit "en";
     handlers.chatID := 1;
     handlers.sttLang := lit "en" |}.

Definition service : telegram.Service :=
  {| telegram.svcMessages := handlers.messages handler;
     telegram.svcLang := lit "en";
     telegram.svcChatID := 1;
     telegram.handler := handler |}.

Definition cfg : config.Config :=
  {| config.Lang := lit "en"; config.ChatID := 1;
     config.ExecutionTimeout := Hour; config.TimeoutMessage := [] |}.

Definition world0 : telegram.World :=
  {| telegram.registry := executions.NewRegistry;
     telegram.timers := []; telegram.calls := [] |}.

(** Registry in which ["r1"] owns the prompt, with prompt message 7. *)
Definition promptedRegistry : executions.Registry :=
  executions.run
    [executions.OpAdd (request (lit "r1")) 0;
     executions.OpSetMessage (lit "r1") 5 (lit "text");
     executions.OpStartCustomInput (lit "r1");
     executions.OpSetPromptMessage (lit "r1") 7]
    executions.NewRegistry.

Definition promptedExecution : executions.Execution :=
  {| executions.ExecRequest := request (lit "r1"); executions.CreatedAt := 0;
     executions.MessageID := 5; executions.MessageText := lit "text";
     executions.AwaitingText := true |}.

(** The request of scenario S1. *)
Definition executeRequest : httpapi.ExecuteRequest :=
  {| httpapi.ReqCorrelationID := lit "r1";
     httpapi.ReqToolField := tool;
     httpapi.ReqArguments :=
       {[ lit "question" := AString (lit "Question??");
          lit "options" := AArray [AString (lit "A"); AString (lit "B")] ]};
     httpapi.ReqSpec := ∅;
     httpapi.ReqLang := [];
     httpapi.ReqMarkup := [];
     httpapi.ReqCallbackField := Some {| executions.URL := lit "http://cb" |};
     httpapi.TimeoutSec := 0 |}.

(** The [executions.Request] the handler builds from it. *)
Definition submitted : executions.Request :=
  {| executions.CorrelationID := lit "r1";
     executions.ReqTool := tool;
     executions.Arguments := httpapi.ReqArguments executeRequest;
     executions.Spec := ∅;
     executions.Question := lit "Question??";
     executions.Context := [];
     executions.Options := [lit "A"; lit "B"];
     executions.AllowCustom := true;
     executions.CustomLabel := [];
     executions.Lang := lit "en";
     executions.Markup := lit "markdown";
     executions.ReqCallback := {| executions.URL := lit "http://cb" |} |}.


Definition post (req : httpapi.ExecuteRequest) : httpapi.HTTPRequest :=
  {| httpapi.Method := lit "POST"; httpapi.Decoded := Some req |}.

(** A registry of labels that lacks English. *)
Definition russianOnly : gmap gostring i18n.Messages :=
  {[ lit "ru" := labels (lit "RU") ]}.

(** An [ffmpeg] that always fails. *)
Definition noFfmpeg (content : list Byte.byte) : handlers.ffmpegOutcome :=
  handlers.RunFailed (lit "exit status 1") [].

(** A world whose registry is [promptedRegistry]. *)
Definition promptedWorld : telegram.World :=
  {| telegram.registry := promptedRegistry; telegram.timers := [];
     telegram.calls := [] |}.

(** An outside world in which every external call fails and there is
    no transcriber. *)
Definition noEnv : dispatch.Env :=
  {| dispatch.promptSent := None; dispatch.getFile := λ _, None;
     dispatch.downloadFile := λ _, None; dispatch.ffmpeg := noFfmpeg;
     dispatch.transcriber := None |}.

(** Every callback URL parses. *)
Definition validURL : gostring → bool := λ _, true.

(** The conversion of amd64: a value out of range gives the least [int]. *)
Definition overflowInt : Z → Z := λ _, - 2 ^ 63.

(** The first option button of ["r1"] is pressed in the configured chat. *)
Definition pressFirst : dispatch.Update :=
  {| dispatch.UpdCallbackQuery :=
       Some {| dispatch.QueryID := lit "q1"; dispatch.QueryData := lit "option:r1|0";
               dispatch.QueryChat := Some 1 |};
     dispatch.UpdMessage := None |}.

(** ["r1"] is registered, answered by button, and registered again. *)
Definition registeredAgain : telegram.World :=
  program.run caseTable sprint validURL overflowInt cfg service
    [program.Execute (post executeRequest) 0 (Some 5);
     program.Incoming pressFirst noEnv;
     program.Execute (post executeRequest) 1 (Some 6)]
    program.start.

(** The timer armed by the first registration. *)
Definition firstTimer : telegram.Timer :=
  {| telegram.timerCorrelationID := lit "r1"; telegram.timerTimeout := Hour;
     telegram.timerMessage := [] |}.

Definition textMessage : dispatch.Message :=
  {| dispatch.MsgChat := 1; dispatch.MsgText := lit " my answer ";
     dispatch.MsgVoice := None |}.

End sample.

(** * Properties *)

(** ** The registry *)

Section RegistryFacts.
Import executions.

(** An id that is not registered stays unregistered until it is added. *)
Lemma step_absent r id o :
  execs r !! id = None → ¬ adds id o → execs (step r o) !! id = None.
Proof.
  intros Hnone Hadd. destruct o as [req now|cid mid text|cid|cid mid|cid|cid]; simpl in *.
  - unfold Add. destruct (execs r !! CorrelationID req) eqn:E; simpl; [done|].
    rewrite lookup_insert_ne; [done|]. intros Heq. by apply Hadd.
  - unfold SetMessage. destruct (execs r !! cid) eqn:E; simpl; [|done].
    rewrite lookup_insert_ne; [done|]. congruence.
  - unfold StartCustomInput. destruct (execs r !! cid) eqn:E; simpl; [|done].
    rewrite lookup_insert_ne; [|congruence].
    destruct (_ && _); [|done].
    destruct (execs r !! promptCorrelation r) eqn:E'; [|done].
    rewrite lookup_insert_ne; [done|]. congruence.
  - unfold SetPromptMessage. by case_bool_decide.
  - unfold ClearPrompt. case_bool_decide; simpl; [|done].
    destruct (execs r !! cid) eqn:E; [|done].
    rewrite lookup_insert_ne; [done|]. congruence.
  - unfold Resolve. destruct (execs r !! cid) eqn:E; simpl; [|done].
    case_bool_decide; simpl; destruct (decide (cid = id)) as [->|Hne];
      by rewrite ?lookup_delete_eq, ?lookup_delete_ne.
Qed.

Lemma run_absent ops : ∀ r id,
  execs r !! id = None → Forall (λ o, ¬ adds id o) ops →
  execs (run ops r) !! id = None.
Proof.
  induction ops as [|o ops IH]; intros r id Hnone Hall; simpl; [done|].
  inversion Hall; subst. apply IH; [|done]. by apply step_absent.
Qed.

(** A registered id stays registered until it is resolved. *)
Lemma step_present r id o :
  is_Some (execs r !! id) → ¬ resolves id o → is_Some (execs (step r o) !! id).
Proof.
  intros Hsome Hres. destruct o as [req now|cid mid text|cid|cid mid|cid|cid]; simpl in *.
  - unfold Add. destruct (execs r !! CorrelationID req) eqn:E; simpl; [done|].
    rewrite lookup_insert_is_Some. destruct (decide (CorrelationID req = id)); auto.
  - unfold SetMessage. destruct (execs r !! cid) eqn:E; simpl; [|done].
    rewrite lookup_insert_is_Some. destruct (decide (cid = id)); auto.
  - unfold StartCustomInput. destruct (execs r !! cid) eqn:E; simpl; [|done].
    rewrite lookup_insert_is_Some. destruct (decide (cid = id)); [auto|right].
    split; [done|]. destruct (_ && _); [|done].
    destruct (execs r !! promptCorrelation r) eqn:E'; [|done].
    rewrite lookup_insert_is_Some. destruct (decide (promptCorrelation r = id)); auto.
  - unfold SetPromptMessage. by case_bool_decide.
  - unfold ClearPrompt. case_bool_decide; simpl; [|done].
    destruct (execs r !! cid) eqn:E; [|done].
    rewrite lookup_insert_is_Some. destruct (decide (cid = id)); auto.
  - unfold Resolve. destruct (execs r !! cid) eqn:E; simpl; [|done].
    case_bool_decide; simpl; by rewrite lookup_delete_ne.
Qed.

Lemma run_present ops : ∀ r id,
  is_Some (execs r !! id) → Forall (λ o, ¬ resolves id o) ops →
  is_Some (execs (run ops r) !! id).
Proof.
  induction ops as [|o ops IH]; intros r id Hsome Hall; simpl; [done|].
  inversion Hall; subst. apply IH; [|done]. by apply step_present.
Qed.

Lemma Resolve_absent r id :
  execs r !! id = None → Resolve r id = (r, (None, 0, false)).
Proof. intros H. unfold Resolve. by rewrite H. Qed.

Lemma prompt_inv_new : prompt_inv NewRegistry.
Proof. repeat split; simpl; done. Qed.

Lemma prompt_inv_step r o : wf_op o → prompt_inv r → prompt_inv (step r o).
Proof.
  intros Hwf (Hone & Hown & Hnil).
  destruct o as [req now|cid mid text|cid|cid mid|cid|cid]; simpl in *.
  - unfold Add. destruct (execs r !! CorrelationID req) eqn:E; simpl; [done|].
    (split; [|split]); simpl.
    + intros id e. rewrite lookup_insert_Some. intros [[<- <-]|[Hne He]]; [done|eauto].
    + intros Hp. destruct (Hown Hp) as (e & He & Ha). exists e. split; [|done]. simpl.
      rewrite lookup_insert_ne; [done|]. congruence.
    + by rewrite lookup_insert_ne.
  - unfold SetMessage. destruct (execs r !! cid) as [x|] eqn:E; simpl; [|done].
    (split; [|split]); simpl.
    + intros id e. rewrite lookup_insert_Some. intros [[<- <-]|[Hne He]]; simpl; eauto.
    + intros Hp. destruct (Hown Hp) as (e & He & Ha).
      destruct (decide (cid = promptCorrelation r)) as [->|Hne].
      * exists (withMessage x mid text). simpl. rewrite lookup_insert_eq. split; [done|].
        simpl. congruence.
      * exists e. simpl. by rewrite lookup_insert_ne.
    + rewrite lookup_insert_ne; [done|]. congruence.
  - unfold StartCustomInput. destruct (execs r !! cid) as [x|] eqn:E; simpl; [|done].
    assert (cid ≠ []) as Hcid by (congruence).
    (split; [|split]); simpl.
    + intros id e. rewrite lookup_insert_Some. intros [[<- <-]|[Hne He]]; [done|].
      intros Ha. exfalso.
      destruct (decide (promptCorrelation r = [])) as [Hp|Hp].
      { rewrite bool_decide_eq_true_2 in He by done. simpl in He.
        specialize (Hone _ _ He Ha). congruence. }
      rewrite (bool_decide_eq_false_2 _ Hp) in He. simpl in He.
      case_bool_decide as Hq; simpl in He.
      { specialize (Hone _ _ He Ha). congruence. }
      destruct (execs r !! promptCorrelation r) as [p|] eqn:Ep.
      * apply lookup_insert_Some in He as [[<- <-]|[Hne' He]]; [done|].
        specialize (Hone _ _ He Ha). congruence.
      * specialize (Hone _ _ He Ha). congruence.
    + intros _. exists (withAwaitingText x true). simpl. by rewrite lookup_insert_eq.
    + rewrite lookup_insert_ne by done.
      destruct (_ && _); [|done].
      destruct (execs r !! promptCorrelation r) eqn:Ep; [|done].
      rewrite lookup_insert_ne; [done|]. congruence.
  - unfold SetPromptMessage. case_bool_decide; done.
  - unfold ClearPrompt. case_bool_decide as Hp; simpl; [|done].
    (split; [|split]); simpl; [| done |].
    + intros id e He Ha. exfalso.
      destruct (execs r !! cid) as [x|] eqn:E.
      * apply lookup_insert_Some in He as [[<- <-]|[Hne He]]; [done|].
        specialize (Hone _ _ He Ha). congruence.
      * specialize (Hone _ _ He Ha). congruence.
    + destruct (execs r !! cid) eqn:E; [|done].
      rewrite lookup_insert_ne; [done|]. congruence.
  - unfold Resolve. destruct (execs r !! cid) as [x|] eqn:E; simpl; [|done].
    case_bool_decide as Hp; simpl; (split; [|split]); simpl; try done.
    + intros id e. rewrite lookup_delete_Some. intros [Hne He] Ha.
      specialize (Hone _ _ He Ha). congruence.
    + rewrite lookup_delete_ne; [done|]. congruence.
    + intros id e. rewrite lookup_delete_Some. intros [Hne He] Ha. eauto.
    + intros Hq. destruct (Hown Hq) as (e & He & Ha). exists e. simpl.
      rewrite lookup_delete_ne; [done|]. congruence.
    + rewrite lookup_delete_ne; [done|]. congruence.
Qed.

Lemma prompt_inv_run ops : ∀ r,
  Forall wf_op ops → prompt_inv r → prompt_inv (run ops r).
Proof.
  induction ops as [|o ops IH]; intros r Hall Hinv; simpl; [done|].
  inversion Hall; subst. apply IH; [done|]. by apply prompt_inv_step.
Qed.

Lemma prompt_inv_singleton r : prompt_inv r → prompt_singleton r.
Proof.
  intros (Hone & Hown & Hnil). split.
  - intros id1 id2 (e1 & He1 & Ha1) (e2 & He2 & Ha2).
    rewrite <- (Hone _ _ He1 Ha1). by apply Hone with e2.
  - destruct (decide (promptCorrelation r = [])) as [Hp|Hp]; [right|left; auto].
    split; [done|]. intros id (e & He & Ha).
    specialize (Hone _ _ He Ha). congruence.
Qed.

End RegistryFacts.

(** ** Claims about the registry *)

Import executions.

(** C1. A registered execution is resolved at most once: the first
    [Resolve] returns it, removes it from the registry and, when it owned
    the active prompt, clears the singleton and returns the prompt message
    id; every later [Resolve] of the same id, as long as the id is not
    registered again, finds it absent, returns not-ok and leaves the
    registry as it is. *)
Theorem Resolve_at_most_once (r : Registry) (id : gostring) (exec : Execution) :
  execs r !! id = Some exec →
  ∃ r1,
    Resolve r id =
      (r1, (Some exec,
            (if bool_decide (promptCorrelation r = id) then promptMessageID r else 0),
            true)) ∧
    execs r1 = delete id (execs r) ∧
    (promptCorrelation r = id → promptCorrelation r1 = [] ∧ promptMessageID r1 = 0) ∧
    (promptCorrelation r ≠ id →
       promptCorrelation r1 = promptCorrelation r ∧ promptMessageID r1 = promptMessageID r) ∧
    ∀ ops, Forall (λ o, ¬ adds id o) ops →
      Resolve (run ops r1) id = (run ops r1, (None, 0, false)).
Proof.
  intros Hin. unfold Resolve. rewrite Hin.
  case_bool_decide as Hp; eexists; (split; [reflexivity|]); simpl;
    (split; [reflexivity|]); (split; [|split]); try done.
  - intros ops Hall. apply Resolve_absent, run_absent; [|done].
    simpl. apply lookup_delete_eq.
  - intros ops Hall. apply Resolve_absent, run_absent; [|done].
    simpl. apply lookup_delete_eq.
Qed.

Lemma Resolve_at_most_once_witness :
  ∃ r1,
    Resolve sample.promptedRegistry (lit "r1") =
      (r1, (Some sample.promptedExecution, 7, true)) ∧
    execs r1 = delete (lit "r1") (execs sample.promptedRegistry) ∧
    (promptCorrelation sample.promptedRegistry = lit "r1" →
       promptCorrelation r1 = [] ∧ promptMessageID r1 = 0) ∧
    (promptCorrelation sample.promptedRegistry ≠ lit "r1" →
       promptCorrelation r1 = promptCorrelation sample.promptedRegistry ∧
       promptMessageID r1 = promptMessageID sample.promptedRegistry) ∧
    ∀ ops, Forall (λ o, ¬ adds (lit "r1") o) ops →
      Resolve (run ops r1) (lit "r1") = (run ops r1, (None, 0, false)).
Proof.
  apply (Resolve_at_most_once sample.promptedRegistry (lit "r1") sample.promptedExecution).
  vm_compute. reflexivity.
Defined.

(** C2. After every sequence of registry operations on executions with
    non-empty correlation ids (the ids of the specification, and the only
    ones [/execute] lets through to [Add]), at most one live execution
    awaits text, and the singleton names that execution, or the singleton
    is empty and no live execution awaits text. *)
Theorem prompt_singleton_invariant (ops : list op) :
  Forall wf_op ops → prompt_singleton (run ops NewRegistry).
Proof.
  intros Hwf. apply prompt_inv_singleton, prompt_inv_run; [done|].
  apply prompt_inv_new.
Qed.

Lemma prompt_singleton_invariant_witness :
  prompt_singleton
    (run [OpAdd (sample.request (lit "r1")) 0; OpAdd (sample.request (lit "r2")) 1;
          OpStartCustomInput (lit "r1"); OpSetPromptMessage (lit "r1") 7;
          OpStartCustomInput (lit "r2"); OpResolve (lit "r2")] NewRegistry).
Proof.
  apply (prompt_singleton_invariant
           [OpAdd (sample.request (lit "r1")) 0; OpAdd (sample.request (lit "r2")) 1;
            OpStartCustomInput (lit "r1"); OpSetPromptMessage (lit "r1") 7;
            OpStartCustomInput (lit "r2"); OpResolve (lit "r2")]).
  repeat constructor; simpl; discriminate.
Defined.

(** C10. When the execution that already owns the active prompt starts
    custom input again, [StartCustomInput] returns 0 as the previous
    prompt and stores 0 as the prompt message id, whatever id had been
    recorded: the outcome is the same for every recorded id, and the
    callback handler deletes no message. *)
Theorem StartCustomInput_owner_drops_prompt (r : Registry) (id : gostring)
    (exec : Execution) :
  execs r !! id = Some exec →
  promptCorrelation r = id →
  let r1 := {| execs := <[id := withAwaitingText exec true]> (execs r);
               promptMessageID := 0; promptCorrelation := id |} in
  StartCustomInput r id = (r1, (0, true)) ∧
  (∀ recorded,
     StartCustomInput {| execs := execs r; promptMessageID := recorded;
                         promptCorrelation := promptCorrelation r |} id
     = (r1, (0, true))) ∧
  (∀ caseTable h queryID sent messageID,
     DeleteMessageCall messageID ∉
       snd (handlers.startCustomPrompt caseTable h r queryID id sent)).
Proof.
  intros Hin Hown r1.
  assert (∀ recorded,
     StartCustomInput {| execs := execs r; promptMessageID := recorded;
                         promptCorrelation := promptCorrelation r |} id
     = (r1, (0, true))) as Hany.
  { intros recorded. unfold StartCustomInput. simpl. rewrite Hin, Hown.
    rewrite (bool_decide_eq_true_2 (id = id)) by done.
    simpl. rewrite andb_false_r. reflexivity. }
  assert (StartCustomInput r id = (r1, (0, true))) as Hstart.
  { rewrite <- (Hany (promptMessageID r)). by destruct r. }
  split; [done|]. split; [done|].
  intros caseTable h queryID sent messageID.
  unfold handlers.startCustomPrompt, Get. rewrite Hin.
  destruct (AllowCustom (ExecRequest exec)); simpl.
  - rewrite Hstart. simpl.
    destruct sent; simpl; unfold handlers.answerCallback;
      rewrite !elem_of_cons, elem_of_nil; intros [?|[?|[]]]; discriminate.
  - unfold handlers.answerCallback.
    rewrite elem_of_cons, elem_of_nil. intros [?|[]]. discriminate.
Qed.

Lemma StartCustomInput_owner_drops_prompt_witness :
  promptMessageID sample.promptedRegistry = 7 ∧
  StartCustomInput sample.promptedRegistry (lit "r1") =
    ({| execs := <[lit "r1" := withAwaitingText sample.promptedExecution true]>
                   (execs sample.promptedRegistry);
        promptMessageID := 0; promptCorrelation := lit "r1" |}, (0, true)).
Proof.
  split; [reflexivity|].
  refine (proj1 (StartCustomInput_owner_drops_prompt sample.promptedRegistry (lit "r1")
                   sample.promptedExecution _ _)).
  - vm_compute. reflexivity.
  - reflexivity.
Defined.

(** Scenario S3: ["r2"] takes the prompt from ["r1"]; the prompt message
    of ["r1"] is handed back and ["r1"] stays live without awaiting text. *)
Example StartCustomInput_swap_example :
  let r := run [OpAdd (sample.request (lit "r2")) 1] sample.promptedRegistry in
  let '(r1, out) := StartCustomInput r (lit "r2") in
  out = (7, true) ∧
  promptCorrelation r1 = lit "r2" ∧ promptMessageID r1 = 0 ∧
  AwaitingText <$> execs r1 !! lit "r1" = Some false ∧
  AwaitingText <$> execs r1 !! lit "r2" = Some true.
Proof. vm_compute. repeat split. Qed.

(** ** Claims about submission *)

Import telegram httpapi.

Lemma SubmitExecution_duplicate caseTable s w req timeout timeoutMessage now sent :
  is_Some (execs (registry w) !! CorrelationID req) →
  SubmitExecution caseTable s w req timeout timeoutMessage now sent
    = (w, (alreadyExists, false)).
Proof.
  intros [e He]. unfold SubmitExecution, Add. rewrite He. reflexivity.
Qed.

Lemma SubmitExecution_fresh caseTable s w req timeout timeoutMessage now sent :
  execs (registry w) !! CorrelationID req = None →
  SubmitExecution caseTable s w req timeout timeoutMessage now sent =
    let r1 := fst (Add (registry w) req now) in
    let messageText := renderMessage caseTable s req in
    let send := SendMessageCall messageText (parseMode caseTable (Markup req)) None in
    match sent with
    | None =>
        ({| registry := r1; timers := timers w; calls := calls w ++ [send] |},
         (sendFailed, true))
    | Some messageID =>
        ({| registry := SetMessage r1 (CorrelationID req) messageID messageText;
            timers := timers w ++
              [{| timerCorrelationID := CorrelationID req;
                  timerTimeout := (if timeout <=? 0 then Hour else timeout);
                  timerMessage := timeoutMessage |}];
            calls := calls w ++ [send] |},
         (queued, false))
    end.
Proof.
  intros Hnone. unfold SubmitExecution, Add. rewrite Hnone. reflexivity.
Qed.

(** C9 (as amended). When the chat send fails after the registry add,
    the execution is not removed: the registry holds it under its
    correlation id, and every other entry and the prompt singleton are as
    before.  No timeout is armed for it: the armed timers are as before,
    and any resubmission of the id is refused for as long as nothing
    resolves the id. *)
Theorem SubmitExecution_send_failure_keeps_execution
    (caseTable : rune → rune) (s : Service) (w : World) (req : Request)
    (timeout : Z) (timeoutMessage : gostring) (now : Z) :
  execs (registry w) !! CorrelationID req = None →
  ∃ w1,
    SubmitExecution caseTable s w req timeout timeoutMessage now None
      = (w1, (sendFailed, true)) ∧
    execs (registry w1) !! CorrelationID req =
      Some {| ExecRequest := req; CreatedAt := now; MessageID := 0;
              MessageText := []; AwaitingText := false |} ∧
    (∀ id, id ≠ CorrelationID req →
       execs (registry w1) !! id = execs (registry w) !! id) ∧
    promptCorrelation (registry w1) = promptCorrelation (registry w) ∧
    promptMessageID (registry w1) = promptMessageID (registry w) ∧
    timers w1 = timers w ∧
    (∀ ops w2 req' timeout' timeoutMessage' now' sent',
       Forall (λ o, ¬ resolves (CorrelationID req) o) ops →
       registry w2 = run ops (registry w1) →
       CorrelationID req' = CorrelationID req →
       SubmitExecution caseTable s w2 req' timeout' timeoutMessage' now' sent'
         = (w2, (alreadyExists, false))).
Proof.
  intros Hnone. rewrite SubmitExecution_fresh by done.
  eexists. split; [reflexivity|]. unfold Add. rewrite Hnone. simpl.
  split; [apply lookup_insert_eq|].
  split; [intros id Hne; by rewrite lookup_insert_ne|].
  do 3 (split; [reflexivity|]).
  intros ops w2 req' timeout' timeoutMessage' now' sent' Hall Hreg Hid.
  apply SubmitExecution_duplicate. rewrite Hreg, Hid.
  apply run_present; [|done]. simpl. rewrite lookup_insert_eq. eauto.
Qed.

Lemma SubmitExecution_send_failure_keeps_execution_witness :
  ∃ w1,
    SubmitExecution sample.caseTable sample.service sample.world0
        (sample.request (lit "r1")) 0 [] 0 None
      = (w1, (sendFailed, true)) ∧
    execs (registry w1) !! lit "r1" =
      Some {| ExecRequest := sample.request (lit "r1"); CreatedAt := 0; MessageID := 0;
              MessageText := []; AwaitingText := false |} ∧
    timers w1 = [].
Proof.
  destruct (SubmitExecution_send_failure_keeps_execution sample.caseTable sample.service
              sample.world0 (sample.request (lit "r1")) 0 [] 0)
    as (w1 & Hrun & Hin & _ & _ & _ & Htimers & _).
  - reflexivity.
  - exists w1. split; [exact Hrun|]. split; [exact Hin|exact Htimers].
Defined.

(** C9 as stated fails on "until the timeout fires": the failed
    submission arms no timer.  From the empty world the execution is
    registered, no timer exists, and no timer event changes anything, so
    no timeout ever frees the id. *)
Lemma send_failure_arms_no_timeout_counterexample :
  let w1 := fst (SubmitExecution sample.caseTable sample.service sample.world0
                   (sample.request (lit "r1")) Hour [] 0 None) in
  timers w1 = [] ∧
  is_Some (execs (registry w1) !! lit "r1") ∧
  ∀ n, program.step sample.caseTable sample.sprint sample.validURL sample.overflowInt
         sample.cfg sample.service w1 (program.TimerFires n) = w1.
Proof.
  split; [reflexivity|]. split; [vm_compute; eauto|].
  intros n. reflexivity.
Qed.

(** C3 (as amended). [POST /execute] answers 400 with status "error" when
    validation fails, 202 with status "pending" and result "queued" when
    the submission succeeds, and 202 with status "error" and result
    "failed to send telegram message" when the chat send fails after the
    registry add. *)
Theorem ServeHTTP_answers (caseTable : rune → rune) (overflowInt : Z → Z) (cfg : config.Config)
    (svc : Service) (w : World) (r : HTTPRequest) (now : Z) (sent : option Z) :
  Method r = lit "POST" →
  (∀ msg, decodeAndValidate caseTable overflowInt cfg r = Err msg →
     ServeHTTP caseTable overflowInt cfg svc w r now sent
       = (w, respond StatusBadRequest StatusError (AString msg) [])) ∧
  (∀ req timeout,
     decodeAndValidate caseTable overflowInt cfg r = Ok (req, timeout) →
     execs (registry w) !! CorrelationID req = None →
     (∀ messageID, sent = Some messageID →
        snd (ServeHTTP caseTable overflowInt cfg svc w r now sent)
          = respond StatusAccepted StatusPending (AString (lit "queued"))
              [CorrelationID req]) ∧
     (sent = None →
        snd (ServeHTTP caseTable overflowInt cfg svc w r now sent)
          = respond StatusAccepted StatusError
              (AString (lit "failed to send telegram message")) [CorrelationID req] ∧
        is_Some (execs (registry (fst (ServeHTTP caseTable overflowInt cfg svc w r now sent)))
                   !! CorrelationID req))).
Proof.
  intros Hpost. unfold ServeHTTP. rewrite Hpost.
  rewrite (bool_decide_eq_true_2 (lit "POST" = lit "POST")) by done. simpl.
  split.
  - intros msg ->. reflexivity.
  - intros req timeout -> Hnone.
    rewrite SubmitExecution_fresh by done. split.
    + intros messageID ->. reflexivity.
    + intros ->. simpl. split; [reflexivity|].
      unfold Add. rewrite Hnone. simpl. rewrite lookup_insert_eq. eauto.
Qed.

Lemma ServeHTTP_answers_witness :
  snd (ServeHTTP sample.caseTable sample.overflowInt sample.cfg sample.service sample.world0
         (sample.post sample.executeRequest) 0 (Some 5))
    = respond StatusAccepted StatusPending (AString (lit "queued")) [lit "r1"].
Proof.
  destruct (ServeHTTP_answers sample.caseTable sample.overflowInt sample.cfg
              sample.service sample.world0
              (sample.post sample.executeRequest) 0 (Some 5) eq_refl) as [_ Hok].
  refine (proj1 (Hok sample.submitted Hour _ _) 5 eq_refl).
  - vm_compute. reflexivity.
  - reflexivity.
Defined.

(** C3 as stated fails on the send-failure branch: the handler answers
    202, not 500, because the result it gets carries a status. *)
Lemma ServeHTTP_send_failure_counterexample :
  let resp := snd (ServeHTTP sample.caseTable sample.overflowInt sample.cfg
                     sample.service sample.world0
                     (sample.post sample.executeRequest) 0 None) in
  statusCode resp = 202 ∧
  statusCode resp ≠ StatusInternalServerError ∧
  body resp = Some {| RespStatus := lit "error";
                      RespResult := AString (lit "failed to send telegram message");
                      RespCorrelationID := lit "r1" |}.
Proof. vm_compute. repeat split. discriminate. Qed.

(** ** Claims about markup *)

Section Markup.
Import shared.

Lemma escapeWithSet_flat_map value set :
  escapeWithSet value set =
    flat_map (λ r, if strings.ContainsRune set r then [92%N; r] else [r]) value.
Proof. by destruct value. Qed.

Lemma decodeMarkdownV2_escapeWithSet set :
  strings.ContainsRune set 92%N = true →
  ∀ s, decodeMarkdownV2 (escapeWithSet s set) = s.
Proof.
  intros Hbs s. rewrite escapeWithSet_flat_map.
  induction s as [|c s IH]; [reflexivity|].
  cbn [flat_map]. destruct (strings.ContainsRune set c) eqn:Hc.
  - cbn. by rewrite IH.
  - cbn [app decodeMarkdownV2]. destruct (c =? 92)%N eqn:E.
    + apply N.eqb_eq in E. subst. congruence.
    + by rewrite IH.
Qed.

Lemma decodeHTML_escapeHTMLRune c rest :
  decodeHTML (escapeHTMLRune c ++ rest) = c :: decodeHTML rest.
Proof.
  unfold escapeHTMLRune.
  destruct (c =? 38)%N eqn:E1; [apply N.eqb_eq in E1; by subst|].
  destruct (c =? 60)%N eqn:E2; [apply N.eqb_eq in E2; by subst|].
  destruct (c =? 62)%N eqn:E3; [apply N.eqb_eq in E3; by subst|].
  destruct (c =? 34)%N eqn:E4; [apply N.eqb_eq in E4; by subst|].
  destruct (c =? 39)%N eqn:E5; [apply N.eqb_eq in E5; by subst|].
  cbn [app decodeHTML]. by rewrite E1.
Qed.

(** C8. Escaping a string for either dialect and reading the result
    back as the dialect prescribes gives the string again: for
    MarkdownV2 text, for MarkdownV2 code spans, and for HTML. *)
Theorem escape_round_trip (s : gostring) :
  decodeMarkdownV2 (EscapeMarkdownV2 s) = s ∧
  decodeMarkdownV2 (EscapeMarkdownV2Code s) = s ∧
  decodeHTML (EscapeHTML s) = s.
Proof.
  split; [by apply decodeMarkdownV2_escapeWithSet|].
  split; [by apply decodeMarkdownV2_escapeWithSet|].
  unfold EscapeHTML. induction s as [|c s IH]; [reflexivity|].
  cbn [flat_map]. by rewrite decodeHTML_escapeHTMLRune, IH.
Qed.

End Markup.

Example EscapeMarkdownV2_example :
  shared.EscapeMarkdownV2 (lit "a.b(1)") = [97; 92; 46; 98; 92; 40; 49; 92; 41]%N.
Proof. reflexivity. Qed.

Example EscapeHTML_example :
  shared.EscapeHTML (lit "a<b&c") = lit "a&lt;b&amp;c".
Proof. reflexivity. Qed.

(** ** Claims about the closing note and the labels *)

Section Notes.
Import handlers.
Variable Sprint_v : any → gostring.

(** C4. The closing note by cases: for success, the note when it is not
    blank, else the check mark and the printed output when the output is
    not nil, else the check mark and [SelectedNote]; for error, when the
    output is a string that trims to "execution timeout", the configured
    timeout message when not blank, else the stopwatch and [TimeoutNote];
    for any other non-blank string output, the warning sign and the
    string; otherwise the note when not blank, else the warning sign and
    [ErrorNote]; for every other status, the empty note. *)
Theorem noteForResult_cases (msg : i18n.Messages) (status : gostring) (out : any)
    (note timeoutMessage : gostring) :
  let result := {| ResStatus := status; Output := out; Note := note |} in
  let n := noteForResult Sprint_v msg result timeoutMessage in
  (status = StatusSuccess →
     (strings.TrimSpace note ≠ [] → n = note) ∧
     (strings.TrimSpace note = [] → out ≠ ANil → n = [9989; 32]%N ++ Sprint_v out) ∧
     (strings.TrimSpace note = [] → out = ANil →
        n = [9989; 32]%N ++ i18n.SelectedNote msg)) ∧
  (status = StatusError →
     (∀ value, out = AString value →
        strings.TrimSpace value = lit "execution timeout" →
        (strings.TrimSpace timeoutMessage ≠ [] → n = timeoutMessage) ∧
        (strings.TrimSpace timeoutMessage = [] →
           n = [9201; 65039; 32]%N ++ i18n.TimeoutNote msg)) ∧
     (∀ value, out = AString value →
        strings.TrimSpace value ≠ lit "execution timeout" →
        strings.TrimSpace value ≠ [] →
        n = [9888; 65039; 32]%N ++ value) ∧
     ((∀ value, out = AString value → strings.TrimSpace value = []) →
        (strings.TrimSpace note ≠ [] → n = note) ∧
        (strings.TrimSpace note = [] →
           n = [9888; 65039; 32]%N ++ i18n.ErrorNote msg))) ∧
  (status ≠ StatusSuccess → status ≠ StatusError → n = []).
Proof.
  intros result n. subst result n. unfold noteForResult. simpl.
  split; [|split].
  - intros ->. rewrite (bool_decide_eq_true_2 (StatusSuccess = StatusSuccess)) by done.
    split; [|split].
    + intros Hn. by rewrite bool_decide_eq_false_2.
    + intros Hn Ho. rewrite bool_decide_eq_true_2 by done. simpl. by destruct out.
    + intros Hn ->. by rewrite bool_decide_eq_true_2.
  - intros ->. rewrite (bool_decide_eq_false_2 (StatusError = StatusSuccess)) by done.
    rewrite (bool_decide_eq_true_2 (StatusError = StatusError)) by done.
    split; [|split].
    + intros value -> Ht. rewrite (bool_decide_eq_true_2 _ Ht). split.
      * intros Hm. by rewrite bool_decide_eq_false_2.
      * intros Hm. by rewrite bool_decide_eq_true_2.
    + intros value -> Ht Hv.
      rewrite (bool_decide_eq_false_2 _ Ht), (bool_decide_eq_false_2 _ Hv). done.
    + intros Hblank. split; intros Hn.
      * rewrite (bool_decide_eq_false_2 _ Hn). simpl.
        destruct out; try done. specialize (Hblank _ eq_refl).
        rewrite Hblank. rewrite (bool_decide_eq_false_2 ([] = lit "execution timeout")) by done.
        by rewrite bool_decide_eq_true_2.
      * rewrite (bool_decide_eq_true_2 _ Hn). simpl.
        destruct out; try done. specialize (Hblank _ eq_refl).
        rewrite Hblank. rewrite (bool_decide_eq_false_2 ([] = lit "execution timeout")) by done.
        by rewrite bool_decide_eq_true_2.
  - intros Hs He. by rewrite !bool_decide_eq_false_2.
Qed.

End Notes.

Lemma noteForResult_cases_witness :
  handlers.noteForResult sample.sprint (sample.labels (lit "EN"))
    {| ResStatus := StatusError; Output := AString (lit "execution timeout"); Note := [] |}
    []
  = [9201; 65039; 32]%N ++ lit "EN".
Proof.
  pose proof (noteForResult_cases sample.sprint (sample.labels (lit "EN")) StatusError
                (AString (lit "execution timeout")) [] []) as H.
  simpl in H. destruct H as (_ & Herr & _).
  destruct (Herr eq_refl) as (Htimeout & _).
  destruct (Htimeout (lit "execution timeout") eq_refl eq_refl) as (_ & Hblank).
  exact (Hblank eq_refl).
Defined.



(** Outside these lookups, for a language that is neither blank nor in the
    mapping, the resolvers go to "en" without consulting the default. *)
Lemma MessagesFor_unloaded_language :
  shared.MessagesFor sample.caseTable sample.russianOnly (lit "en") (lit "ru")
    = i18n.blank ∧
  shared.MessagesFor sample.caseTable (handlers.messages sample.handler)
    (lit "de") (lit "ru") = sample.labels (lit "EN").
Proof. split; vm_compute; reflexivity. Qed.

(** ** Claims about the voice normaliser *)

Section Voice.
Import strings handlers.

Lemma HasPrefix_true s p : HasPrefix s p = true ↔ ∃ t, s = p ++ t.
Proof.
  revert s. induction p as [|c p IH]; intros s; simpl.
  - split; [intros _; by exists s|by destruct s].
  - destruct s as [|d s]; simpl.
    + split; [done|]. intros [t Ht]. discriminate.
    + rewrite andb_true_iff, N.eqb_eq, IH. split.
      * intros [-> [t ->]]. by exists t.
      * intros [t Ht]. injection Ht as -> ->. eauto.
Qed.

Lemma HasSuffix_true s x : HasSuffix s x = true ↔ ∃ pre, s = pre ++ x.
Proof.
  unfold HasSuffix. rewrite HasPrefix_true. split.
  - intros [t Ht]. exists (rev t).
    rewrite <- (rev_involutive s), Ht, rev_app_distr. by rewrite rev_involutive.
  - intros [pre ->]. exists (rev pre). by rewrite rev_app_distr.
Qed.

Lemma TrimLeftSpace_head c s :
  notSpace c → TrimLeftSpace (c :: s) = c :: s.
Proof. unfold notSpace. intros H. simpl. by rewrite H. Qed.

Lemma TrimLeftSpace_keeps pre c suf :
  notSpace c → ∃ pre', TrimLeftSpace (pre ++ c :: suf) = pre' ++ c :: suf.
Proof.
  intros Hc. induction pre as [|d pre IH].
  - exists []. by apply TrimLeftSpace_head.
  - simpl. destruct (IsSpace d); [done|]. by exists (d :: pre).
Qed.

Lemma TrimRightSpace_keeps pre suf l :
  notSpace l → TrimRightSpace (pre ++ suf ++ [l]) = pre ++ suf ++ [l].
Proof.
  intros Hl. unfold TrimRightSpace.
  assert (rev (pre ++ suf ++ [l]) = l :: rev (pre ++ suf)) as ->.
  { by rewrite app_assoc, rev_app_distr. }
  rewrite (TrimLeftSpace_head _ _ Hl). simpl.
  by rewrite rev_involutive, <- app_assoc.
Qed.

(** Trimming leaves a non-empty ending made of non-spaces in place. *)
Lemma TrimSpace_keeps_suffix pre suf :
  suf ≠ [] → Forall notSpace suf → ∃ pre', TrimSpace (pre ++ suf) = pre' ++ suf.
Proof.
  intros Hne Hall. unfold TrimSpace.
  destruct suf as [|c suf]; [done|].
  inversion Hall as [|? ? Hc Hrest]; subst.
  destruct (TrimLeftSpace_keeps pre c suf Hc) as [pre' ->].
  exists pre'.
  destruct (exists_last (l := c :: suf)) as (body & l & Hlast); [done|].
  rewrite Hlast. apply TrimRightSpace_keeps.
  rewrite Hlast in Hall. apply Forall_app in Hall as [_ Hl]. by inversion Hl.
Qed.

Section CaseTable.
Variable caseTable : rune → rune.
(** White space has no case: the table leaves it as it is. *)
Hypothesis caseTable_space : ∀ r, IsSpace r = true → caseTable r = r.

Lemma ToLowerRune_space r : IsSpace r = true → ToLowerRune caseTable r = r.
Proof.
  intros Hs. unfold ToLowerRune.
  destruct (r <=? 127)%N; [|by apply caseTable_space].
  destruct ((65 <=? r) && (r <=? 90))%N eqn:E; [|done].
  exfalso. unfold IsSpace in Hs.
  apply andb_true_iff in E as [E1 E2].
  apply N.leb_le in E1, E2.
  repeat (apply orb_true_iff in Hs as [Hs|Hs]);
    repeat match goal with
           | H : (_ && _)%bool = true |- _ => apply andb_true_iff in H as [? ?]
           | H : (_ <=? _)%N = true |- _ => apply N.leb_le in H
           | H : (_ =? _)%N = true |- _ => apply N.eqb_eq in H
           end; lia.
Qed.

Lemma ToLower_notSpace (s ext : gostring) :
  ToLower caseTable s = ext → Forall notSpace ext → Forall notSpace s.
Proof.
  revert ext. induction s as [|c s IH]; intros ext Hmap Hall; [constructor|].
  simpl in Hmap. subst ext. inversion Hall as [|? ? Hc Hrest]; subst.
  constructor; [|by eapply IH].
  unfold notSpace in *. destruct (IsSpace c) eqn:Hs; [|done].
  rewrite (ToLowerRune_space _ Hs) in Hc. congruence.
Qed.

(** A case-insensitive ending made of non-spaces survives trimming. *)
Lemma HasSuffix_ToLower_TrimSpace (name ext : gostring) :
  ext ≠ [] → Forall notSpace ext →
  HasSuffix (ToLower caseTable name) ext = true →
  HasSuffix (ToLower caseTable (TrimSpace name)) ext = true.
Proof.
  intros Hne Hall. rewrite !HasSuffix_true. intros [pre Hpre].
  unfold ToLower in Hpre. apply map_eq_app in Hpre as (a & b & -> & Ha & Hb).
  assert (b ≠ []) as Hb0 by (intros ->; simpl in Hb; congruence).
  destruct (TrimSpace_keeps_suffix a b Hb0) as [pre' ->].
  { by eapply ToLower_notSpace. }
  exists (ToLower caseTable pre'). unfold ToLower. by rewrite map_app, Hb.
Qed.

Lemma acceptedExtensions_notSpace ext :
  ext ∈ acceptedExtensions → ext ≠ [] ∧ Forall notSpace ext.
Proof.
  unfold acceptedExtensions. rewrite !elem_of_cons, elem_of_nil.
  intros H. repeat destruct H as [->|H]; try done;
    (split; [done|repeat constructor]).
Qed.

Lemma isOpenAICompatibleAudio_mime (mimeType filename : gostring) :
  ToLower caseTable (TrimSpace mimeType) ∈ acceptedMimeTypes →
  isOpenAICompatibleAudio caseTable
    (ToLower caseTable (TrimSpace mimeType)) filename = true.
Proof.
  intros Hin. unfold isOpenAICompatibleAudio.
  assert (ToLower caseTable (TrimSpace (ToLower caseTable (TrimSpace mimeType)))
            = ToLower caseTable (TrimSpace mimeType)
          ∧ ToLower caseTable (TrimSpace mimeType) ≠ []) as [Hidem Hne].
  { revert Hin. generalize (ToLower caseTable (TrimSpace mimeType)). intros m.
    unfold acceptedMimeTypes. rewrite !elem_of_cons, elem_of_nil.
    intros H. repeat destruct H as [->|H]; try done. }
  rewrite (bool_decide_eq_false_2 _ Hne), Hidem.
  by rewrite bool_decide_eq_true_2.
Qed.

Lemma isOpenAICompatibleAudio_name (mimeType filename ext : gostring) :
  ext ∈ acceptedExtensions →
  HasSuffix (ToLower caseTable filename) ext = true →
  isOpenAICompatibleAudio caseTable mimeType filename = true.
Proof.
  intros Hext Hsuf. unfold isOpenAICompatibleAudio.
  match goal with |- (if ?b then true else _) = true => destruct b; [done|] end.
  destruct (acceptedExtensions_notSpace ext Hext) as [Hne Hall].
  pose proof (HasSuffix_ToLower_TrimSpace filename ext Hne Hall Hsuf) as Hs.
  rewrite bool_decide_eq_false_2.
  - revert Hext. unfold acceptedExtensions. rewrite !elem_of_cons, elem_of_nil.
    intros H. repeat destruct H as [->|H]; try done;
      rewrite Hs; rewrite ?orb_true_r; reflexivity.
  - intros Hnil. rewrite Hnil in Hs. apply HasSuffix_true in Hs as [pre Hpre].
    symmetry in Hpre. apply app_eq_nil in Hpre as [_ ->]. done.
Qed.

(** C7 (as amended). A non-empty audio payload whose MIME type, trimmed
    and in lower case, is one of the accepted types, or whose file name
    ends case-insensitively with one of the accepted extensions, is
    returned as it is: the same content, MIME type and file name. *)
Theorem normalizeVoiceAudio_passthrough
    (ffmpeg : list Byte.byte → ffmpegOutcome)
    (content : list Byte.byte) (mimeType filename : gostring) :
  content ≠ [] →
  (ToLower caseTable (TrimSpace mimeType) ∈ acceptedMimeTypes ∨
   ∃ ext, ext ∈ acceptedExtensions ∧
          HasSuffix (ToLower caseTable filename) ext = true) →
  normalizeVoiceAudio caseTable ffmpeg content mimeType filename
    = Audio content mimeType filename.
Proof.
  intros Hcontent Hok. unfold normalizeVoiceAudio.
  destruct content as [|b content]; [done|].
  destruct Hok as [Hmime|(ext & Hext & Hsuf)].
  - by rewrite isOpenAICompatibleAudio_mime.
  - by rewrite (isOpenAICompatibleAudio_name _ _ ext).
Qed.

End CaseTable.
End Voice.

Lemma normalizeVoiceAudio_passthrough_witness :
  handlers.normalizeVoiceAudio sample.caseTable sample.noFfmpeg
    [Byte.x01] (lit " Audio/MPEG ") (lit "voice.oga")
  = handlers.Audio [Byte.x01] (lit " Audio/MPEG ") (lit "voice.oga").
Proof.
  apply (normalizeVoiceAudio_passthrough sample.caseTable).
  - intros r _. reflexivity.
  - discriminate.
  - left. vm_compute. constructor.
Defined.

(** C7 as stated fails for the empty payload, which is refused before the
    type is looked at. *)
Lemma normalizeVoiceAudio_empty_counterexample :
  handlers.normalizeVoiceAudio sample.caseTable sample.noFfmpeg
    [] (lit "audio/mpeg") (lit "voice.mp3")
  = handlers.AudioError (lit "empty audio content") ∧
  handlers.normalizeVoiceAudio sample.caseTable sample.noFfmpeg
    [] (lit "audio/mpeg") (lit "voice.mp3")
  ≠ handlers.Audio [] (lit "audio/mpeg") (lit "voice.mp3").
Proof. split; [reflexivity|discriminate]. Qed.

(** ** Claims about option validation *)

Section Options.
Import strings.




(** [extractInt] reads a field that JSON decoding produced, and whose
    number fits [int], as the integer part of the number. *)
Lemma extractInt_plainField (overflowInt : Z → Z) (data : gmap gostring any)
    (key : gostring) :
  claimed.plainField data key →
  extractInt overflowInt data key = claimed.numberField data key.
Proof.
  unfold claimed.plainField, extractInt, claimed.numberField.
  destruct (data !! key) as [[]|]; try done.
  intros [Hlo Hhi]. unfold float64ToInt.
  apply Z.leb_le in Hlo. apply Z.ltb_lt in Hhi. by rewrite Hlo, Hhi.
Qed.

Lemma optionLimitsFromSpec_claimed (overflowInt : Z → Z) (spec : gmap gostring any) :
  claimed.plainField spec (lit "options_min") →
  claimed.plainField spec (lit "options_max") →
  optionLimitsFromSpec overflowInt spec = claimed.optionLimits spec.
Proof.
  intros Hmin Hmax. unfold optionLimitsFromSpec, claimed.optionLimits.
  by rewrite !extractInt_plainField.
Qed.


End Options.

(** Beyond [int] the limits depend on the platform: on amd64 an
    [options_max] of [2^64] converts to the least [int], which is below
    the minimum, and the maximum stays 5. *)
Lemma optionLimitsFromSpec_beyond_int :
  optionLimitsFromSpec sample.overflowInt {[ lit "options_max" := AFloat64 1 64 ]}
    = (2, 5).
Proof. vm_compute. reflexivity. Qed.


(** * Further properties of the code *)

(** ** The registry *)

Section RegistryMore.
Import facts.

Lemma keyed_step r o : keyed r → keyed (step r o).
Proof.
  intros Hk. destruct o as [req now|cid mid text|cid|cid mid|cid|cid]; simpl.
  - unfold Add. destruct (execs r !! CorrelationID req) eqn:E; simpl; [done|].
    intros id e. simpl. rewrite lookup_insert_Some. intros [[<- <-]|[_ He]]; [done|eauto].
  - unfold SetMessage. destruct (execs r !! cid) as [x|] eqn:E; simpl; [|done].
    intros id e. simpl. rewrite lookup_insert_Some. intros [[<- <-]|[_ He]]; simpl; eauto.
  - unfold StartCustomInput. destruct (execs r !! cid) as [x|] eqn:E; simpl; [|done].
    intros id e. simpl. rewrite lookup_insert_Some. intros [[<- <-]|[_ He]]; simpl; [eauto|].
    destruct (_ && _); [|eauto].
    destruct (execs r !! promptCorrelation r) as [p|] eqn:Ep; [|eauto].
    apply lookup_insert_Some in He as [[<- <-]|[_ He]]; simpl; eauto.
  - unfold SetPromptMessage. by case_bool_decide.
  - unfold ClearPrompt. case_bool_decide; simpl; [|done].
    intros id e. simpl. destruct (execs r !! cid) as [x|] eqn:E; [|eauto].
    rewrite lookup_insert_Some. intros [[<- <-]|[_ He]]; simpl; eauto.
  - unfold Resolve. destruct (execs r !! cid) as [x|] eqn:E; simpl; [|done].
    case_bool_decide; intros id e; simpl; rewrite lookup_delete_Some; intros [_ He]; eauto.
Qed.

Lemma keyed_run ops : ∀ r, keyed r → keyed (executions.run ops r).
Proof.
  induction ops as [|o ops IH]; intros r Hk; simpl; [done|].
  apply IH. by apply keyed_step.
Qed.

Lemma keyed_new : keyed NewRegistry.
Proof. intros id e. simpl. by rewrite lookup_empty. Qed.

(** X1. Whatever operations ran, every execution in the registry carries
    the correlation id it is stored under. *)
Theorem registry_keys_match_requests (ops : list op) (id : gostring) (e : Execution) :
  execs (run ops NewRegistry) !! id = Some e → CorrelationID (ExecRequest e) = id.
Proof. apply (keyed_run ops NewRegistry keyed_new). Qed.

Lemma registry_keys_match_requests_witness :
  CorrelationID (ExecRequest sample.promptedExecution) = lit "r1".
Proof.
  apply (registry_keys_match_requests
           [OpAdd (sample.request (lit "r1")) 0; OpSetMessage (lit "r1") 5 (lit "text");
            OpStartCustomInput (lit "r1"); OpSetPromptMessage (lit "r1") 7]
           (lit "r1") sample.promptedExecution).
  vm_compute. reflexivity.
Defined.

(** X2. In a registry built by operations that add only non-empty ids,
    [CurrentPrompt] is empty exactly when the singleton is empty, and
    otherwise returns the execution stored under the owner's id, which
    awaits text, with the recorded prompt message id: its checks for a
    missing or no longer awaiting owner never fire. *)
Theorem CurrentPrompt_follows_singleton (ops : list op) :
  Forall wf_op ops →
  let r := run ops NewRegistry in
  (promptCorrelation r = [] → CurrentPrompt r = (None, 0)) ∧
  (promptCorrelation r ≠ [] →
     ∃ e, execs r !! promptCorrelation r = Some e ∧ AwaitingText e = true ∧
          CurrentPrompt r = (Some e, promptMessageID r)).
Proof.
  intros Hwf r.
  destruct (prompt_inv_run ops NewRegistry Hwf prompt_inv_new) as (_ & Hown & _).
  fold r in Hown. unfold CurrentPrompt. split.
  - intros ->. by rewrite bool_decide_eq_true_2.
  - intros Hne. destruct (Hown Hne) as (e & He & Ha). exists e.
    rewrite (bool_decide_eq_false_2 _ Hne), He, Ha. done.
Qed.

Lemma CurrentPrompt_follows_singleton_witness :
  CurrentPrompt sample.promptedRegistry = (Some sample.promptedExecution, 7).
Proof.
  destruct (CurrentPrompt_follows_singleton
              [OpAdd (sample.request (lit "r1")) 0; OpSetMessage (lit "r1") 5 (lit "text");
               OpStartCustomInput (lit "r1"); OpSetPromptMessage (lit "r1") 7])
    as [_ Hsome].
  - repeat constructor; simpl; discriminate.
  - destruct Hsome as (e & He & _ & Hcur); [discriminate|].
    vm_compute in He. injection He as <-. exact Hcur.
Defined.

(** X3. When another live execution owns the prompt, [StartCustomInput]
    hands back that owner's prompt message id, leaves the previous owner
    registered but no longer awaiting text, makes the new owner await text
    with prompt message id 0, and touches no other execution. *)
Theorem StartCustomInput_takes_over (r : Registry) (id : gostring)
    (exec prev : Execution) :
  execs r !! id = Some exec →
  promptCorrelation r ≠ [] →
  promptCorrelation r ≠ id →
  execs r !! promptCorrelation r = Some prev →
  ∃ r1,
    StartCustomInput r id = (r1, (promptMessageID r, true)) ∧
    execs r1 !! promptCorrelation r = Some (withAwaitingText prev false) ∧
    execs r1 !! id = Some (withAwaitingText exec true) ∧
    promptCorrelation r1 = id ∧ promptMessageID r1 = 0 ∧
    ∀ other, other ≠ id → other ≠ promptCorrelation r →
      execs r1 !! other = execs r !! other.
Proof.
  intros Hin Hp Hne Hprev. unfold StartCustomInput. rewrite Hin.
  rewrite (bool_decide_eq_false_2 _ Hp), (bool_decide_eq_false_2 _ Hne), Hprev.
  simpl. eexists. split; [reflexivity|]. simpl.
  split; [by rewrite lookup_insert_ne, lookup_insert_eq|].
  split; [by rewrite lookup_insert_eq|].
  do 2 (split; [done|]).
  intros other H1 H2. by rewrite !lookup_insert_ne.
Qed.

Lemma StartCustomInput_takes_over_witness :
  snd (StartCustomInput
         (run [OpAdd (sample.request (lit "r2")) 1] sample.promptedRegistry) (lit "r2"))
  = (7, true).
Proof.
  destruct (StartCustomInput_takes_over
              (run [OpAdd (sample.request (lit "r2")) 1] sample.promptedRegistry)
              (lit "r2")
              {| ExecRequest := sample.request (lit "r2"); CreatedAt := 1; MessageID := 0;
                 MessageText := []; AwaitingText := false |}
              sample.promptedExecution) as (r1 & Hstart & _).
  - vm_compute. reflexivity.
  - discriminate.
  - discriminate.
  - vm_compute. reflexivity.
  - rewrite Hstart. reflexivity.
Defined.

(** X4. [ClearPrompt] for an id that does not own the prompt changes
    nothing and returns 0; for the owner it returns the recorded prompt
    message id, empties the singleton and leaves the owner registered but
    not awaiting text, so that [CurrentPrompt] is empty afterwards. *)
Theorem ClearPrompt_releases_owner_only (r : Registry) (id : gostring) :
  (promptCorrelation r ≠ id → ClearPrompt r id = (r, 0)) ∧
  (∀ exec, promptCorrelation r = id → execs r !! id = Some exec →
     ∃ r1,
       ClearPrompt r id = (r1, promptMessageID r) ∧
       promptCorrelation r1 = [] ∧
       promptMessageID r1 = 0 ∧
       execs r1 !! id = Some (withAwaitingText exec false) ∧
       (∀ other, other ≠ id → execs r1 !! other = execs r !! other) ∧
       CurrentPrompt r1 = (None, 0)).
Proof.
  unfold ClearPrompt. split.
  - intros Hne. by rewrite bool_decide_eq_false_2.
  - intros exec Hown Hin. rewrite (bool_decide_eq_true_2 _ Hown), Hin. simpl.
    eexists. split; [reflexivity|]. simpl.
    split; [done|]. split; [done|].
    split; [by rewrite lookup_insert_eq|].
    split; [intros other Hne; by rewrite lookup_insert_ne|done].
Qed.

Lemma ClearPrompt_releases_owner_only_witness :
  (snd (ClearPrompt sample.promptedRegistry (lit "r1")) = 7 ∧
   promptCorrelation (fst (ClearPrompt sample.promptedRegistry (lit "r1"))) = []) ∧
  ClearPrompt sample.promptedRegistry (lit "r2") = (sample.promptedRegistry, 0).
Proof.
  destruct (ClearPrompt_releases_owner_only sample.promptedRegistry (lit "r1"))
    as [_ Hown].
  destruct (Hown sample.promptedExecution) as (r1 & Hclear & Hempty & _).
  - reflexivity.
  - vm_compute. reflexivity.
  - split; [by rewrite Hclear|].
    apply (ClearPrompt_releases_owner_only sample.promptedRegistry (lit "r2")).
    discriminate.
Defined.

(** X5. The prompt message id recorded for the owner is what the registry
    hands back for deletion: after [StartCustomInput id] and
    [SetPromptMessage id m], both [Resolve id] and [ClearPrompt id]
    return [m]. *)
Theorem recorded_prompt_is_returned (r : Registry) (id : gostring) (exec : Execution)
    (m : Z) :
  execs r !! id = Some exec →
  let r2 := SetPromptMessage (fst (StartCustomInput r id)) id m in
  snd (Resolve r2 id) = (Some (withAwaitingText exec true), m, true) ∧
  snd (ClearPrompt r2 id) = m.
Proof.
  intros Hin r2. subst r2. unfold StartCustomInput. rewrite Hin. simpl.
  unfold SetPromptMessage. simpl. rewrite (bool_decide_eq_true_2 (id = id)) by done.
  unfold Resolve, ClearPrompt. simpl.
  rewrite lookup_insert_eq. rewrite (bool_decide_eq_true_2 (id = id)) by done. simpl.
  done.
Qed.

Lemma recorded_prompt_is_returned_witness :
  snd (ClearPrompt
         (SetPromptMessage (fst (StartCustomInput sample.promptedRegistry (lit "r1")))
            (lit "r1") 9) (lit "r1")) = 9.
Proof.
  refine (proj2 (recorded_prompt_is_returned sample.promptedRegistry (lit "r1")
                   sample.promptedExecution 9 _)).
  vm_compute. reflexivity.
Defined.

End RegistryMore.

(** ** Markup *)

Section MarkupMore.
Import shared facts.

Lemma escaped_escapeWithSet reserved :
  strings.ContainsRune reserved 92%N = true →
  ∀ s, escaped reserved (escapeWithSet s reserved) = true.
Proof.
  intros Hbs s. rewrite escapeWithSet_flat_map.
  induction s as [|c s IH]; [reflexivity|].
  cbn [flat_map]. destruct (strings.ContainsRune reserved c) eqn:Hc.
  - cbn. exact IH.
  - cbn [app escaped]. destruct (c =? 92)%N eqn:E.
    + apply N.eqb_eq in E. subst. congruence.
    + by rewrite Hc, IH.
Qed.

(** X6. The MarkdownV2 escapers never leave a reserved character bare:
    in their output every backslash escapes the character after it and
    every other character is outside the reserved set. *)
Theorem EscapeMarkdownV2_leaves_nothing_bare (s : gostring) :
  escaped markdownV2Set (EscapeMarkdownV2 s) = true ∧
  escaped markdownV2CodeSet (EscapeMarkdownV2Code s) = true.
Proof. split; by apply escaped_escapeWithSet. Qed.

(** X7. Escaping adds exactly one backslash per reserved character: the
    output is as long as the input plus the number of reserved characters
    in it, so it is never longer than twice the input, and it equals the
    input exactly when the input has no reserved character. *)
Theorem escapeWithSet_length (s reserved : gostring) :
  length (escapeWithSet s reserved)
    = (length s + length (List.filter (strings.ContainsRune reserved) s))%nat ∧
  (length s ≤ length (escapeWithSet s reserved) ≤ 2 * length s)%nat ∧
  (escapeWithSet s reserved = s
   ↔ Forall (λ c, strings.ContainsRune reserved c = false) s).
Proof.
  assert (length (escapeWithSet s reserved)
          = (length s + length (List.filter (strings.ContainsRune reserved) s))%nat) as Hlen.
  { rewrite escapeWithSet_flat_map. induction s as [|c s IH]; [reflexivity|].
    cbn [flat_map List.filter]. rewrite length_app, IH.
    destruct (strings.ContainsRune reserved c); simpl; lia. }
  split; [exact Hlen|]. split.
  - pose proof (List.filter_length_le (strings.ContainsRune reserved) s). lia.
  - split.
    + intros Heq. rewrite Heq in Hlen.
      assert (List.filter (strings.ContainsRune reserved) s = []) as Hnone.
      { apply length_zero_iff_nil. lia. }
      apply Forall_forall. intros c Hc.
      destruct (strings.ContainsRune reserved c) eqn:E; [|done].
      assert (In c (List.filter (strings.ContainsRune reserved) s)) as Hin.
      { apply List.filter_In. split; [by apply list_elem_of_In|done]. }
      rewrite Hnone in Hin. destruct Hin.
    + intros Hall. clear Hlen. rewrite escapeWithSet_flat_map.
      induction Hall as [|c s Hc Hall IH]; [reflexivity|].
      cbn [flat_map]. by rewrite Hc, IH.
Qed.

Lemma escapeHTMLRune_has_no_delimiter (d c : rune) :
  c ∈ escapeHTMLRune d → htmlDelimiter c = false.
Proof.
  unfold escapeHTMLRune.
  destruct (d =? 38)%N eqn:E1;
    [|destruct (d =? 60)%N eqn:E2;
      [|destruct (d =? 62)%N eqn:E3;
        [|destruct (d =? 34)%N eqn:E4;
          [|destruct (d =? 39)%N eqn:E5]]]].
  - change (lit "&amp;") with [38; 97; 109; 112; 59]%N.
    rewrite !elem_of_cons, elem_of_nil. intros H.
    repeat destruct H as [->|H]; done.
  - change (lit "&lt;") with [38; 108; 116; 59]%N.
    rewrite !elem_of_cons, elem_of_nil. intros H.
    repeat destruct H as [->|H]; done.
  - change (lit "&gt;") with [38; 103; 116; 59]%N.
    rewrite !elem_of_cons, elem_of_nil. intros H.
    repeat destruct H as [->|H]; done.
  - change (lit "&quot;") with [38; 113; 117; 111; 116; 59]%N.
    rewrite !elem_of_cons, elem_of_nil. intros H.
    repeat destruct H as [->|H]; done.
  - change (lit "&#39;") with [38; 35; 51; 57; 59]%N.
    rewrite !elem_of_cons, elem_of_nil. intros H.
    repeat destruct H as [->|H]; done.
  - intros Hd. apply list_elem_of_singleton in Hd. subst.
    unfold htmlDelimiter. by rewrite E2, E3, E4, E5.
Qed.

(** X8. The output of [EscapeHTML] contains no [<], [>], double quote or
    single quote, whatever the input. *)
Theorem EscapeHTML_has_no_delimiter (s : gostring) (c : rune) :
  c ∈ EscapeHTML s → htmlDelimiter c = false.
Proof.
  unfold EscapeHTML. induction s as [|d s IH]; simpl.
  - by rewrite elem_of_nil.
  - rewrite elem_of_app. intros [Hd|Hs]; [|by apply IH].
    by eapply escapeHTMLRune_has_no_delimiter.
Qed.

Lemma EscapeHTML_has_no_delimiter_witness :
  htmlDelimiter 38%N = false.
Proof.
  apply (EscapeHTML_has_no_delimiter (lit "<a>") 38%N).
  vm_compute. constructor.
Defined.

End MarkupMore.

(** ** Trimming *)

Section TrimMore.
Import strings.

Lemma TrimLeftSpace_starts s :
  TrimLeftSpace s = [] ∨ ∃ c rest, TrimLeftSpace s = c :: rest ∧ notSpace c.
Proof.
  induction s as [|c s IH]; [by left|]. simpl.
  destruct (IsSpace c) eqn:E; [done|]. right. by exists c, s.
Qed.

Lemma TrimLeftSpace_idem s : TrimLeftSpace (TrimLeftSpace s) = TrimLeftSpace s.
Proof.
  destruct (TrimLeftSpace_starts s) as [->|(c & rest & -> & Hc)]; [done|].
  by apply TrimLeftSpace_head.
Qed.

(** Trimming on the left gives a suffix of the string. *)
Lemma TrimLeftSpace_suffix s : ∃ pre, s = pre ++ TrimLeftSpace s.
Proof.
  induction s as [|c s [pre IH]]; [by exists []|]. simpl.
  destruct (IsSpace c); [|by exists []].
  exists (c :: pre). simpl. by rewrite <- IH.
Qed.

(** [TrimSpace] applied twice, and the ends of its result. *)
Lemma TrimSpace_trimmed (s : gostring) :
  TrimSpace (TrimSpace s) = TrimSpace s ∧
  (∀ c rest, TrimSpace s = c :: rest → notSpace c) ∧
  (∀ body c, TrimSpace s = body ++ [c] → notSpace c).
Proof.
  assert (∀ body c, TrimSpace s = body ++ [c] → notSpace c) as Hlast.
  { intros body c Heq. unfold TrimSpace, TrimRightSpace in Heq.
    apply (f_equal (@rev N)) in Heq. rewrite rev_involutive, rev_app_distr in Heq.
    simpl in Heq.
    destruct (TrimLeftSpace_starts (rev (TrimLeftSpace s)))
      as [Hnil|(d & rest & Hd & Hns)]; congruence. }
  assert (∀ c rest, TrimSpace s = c :: rest → notSpace c) as Hfirst.
  { intros c rest Heq. unfold TrimSpace, TrimRightSpace in Heq.
    destruct (TrimLeftSpace_suffix (rev (TrimLeftSpace s))) as [pre Hpre].
    apply (f_equal (@rev N)) in Hpre.
    rewrite rev_involutive, rev_app_distr, Heq in Hpre.
    destruct (TrimLeftSpace_starts s) as [Hnil|(d & rest' & Hd & Hns)].
    - rewrite Hnil in Hpre. discriminate.
    - rewrite Hd in Hpre. simpl in Hpre. injection Hpre as -> _. done. }
  split; [|done].
  destruct (TrimSpace s) as [|c rest] eqn:E; [reflexivity|].
  unfold TrimSpace at 1. rewrite (TrimLeftSpace_head c rest) by eauto.
  destruct (exists_last (l := c :: rest)) as (body & l & Hl); [done|].
  rewrite Hl. apply (TrimRightSpace_keeps [] body l). eapply Hlast. by rewrite <- Hl.
Qed.

End TrimMore.

(** ** Validation of [/execute] *)

Section ValidationMore.
Import strings.

Lemma extractOptionItems_result (items : list any) : ∀ idx out res,
  extractOptionItems items idx out = Ok res →
  ∃ raw, items = List.map AString raw ∧ res = out ++ List.map TrimSpace raw ∧
         Forall optionOK raw.
Proof.
  induction items as [|item items IH]; intros idx out res; simpl.
  - intros [= <-]. exists []. by rewrite app_nil_r.
  - destruct item; try discriminate.
    case_bool_decide as Hblank; [discriminate|].
    destruct (300 <? Z.of_nat (length (TrimSpace s))) eqn:Hlen; [discriminate|].
    intros Hrest. destruct (IH _ _ _ Hrest) as (raw & -> & -> & Hall).
    exists (s :: raw). simpl. rewrite <- app_assoc. split; [done|split; [done|]].
    constructor; [|done]. apply Z.ltb_ge in Hlen. split; [done|lia].
Qed.

Lemma extractString_trimmed data key value :
  extractString data key = Some value → value ≠ [] ∧ TrimSpace value = value.
Proof.
  unfold extractString. destruct (data !! key) as [[]|]; try discriminate.
  case_bool_decide as Hblank; [discriminate|]. intros [= <-].
  split; [done|]. apply TrimSpace_trimmed.
Qed.

Lemma normalizeLang_ru_or_en caseTable value fallback :
  normalizeLang caseTable value fallback = lit "ru" ∨
  normalizeLang caseTable value fallback = lit "en".
Proof.
  unfold normalizeLang.
  repeat (case_bool_decide; simpl); auto.
Qed.

(** The shape of a request that passed validation. *)
Lemma decodeAndValidate_valid (caseTable : rune → rune) (overflowInt : Z → Z)
    (cfg : config.Config) (r : HTTPRequest) (req : Request) (timeout : Z) :
  decodeAndValidate caseTable overflowInt cfg r = Ok (req, timeout) →
  ∃ raw options,
    Decoded r = Some raw ∧
    CorrelationID req = ReqCorrelationID raw ∧
    TrimSpace (CorrelationID req) ≠ [] ∧
    TrimSpace (Name (ReqTool req)) ≠ [] ∧
    TrimSpace (URL (ReqCallback req)) ≠ [] ∧
    (Lang req = lit "ru" ∨ Lang req = lit "en") ∧
    (ToLower caseTable (TrimSpace (Markup req)) = lit "markdown" ∨
     ToLower caseTable (TrimSpace (Markup req)) = lit "html") ∧
    TrimSpace (Question req) = Question req ∧
    (10 ≤ length (Question req) ≤ 1000)%nat ∧
    (length (Context req) ≤ 2000)%nat ∧
    ReqArguments raw !! lit "options" = Some (AArray (List.map AString options)) ∧
    Options req = List.map TrimSpace options ∧
    Forall (λ o, o ≠ [] ∧ (length o ≤ 300)%nat ∧ TrimSpace o = o) (Options req) ∧
    fst (optionLimitsFromSpec overflowInt (ReqSpec raw)) ≤ Z.of_nat (length (Options req))
      ≤ snd (optionLimitsFromSpec overflowInt (ReqSpec raw)) ∧
    AllowCustom req =
      default (default true (extractBool (ReqSpec raw) (lit "allow_custom_option")))
        (extractBool (ReqArguments raw) (lit "allow_custom")).
Proof.
  unfold decodeAndValidate.
  destruct (Decoded r) as [raw|]; [|simpl; discriminate].
  destruct (bool_decide (TrimSpace (ReqCorrelationID raw) = [])) eqn:Hid; [simpl; discriminate|].
  destruct (bool_decide (TrimSpace (Name (ReqToolField raw)) = [])) eqn:Htool;
    [simpl; discriminate|].
  destruct (negb _) eqn:Hmarkup; [simpl; discriminate|].
  destruct (ReqCallbackField raw) as [callback|]; [|simpl; discriminate].
  destruct (bool_decide (TrimSpace (URL callback) = [])) eqn:Hurl; [simpl; discriminate|].
  apply bool_decide_eq_false_1 in Hid, Htool, Hurl.
  unfold parseFeedbackArgs.
  destruct (extractString (ReqArguments raw) (lit "question")) as [question|] eqn:Hq;
    [|simpl; discriminate].
  destruct ((Z.of_nat (length question) <? 10) || (1000 <? Z.of_nat (length question)))
    eqn:Hqlen; [simpl; discriminate|].
  destruct (2000 <? Z.of_nat (length (default [] (extractString (ReqArguments raw)
                                                    (lit "context"))))) eqn:Hclen;
    [simpl; discriminate|].
  destruct (optionLimitsFromSpec overflowInt (ReqSpec raw)) as [mn mx] eqn:Hlim.
  unfold extractOptions.
  destruct (ReqArguments raw !! lit "options") as [[| | | | | | |items|]|] eqn:Hopts;
    try (simpl; discriminate).
  destruct ((Z.of_nat (length items) <? mn) || (mx <? Z.of_nat (length items))) eqn:Hcount;
    [simpl; discriminate|].
  destruct (extractOptionItems items 0 []) as [opts|msg] eqn:Hitems; [|simpl; discriminate].
  intros [= <- <-].
  destruct (extractOptionItems_result _ _ _ _ Hitems) as (strs & -> & -> & Hall).
  exists raw, strs. rewrite Hlim. cbn [fst snd CorrelationID ReqTool Question Context
    Options AllowCustom Lang Markup ReqCallback].
  apply orb_false_iff in Hqlen as [Hq1 Hq2]. apply Z.ltb_ge in Hq1, Hq2, Hclen.
  apply orb_false_iff in Hcount as [Hc1 Hc2]. apply Z.ltb_ge in Hc1, Hc2.
  rewrite length_map in Hc1, Hc2.
  apply negb_false_iff, orb_true_iff in Hmarkup.
  repeat split; try done; try lia.
  - apply normalizeLang_ru_or_en.
  - destruct Hmarkup as [H|H]; apply bool_decide_eq_true_1 in H; auto.
  - by apply (extractString_trimmed _ _ _ Hq).
  - simpl. clear -Hall. induction Hall as [|o strs [Hne Hlen] Hall IH]; simpl; [constructor|].
    constructor; [|done]. repeat split; [done|done|apply TrimSpace_trimmed].
  - simpl. rewrite length_map. lia.
  - simpl. rewrite length_map. lia.
Qed.

Lemma optionLimitsFromSpec_positive (overflowInt : Z → Z) (spec : gmap gostring any) :
  0 < fst (optionLimitsFromSpec overflowInt spec).
Proof.
  unfold optionLimitsFromSpec. cbn [fst].
  destruct (extractInt overflowInt spec (lit "options_min")) as [v|]; [|lia].
  destruct (0 <? v) eqn:Hv; [by apply Z.ltb_lt in Hv|lia].
Qed.

(** X9. What [/execute] validation lets through is well formed: the
    correlation id, the tool name and the callback URL are not blank; the
    language is "ru" or "en"; the markup names markdown or html; the
    question is trimmed and 10 to 1000 code points long; the context is at
    most 2000; the options are the trimmed strings of the request's
    [options] array, in order, each non-empty and at most 300 code points;
    [allow_custom] is the request's argument when it is a boolean, else the
    spec's [allow_custom_option] when that is one, else true; there is at
    least one option, their number lies within the limits the code reads
    from the spec and, when [options_min] and [options_max] are decoded
    JSON whose numbers fit [int], within the limits as the specification
    words them. *)
Theorem decodeAndValidate_sound (caseTable : rune → rune) (overflowInt : Z → Z)
    (cfg : config.Config) (r : HTTPRequest) (req : Request) (timeout : Z) :
  decodeAndValidate caseTable overflowInt cfg r = Ok (req, timeout) →
  ∃ raw options,
    Decoded r = Some raw ∧
    CorrelationID req = ReqCorrelationID raw ∧
    TrimSpace (CorrelationID req) ≠ [] ∧
    TrimSpace (Name (ReqTool req)) ≠ [] ∧
    TrimSpace (URL (ReqCallback req)) ≠ [] ∧
    (Lang req = lit "ru" ∨ Lang req = lit "en") ∧
    (ToLower caseTable (TrimSpace (Markup req)) = lit "markdown" ∨
     ToLower caseTable (TrimSpace (Markup req)) = lit "html") ∧
    TrimSpace (Question req) = Question req ∧
    (10 ≤ length (Question req) ≤ 1000)%nat ∧
    (length (Context req) ≤ 2000)%nat ∧
    ReqArguments raw !! lit "options" = Some (AArray (List.map AString options)) ∧
    Options req = List.map TrimSpace options ∧
    Forall (λ o, o ≠ [] ∧ (length o ≤ 300)%nat ∧ TrimSpace o = o) (Options req) ∧
    fst (optionLimitsFromSpec overflowInt (ReqSpec raw)) ≤ Z.of_nat (length (Options req))
      ≤ snd (optionLimitsFromSpec overflowInt (ReqSpec raw)) ∧
    AllowCustom req =
      default (default true (extractBool (ReqSpec raw) (lit "allow_custom_option")))
        (extractBool (ReqArguments raw) (lit "allow_custom")) ∧
    (1 ≤ length (Options req))%nat ∧
    (claimed.plainField (ReqSpec raw) (lit "options_min") →
     claimed.plainField (ReqSpec raw) (lit "options_max") →
     fst (claimed.optionLimits (ReqSpec raw)) ≤ Z.of_nat (length (Options req))
       ≤ snd (claimed.optionLimits (ReqSpec raw))).
Proof.
  intros Hv.
  destruct (decodeAndValidate_valid caseTable overflowInt cfg r req timeout Hv)
    as (raw & options & H1 & H2 & H3 & H4 & H5 & H6 & H7 & H8 & H9 & H10 & H11 & H12
        & H13 & H14 & H15).
  exists raw, options. do 15 (split; [assumption|]). split.
  - pose proof (optionLimitsFromSpec_positive overflowInt (ReqSpec raw)). lia.
  - intros Hmin Hmax. by rewrite <- (optionLimitsFromSpec_claimed overflowInt).
Qed.

Lemma decodeAndValidate_sound_witness :
  ∃ raw options,
    Decoded (sample.post sample.executeRequest) = Some raw ∧
    ReqArguments raw !! lit "options" = Some (AArray (List.map AString options)) ∧
    Options sample.submitted = List.map TrimSpace options.
Proof.
  destruct (decodeAndValidate_sound sample.caseTable sample.overflowInt sample.cfg
              (sample.post sample.executeRequest) sample.submitted Hour)
    as (raw & options & H1 & _ & _ & _ & _ & _ & _ & _ & _ & _ & H2 & H3 & _).
  - vm_compute. reflexivity.
  - exists raw, options. auto.
Defined.

(** X10. A request whose correlation id is already registered is answered
    202 with status "error" and result "execution already exists"; nothing
    is sent, no timer is armed and the registry stays as it is. *)
Theorem ServeHTTP_duplicate (caseTable : rune → rune) (overflowInt : Z → Z)
    (cfg : config.Config)
    (svc : telegram.Service) (w : telegram.World) (r : HTTPRequest)
    (req : Request) (timeout now : Z) (sent : option Z) :
  Method r = lit "POST" →
  decodeAndValidate caseTable overflowInt cfg r = Ok (req, timeout) →
  is_Some (execs (telegram.registry w) !! CorrelationID req) →
  ServeHTTP caseTable overflowInt cfg svc w r now sent
    = (w, respond StatusAccepted StatusError
            (AString (lit "execution already exists")) [CorrelationID req]).
Proof.
  intros Hpost Hv Hlive. unfold ServeHTTP.
  rewrite Hpost, (bool_decide_eq_true_2 (lit "POST" = lit "POST")) by done. simpl.
  rewrite Hv, SubmitExecution_duplicate by done. reflexivity.
Qed.

Lemma ServeHTTP_duplicate_witness :
  let w := fst (ServeHTTP sample.caseTable sample.overflowInt sample.cfg
                  sample.service sample.world0
                  (sample.post sample.executeRequest) 0 (Some 5)) in
  ServeHTTP sample.caseTable sample.overflowInt sample.cfg sample.service w
    (sample.post sample.executeRequest) 1 (Some 6)
  = (w, respond StatusAccepted StatusError
          (AString (lit "execution already exists")) [lit "r1"]).
Proof.
  intros w.
  apply (ServeHTTP_duplicate sample.caseTable sample.overflowInt sample.cfg sample.service w
           (sample.post sample.executeRequest) sample.submitted Hour 1 (Some 6)).
  - reflexivity.
  - vm_compute. reflexivity.
  - vm_compute. eauto.
Defined.

End ValidationMore.

(** ** The voice normaliser *)

Section VoiceMore.
Import strings handlers.

Lemma ToLower_app caseTable s t :
  ToLower caseTable (s ++ t) = ToLower caseTable s ++ ToLower caseTable t.
Proof. unfold ToLower. apply map_app. Qed.

(** X11. The file name [normalizeFilename] gives always ends in [.mp3],
    compared without case; a name that already does is returned as it is,
    and a blank one becomes [voice.mp3]. *)
Theorem normalizeFilename_ends_in_mp3 (caseTable : rune → rune) (filename : gostring) :
  HasSuffix (ToLower caseTable (normalizeFilename caseTable filename)) (lit ".mp3") = true ∧
  (TrimSpace filename = [] → normalizeFilename caseTable filename = lit "voice.mp3") ∧
  (TrimSpace filename ≠ [] →
   HasSuffix (ToLower caseTable filename) (lit ".mp3") = true →
   normalizeFilename caseTable filename = filename).
Proof.
  unfold normalizeFilename. split; [|split].
  - case_bool_decide as Hblank; [reflexivity|].
    destruct (HasSuffix (ToLower caseTable filename) (lit ".mp3")) eqn:Hsuf; [done|].
    destruct (Ext filename) as [|c ext]; rewrite ToLower_app; apply HasSuffix_true; eauto.
  - intros Hblank. by rewrite bool_decide_eq_true_2.
  - intros Hblank Hsuf. by rewrite bool_decide_eq_false_2, Hsuf.
Qed.

(** X12. What [normalizeVoiceAudio] returns is never empty, and is stable:
    normalising the returned audio again, with any transcoder, returns it
    unchanged, so audio is transcoded at most once. *)
Theorem normalizeVoiceAudio_stable (caseTable : rune → rune)
    (ffmpeg ffmpeg' : list Byte.byte → ffmpegOutcome)
    (content content' : list Byte.byte) (mimeType filename mimeType' filename' : gostring) :
  normalizeVoiceAudio caseTable ffmpeg content mimeType filename
    = Audio content' mimeType' filename' →
  content' ≠ [] ∧
  normalizeVoiceAudio caseTable ffmpeg' content' mimeType' filename'
    = Audio content' mimeType' filename'.
Proof.
  unfold normalizeVoiceAudio at 1.
  destruct content as [|b content]; [discriminate|].
  destruct (isOpenAICompatibleAudio caseTable _ filename) eqn:Hok.
  - intros [= <- <- <-]. split; [done|].
    unfold normalizeVoiceAudio. by rewrite Hok.
  - destruct (ffmpeg (b :: content)) as [[|o out]|err stderr]; try discriminate.
    + intros [= <- <- <-]. split; [done|].
      unfold normalizeVoiceAudio.
      rewrite (isOpenAICompatibleAudio_mime caseTable (lit "audio/mpeg")); [done|].
      change (ToLower caseTable (TrimSpace (lit "audio/mpeg"))) with (lit "audio/mpeg").
      unfold acceptedMimeTypes. apply list_elem_of_here.
    + by case_bool_decide.
Qed.

Lemma normalizeVoiceAudio_stable_witness :
  handlers.normalizeVoiceAudio sample.caseTable sample.noFfmpeg
    [Byte.x01] (lit "audio/ogg") (lit "voice.MP3")
  = handlers.Audio [Byte.x01] (lit "audio/ogg") (lit "voice.MP3").
Proof.
  refine (proj2 (normalizeVoiceAudio_stable sample.caseTable sample.noFfmpeg sample.noFfmpeg
                   [Byte.x01] [Byte.x01] (lit "audio/ogg") (lit "voice.MP3")
                   (lit "audio/ogg") (lit "voice.MP3") _)).
  vm_compute. reflexivity.
Defined.

End VoiceMore.

(** ** Keyboards *)

Section KeyboardMore.
Import strings keyboard.

(** X13. For a positive limit a button label is never empty and never
    longer than the limit: a blank option gives ["-"], an option that fits
    is shown trimmed, and a longer one is cut, with three dots in place of
    its end when the limit is above 3. *)
Theorem shortenButtonLabel_bounds (value : gostring) (maxRunes : Z) :
  0 < maxRunes →
  let label := shortenButtonLabel value maxRunes in
  (1 ≤ Z.of_nat (length label) ≤ maxRunes) ∧
  (TrimSpace value = [] → label = lit "-") ∧
  (TrimSpace value ≠ [] → Z.of_nat (length (TrimSpace value)) ≤ maxRunes →
     label = TrimSpace value) ∧
  (maxRunes < Z.of_nat (length (TrimSpace value)) → 3 < maxRunes →
     label = take (Z.to_nat (maxRunes - 3)) (TrimSpace value) ++ lit "..." ∧
     Z.of_nat (length label) = maxRunes).
Proof.
  intros Hmax label. subst label. unfold shortenButtonLabel.
  destruct (TrimSpace value) as [|c rest] eqn:Hv.
  { repeat split; try done; simpl in *; lia. }
  set (v := c :: rest) in *.
  assert (0 < Z.of_nat (length v)) as Hpos by (subst v; simpl; lia).
  assert ((maxRunes <=? 0) = false) as -> by (apply Z.leb_gt; lia).
  destruct (Z.of_nat (length v) <=? maxRunes) eqn:Hfit.
  { apply Z.leb_le in Hfit. repeat split; try done; lia. }
  apply Z.leb_gt in Hfit.
  destruct (maxRunes <=? 1) eqn:H1; [|destruct (maxRunes <=? 3) eqn:H3].
  - apply Z.leb_le in H1. repeat split; try done; try lia;
      rewrite length_take; lia.
  - apply Z.leb_le in H3. repeat split; try done; try lia;
      rewrite length_take; lia.
  - apply Z.leb_gt in H3.
    assert (Z.of_nat (length (take (Z.to_nat (maxRunes - 3)) v ++ lit "...")) = maxRunes)
      as Hlen.
    { rewrite length_app, length_take. change (length (lit "...")) with 3%nat. lia. }
    repeat split; try done; lia.
Qed.

Lemma shortenButtonLabel_bounds_witness :
  shortenButtonLabel (lit " abcdefgh ") 6 = lit "abc...".
Proof.
  destruct (shortenButtonLabel_bounds (lit " abcdefgh ") 6) as (_ & _ & _ & Hcut);
    [lia|].
  destruct Hcut as [Hlabel _]; [vm_compute; reflexivity|lia|].
  rewrite Hlabel. vm_compute. reflexivity.
Defined.

End KeyboardMore.

(** ** The webhook source *)

Section WebhookMore.
Import webhook.

(** When the webhook handler takes an update, and what it does then. *)
Lemma Handler_accepts_iff (w : Webhook) (r : Request) :
  (snd (Handler w r) = StatusOK
   ↔ closed w = false ∧ Method r = lit "POST" ∧ SecretToken r = secret w ∧
     is_Some (Body r) ∧ (length (updates w) < capacity)%nat) ∧
  (∀ update, snd (Handler w r) = StatusOK → Body r = Some update →
     fst (Handler w r)
       = {| secret := secret w; updates := updates w ++ [update]; closed := closed w |}) ∧
  (snd (Handler w r) ≠ StatusOK → fst (Handler w r) = w).
Proof.
  unfold Handler.
  destruct (closed w) eqn:Hc; simpl.
  { repeat split; try done. intros (H & _). done. }
  case_bool_decide as Hm; simpl; [|repeat split; try done; intros (_ & H & _); done].
  case_bool_decide as Hs; simpl; [|repeat split; try done; intros (_ & _ & H & _); done].
  destruct (Body r) as [update|] eqn:Hb; simpl;
    [|repeat split; try done; intros (_ & _ & _ & [? H] & _); done].
  destruct (length (updates w) <? capacity)%nat eqn:Hroom; simpl.
  - apply Nat.ltb_lt in Hroom. repeat split; eauto; [by intros u _ [= <-]|done].
  - apply Nat.ltb_ge in Hroom. repeat split; try done.
    intros (_ & _ & _ & _ & H). lia.
Qed.

(** X14. The webhook handler answers 200 exactly when the source is not
    stopped, the method is POST, the secret header equals the shared
    secret, the body decodes and the channel has room; exactly then the
    update is appended behind the waiting ones, and in every other case
    the source is left as it was. *)
Theorem webhook_Handler_accepts (w : Webhook) (r : Request) :
  (snd (Handler w r) = StatusOK
   ↔ closed w = false ∧ Method r = lit "POST" ∧ SecretToken r = secret w ∧
     is_Some (Body r) ∧ (length (updates w) < capacity)%nat) ∧
  (∀ update, snd (Handler w r) = StatusOK → Body r = Some update →
     fst (Handler w r)
       = {| secret := secret w; updates := updates w ++ [update]; closed := closed w |}) ∧
  (snd (Handler w r) ≠ StatusOK → fst (Handler w r) = w).
Proof. exact (Handler_accepts_iff w r). Qed.

Lemma webhook_bound_step (w : Webhook) (a : action) :
  (length (updates w) ≤ capacity)%nat → (length (updates (act w a)) ≤ capacity)%nat.
Proof.
  intros Hle. destruct a as [r| |]; simpl.
  - destruct (decide (snd (Handler w r) = StatusOK)) as [Hok|Hno].
    + destruct (proj1 (proj1 (Handler_accepts_iff w r)) Hok)
        as (_ & _ & _ & [update Hb] & Hroom).
      rewrite (proj1 (proj2 (Handler_accepts_iff w r)) update Hok Hb).
      simpl. rewrite length_app. simpl. lia.
    + by rewrite (proj2 (proj2 (Handler_accepts_iff w r)) Hno).
  - unfold receive, capacity in *.
    destruct (updates w) as [|u rest] eqn:E; simpl in *; rewrite ?E; simpl; lia.
  - done.
Qed.

(** X15. Whatever requests arrive and whenever the consumer reads, the
    channel of the webhook source never holds more than 128 updates; a
    stopped source answers 503 without taking the update, and nothing
    starts it again. *)
Theorem webhook_queue_bounded (s : gostring) (actions : list action) :
  let w := fold_left act actions (NewWebhook s) in
  (length (updates w) ≤ 128)%nat ∧
  (∀ r, closed w = true → Handler w r = (w, StatusServiceUnavailable)) ∧
  (∀ a, closed w = true → closed (act w a) = true).
Proof.
  split; [|split].
  - assert (∀ w0, (length (updates w0) ≤ capacity)%nat →
              (length (updates (fold_left act actions w0)) ≤ capacity)%nat) as Hrun.
    { induction actions as [|a actions IH]; intros w0 H0; simpl; [done|].
      apply IH. by apply webhook_bound_step. }
    apply (Hrun (NewWebhook s)). simpl. unfold capacity. lia.
  - intros r Hc. unfold Handler. by rewrite Hc.
  - intros a Hc. destruct a as [r| |]; simpl; [|unfold receive|done].
    + unfold Handler. by rewrite Hc.
    + by destruct (updates _).
Qed.

End WebhookMore.

(** ** Callback data *)

Section CallbackData.
Import gostd dispatch.

Lemma lit_String (a : ascii) (s : string) : lit (String a s) = N_of_ascii a :: lit s.
Proof. reflexivity. Qed.

Lemma parseDigits_cons (c : rune) (rest : gostring) (n : Z) :
  ((48 <=? c) && (c <=? 57))%N = true →
  parseDigits (c :: rest) n = parseDigits rest (n * 10 + (Z.of_N c - 48)).
Proof. intros H. simpl. by rewrite H. Qed.

Lemma parseDigits_acc (d : Decimal.uint) : ∀ acc : positive,
  parseDigits (lit (NilEmpty.string_of_uint d)) (Z.pos acc)
    = Some (Z.pos (Pos.of_uint_acc d acc)).
Proof.
  induction d; intros acc; [reflexivity|..];
    cbn [NilEmpty.string_of_uint Pos.of_uint_acc];
    rewrite lit_String, parseDigits_cons by reflexivity;
    match goal with
    | |- parseDigits _ ?n = Some (Z.pos (Pos.of_uint_acc _ ?q)) =>
        replace n with (Z.pos q) by (vm_compute (N_of_ascii _); lia);
        apply IHd
    end.
Qed.

Lemma parseDigits_uint (d : Decimal.uint) :
  parseDigits (lit (NilEmpty.string_of_uint d)) 0 = Some (Z.of_N (Pos.of_uint d)).
Proof.
  induction d; [reflexivity|..];
    cbn [NilEmpty.string_of_uint Pos.of_uint];
    rewrite lit_String, parseDigits_cons by reflexivity;
    [exact IHd|..];
    match goal with
    | |- parseDigits _ ?n = Some (Z.of_N (N.pos (Pos.of_uint_acc _ ?q))) =>
        replace n with (Z.pos q) by (vm_compute; reflexivity);
        apply parseDigits_acc
    end.
Qed.

Lemma parseDigits_pos (p : positive) :
  parseDigits (lit (NilEmpty.string_of_uint (Pos.to_uint p))) 0 = Some (Z.pos p).
Proof. by rewrite parseDigits_uint, DecimalPos.Unsigned.of_to. Qed.

(** A decimal numeral that is not empty starts with a digit. *)
Lemma string_of_uint_head (d : Decimal.uint) :
  d ≠ Decimal.Nil →
  ∃ c rest, lit (NilEmpty.string_of_uint d) = c :: rest ∧
            (c =? 45)%N = false ∧ (c =? 43)%N = false.
Proof. destruct d; [done|..]; intros _; eexists _, _; by cbn. Qed.

(** [Atoi] on the decimal text of an [int]. *)
Lemma Atoi_reads_Itoa (z : Z) :
  minInt ≤ z ≤ maxInt → Atoi (strings.Itoa z) = Some z.
Proof.
  intros Hrange. unfold strings.Itoa.
  destruct z as [|p|p]; [reflexivity|..]; cbn [Z.to_int NilZero.string_of_int].
  - pose proof (DecimalPos.Unsigned.to_uint_nonnil p) as Hnil.
    unfold NilZero.string_of_uint.
    destruct (Pos.to_uint p) eqn:Hd; [done|..]; rewrite <- Hd;
      (destruct (string_of_uint_head (Pos.to_uint p)) as (c & rest & Hs & H45 & H43);
       [by rewrite Hd|];
       pose proof (parseDigits_pos p) as Hp; rewrite Hs in Hp |- *;
       unfold Atoi; rewrite H45, H43; cbn [orb]; rewrite Hp;
       destruct ((minInt <=? Z.pos p) && (Z.pos p <=? maxInt)) eqn:Hr; [done|];
       apply andb_false_iff in Hr as [Hr|Hr]; [apply Z.leb_gt in Hr|apply Z.leb_gt in Hr];
       lia).
  - pose proof (DecimalPos.Unsigned.to_uint_nonnil p) as Hnil.
    unfold NilZero.string_of_uint.
    destruct (Pos.to_uint p) eqn:Hd; [done|..]; rewrite <- Hd;
      (destruct (string_of_uint_head (Pos.to_uint p)) as (c & rest & Hs & H45 & H43);
       [by rewrite Hd|];
       pose proof (parseDigits_pos p) as Hp;
       change (lit (String "-" (NilEmpty.string_of_uint (Pos.to_uint p))))
         with (45%N :: lit (NilEmpty.string_of_uint (Pos.to_uint p)));
       rewrite Hs in Hp |- *;
       unfold Atoi; cbn [N.eqb Pos.eqb orb]; rewrite Hp;
       change (- Z.pos p) with (Z.neg p);
       destruct ((minInt <=? Z.neg p) && (Z.neg p <=? maxInt)) eqn:Hr; [done|];
       apply andb_false_iff in Hr as [Hr|Hr]; [apply Z.leb_gt in Hr|apply Z.leb_gt in Hr];
       lia).
Qed.

Lemma cut_found sep (a b : gostring) :
  sep ∉ a → cut sep (a ++ sep :: b) = Some (a, b).
Proof.
  induction a as [|c a IH]; simpl; intros Hnot.
  - by rewrite N.eqb_refl.
  - rewrite not_elem_of_cons in Hnot. destruct Hnot as [Hc Ha].
    destruct (c =? sep)%N eqn:E; [apply N.eqb_eq in E; congruence|].
    by rewrite IH.
Qed.

Lemma cut_none sep (s : gostring) : sep ∉ s → cut sep s = None.
Proof.
  induction s as [|c s IH]; simpl; intros Hnot; [done|].
  rewrite not_elem_of_cons in Hnot. destruct Hnot as [Hc Hs].
  destruct (c =? sep)%N eqn:E; [apply N.eqb_eq in E; congruence|].
  by rewrite IH.
Qed.

(** Every string that contains [sep] splits at its first occurrence. *)
Lemma elem_of_first sep (s : gostring) :
  sep ∈ s → ∃ a b, s = a ++ sep :: b ∧ sep ∉ a.
Proof.
  induction s as [|c s IH]; [by rewrite elem_of_nil|].
  destruct (decide (c = sep)) as [->|Hne].
  - intros _. exists [], s. split; [done|]. apply not_elem_of_nil.
  - rewrite elem_of_cons. intros [Heq|Hin]; [congruence|].
    destruct (IH Hin) as (a & b & -> & Ha). exists (c :: a), b. split; [done|].
    rewrite not_elem_of_cons. auto.
Qed.

(** [parseCallback] on data built by [CallbackData]. *)
Lemma parseCallback_reads (action payload : gostring) :
  58%N ∉ action →
  parseCallback (CallbackData action payload) = (action, payload).
Proof.
  intros Hnot. unfold parseCallback, CallbackData, SplitN2.
  destruct payload as [|c payload].
  - by rewrite cut_none.
  - change (action ++ lit ":" ++ c :: payload) with (action ++ 58%N :: c :: payload).
    by rewrite cut_found.
Qed.

(** X16. [parseCallback] takes apart what [CallbackData] builds, for any
    payload, as long as the action has no colon. *)
Theorem parseCallback_CallbackData (action payload : gostring) :
  58%N ∉ action →
  parseCallback (CallbackData action payload) = (action, payload).
Proof. exact (parseCallback_reads action payload). Qed.

Lemma parseCallback_CallbackData_witness :
  parseCallback (CallbackData ActionOption (lit "r:1|0")) = (ActionOption, lit "r:1|0").
Proof.
  apply (parseCallback_CallbackData ActionOption (lit "r:1|0")).
  match goal with |- ?P => apply (bool_decide_unpack P) end. vm_compute. exact I.
Defined.

Lemma parseDigits_bar (s : gostring) : ∀ n, 124%N ∈ s → parseDigits s n = None.
Proof.
  induction s as [|c s IH]; intros n; [by rewrite elem_of_nil|].
  rewrite elem_of_cons. intros [<-|Hin]; [reflexivity|].
  simpl. destruct (_ && _); [by apply IH|done].
Qed.

Lemma Atoi_bar (s : gostring) : 124%N ∈ s → Atoi s = None.
Proof.
  destruct s as [|c s]; [by rewrite elem_of_nil|].
  intros Hin. unfold Atoi.
  destruct ((c =? 45)%N || (c =? 43)%N) eqn:Hsign.
  - assert (124%N ∈ s) as Hs.
    { apply elem_of_cons in Hin as [<-|Hin]; [discriminate|done]. }
    destruct s; [by apply elem_of_nil in Hs|]. by rewrite parseDigits_bar.
  - by rewrite parseDigits_bar.
Qed.

(** [parseOptionPayload] on [<id>|<index>]. *)
Lemma parseOptionPayload_reads (id : gostring) (index : Z) :
  minInt ≤ index ≤ maxInt →
  (124%N ∉ id →
     parseOptionPayload (id ++ lit "|" ++ strings.Itoa index) = Some (id, index)) ∧
  (124%N ∈ id →
     parseOptionPayload (id ++ lit "|" ++ strings.Itoa index) = None).
Proof.
  intros Hrange. unfold parseOptionPayload, SplitN2.
  change (id ++ lit "|" ++ strings.Itoa index) with (id ++ 124%N :: strings.Itoa index).
  split.
  - intros Hnot. by rewrite cut_found, Atoi_reads_Itoa.
  - intros Hin. destruct (elem_of_first _ _ Hin) as (a & b & -> & Ha).
    rewrite <- app_assoc. simpl. rewrite cut_found by done.
    rewrite Atoi_bar; [done|]. rewrite elem_of_app, elem_of_cons. auto.
Qed.

(** X17. The payload [<id>|<index>] of an option button is read back as
    that id and index when the id has no vertical bar; when the id has
    one, the payload is always refused, so such an execution cannot be
    answered by its option buttons. *)
Theorem parseOptionPayload_round_trip (id : gostring) (index : Z) :
  minInt ≤ index ≤ maxInt →
  (124%N ∉ id →
     parseOptionPayload (id ++ lit "|" ++ strings.Itoa index) = Some (id, index)) ∧
  (124%N ∈ id →
     parseOptionPayload (id ++ lit "|" ++ strings.Itoa index) = None).
Proof. exact (parseOptionPayload_reads id index). Qed.

Lemma parseOptionPayload_round_trip_witness :
  parseOptionPayload (lit "r1" ++ lit "|" ++ strings.Itoa 1) = Some (lit "r1", 1) ∧
  parseOptionPayload (lit "a|b" ++ lit "|" ++ strings.Itoa 1) = None.
Proof.
  split.
  - apply (parseOptionPayload_round_trip (lit "r1") 1); [vm_compute; split; discriminate|].
    match goal with |- ?P => apply (bool_decide_unpack P) end. vm_compute. exact I.
  - apply (parseOptionPayload_round_trip (lit "a|b") 1); [vm_compute; split; discriminate|].
    match goal with |- ?P => apply (bool_decide_unpack P) end. vm_compute. exact I.
Defined.

End CallbackData.

(** ** The update handler *)

Section DispatchMore.
Import gostd dispatch program.
Variable caseTable : rune → rune.
Variable Sprint_v : any → gostring.
Variable validURL : gostring → bool.

Lemma answersTo_app q cs1 cs2 :
  answersTo q (cs1 ++ cs2) = (answersTo q cs1 + answersTo q cs2)%nat.
Proof. unfold answersTo. by rewrite List.filter_app, length_app. Qed.

Lemma answersTo_answerCallback q queryID text :
  answersTo q (handlers.answerCallback queryID text)
    = if bool_decide (queryID = q) then 1%nat else 0%nat.
Proof. unfold answersTo, handlers.answerCallback. simpl. by case_bool_decide. Qed.

Lemma answersTo_DeleteMessage q messageID :
  answersTo q (handlers.DeleteMessage messageID) = 0%nat.
Proof. unfold handlers.DeleteMessage. by destruct (messageID <=? 0). Qed.

Lemma answersTo_FinalizeExecution q h exec result timeoutMessage :
  answersTo q (handlers.FinalizeExecution caseTable Sprint_v validURL h exec result timeoutMessage)
    = 0%nat.
Proof.
  unfold handlers.FinalizeExecution, handlers.sendWebhook, answersTo. simpl.
  case_bool_decide; [done|]. by destruct (validURL _).
Qed.

Lemma answersTo_prompt_deletion q (promptID : Z) :
  answersTo q (if promptID >? 0 then handlers.DeleteMessage promptID else []) = 0%nat.
Proof. destruct (promptID >? 0); [apply answersTo_DeleteMessage|done]. Qed.

(** The calls a handler adds to the world. *)
Lemma calls_emit w cs : telegram.calls (emit w cs) = telegram.calls w ++ cs.
Proof. reflexivity. Qed.

Ltac one_answer :=
  eexists; split; [reflexivity|intros ?; apply answersTo_answerCallback].

Lemma resolveOption_answers h w queryID payload :
  ∃ cs, telegram.calls (resolveOption caseTable Sprint_v validURL h w queryID payload)
          = telegram.calls w ++ cs ∧
        ∀ q, answersTo q cs = if bool_decide (queryID = q) then 1%nat else 0%nat.
Proof.
  unfold resolveOption.
  destruct (parseOptionPayload payload) as [[correlationID optionIndex]|];
    [|one_answer].
  destruct (Get _ correlationID) as [exec|];
    [|one_answer].
  destruct (_ || _);
    [one_answer|].
  destruct (Resolve _ correlationID) as [r1 [[[exec'|] promptID] [|]]];
    try (one_answer).
  eexists; split; [reflexivity|]. intros q.
  rewrite !answersTo_app, answersTo_prompt_deletion, answersTo_FinalizeExecution.
  by rewrite answersTo_answerCallback.
Qed.

Lemma startCustomPrompt_answers h r queryID correlationID sent :
  ∀ q, answersTo q (snd (handlers.startCustomPrompt caseTable h r queryID correlationID sent))
         = if bool_decide (queryID = q) then 1%nat else 0%nat.
Proof.
  intros q. unfold handlers.startCustomPrompt.
  destruct (Get r correlationID) as [exec|]; [|apply answersTo_answerCallback].
  destruct (negb _); [apply answersTo_answerCallback|].
  destruct (StartCustomInput r correlationID) as [r1 [prev [|]]]; simpl;
    [|apply answersTo_answerCallback].
  destruct sent; simpl;
    rewrite answersTo_app, answersTo_prompt_deletion;
    change (?c :: handlers.answerCallback ?i ?t) with ([c] ++ handlers.answerCallback i t);
    by rewrite answersTo_app, answersTo_answerCallback.
Qed.

(** X18. A callback query that carries a message is acknowledged exactly
    once, whatever its chat, action and payload, and no other query is
    acknowledged on its behalf; the calls made before are kept. *)
Theorem handleCallback_answers_once (h : handlers.Handler) (w : telegram.World)
    (env : Env) (query : CallbackQuery) (chat : Z) :
  QueryChat query = Some chat →
  ∃ cs,
    telegram.calls (handleCallback caseTable Sprint_v validURL h w env query)
      = telegram.calls w ++ cs ∧
    answersTo (QueryID query) cs = 1%nat ∧
    ∀ q, q ≠ QueryID query → answersTo q cs = 0%nat.
Proof.
  intros Hchat.
  assert (∃ cs, telegram.calls (handleCallback caseTable Sprint_v validURL h w env query)
                  = telegram.calls w ++ cs ∧
                ∀ q, answersTo q cs
                     = if bool_decide (QueryID query = q) then 1%nat else 0%nat)
    as (cs & Hcalls & Hcount).
  { unfold handleCallback. rewrite Hchat.
    destruct (negb _);
      [one_answer|].
    destruct (parseCallback (QueryData query)) as [action payload].
    case_bool_decide; [apply resolveOption_answers|].
    case_bool_decide.
    { pose proof (startCustomPrompt_answers h (telegram.registry w) (QueryID query)
                    payload (promptSent env)) as Hs.
      destruct (handlers.startCustomPrompt _ _ _ _ _ _) as [r1 cs].
      exists cs. split; [reflexivity|exact Hs]. }
    case_bool_decide.
    { unfold handlers.cancelCustomPrompt.
      destruct (ClearPrompt _ payload) as [r1 promptID].
      eexists; split; [reflexivity|]. intros q.
      by rewrite answersTo_app, answersTo_prompt_deletion, answersTo_answerCallback. }
    case_bool_decide.
    { unfold deleteMessage. destruct (Atoi payload) as [messageID|];
        [destruct (messageID <=? 0)|];
        (eexists; split; [reflexivity|]); intros q;
        rewrite ?answersTo_app, ?answersTo_DeleteMessage;
        by rewrite answersTo_answerCallback. }
    one_answer. }
  exists cs. split; [done|]. split.
  - by rewrite Hcount, bool_decide_eq_true_2.
  - intros q Hq. by rewrite Hcount, bool_decide_eq_false_2.
Qed.

(** X19. An update from a chat other than the configured one changes
    neither the registry nor the timers and triggers no send, edit, delete
    or callback post: a callback query gets the "invalid chat"
    acknowledgement and nothing else, and a message is ignored. *)
Theorem foreign_chat_is_refused (h : handlers.Handler) (w : telegram.World)
    (env : Env) (update : Update) :
  (∀ query chat, UpdCallbackQuery update = Some query →
     QueryChat query = Some chat → chat ≠ handlers.chatID h →
     HandleUpdate caseTable Sprint_v validURL h w env update
       = emit w [AnswerCallbackQueryCall (QueryID query)
                   (let text := i18n.InvalidChat (handlers.messageFor caseTable h []) in
                    if bool_decide (strings.TrimSpace text = []) then [] else text)]) ∧
  (∀ message, UpdCallbackQuery update = None → UpdMessage update = Some message →
     MsgChat message ≠ handlers.chatID h →
     HandleUpdate caseTable Sprint_v validURL h w env update = w).
Proof.
  unfold HandleUpdate. split.
  - intros query chat -> Hchat Hne. unfold handleCallback, allowedChat. rewrite Hchat.
    by rewrite (proj2 (Z.eqb_neq _ _) Hne).
  - intros message -> -> Hne. unfold handleMessage, allowedChat.
    by rewrite (proj2 (Z.eqb_neq _ _) Hne).
Qed.

End DispatchMore.

Lemma handleCallback_answers_once_witness :
  ∃ cs,
    telegram.calls
      (dispatch.handleCallback sample.caseTable sample.sprint sample.validURL sample.handler
         sample.promptedWorld sample.noEnv
         {| dispatch.QueryID := lit "q1"; dispatch.QueryData := lit "custom:r1";
            dispatch.QueryChat := Some 1 |})
      = telegram.calls sample.promptedWorld ++ cs ∧
    program.answersTo (lit "q1") cs = 1%nat.
Proof.
  destruct (handleCallback_answers_once sample.caseTable sample.sprint sample.validURL
              sample.handler
              sample.promptedWorld sample.noEnv
              {| dispatch.QueryID := lit "q1"; dispatch.QueryData := lit "custom:r1";
                 dispatch.QueryChat := Some 1 |} 1 eq_refl)
    as (cs & Hcalls & Hone & _).
  exists cs. split; [exact Hcalls|exact Hone].
Defined.

Lemma foreign_chat_is_refused_witness :
  dispatch.HandleUpdate sample.caseTable sample.sprint sample.validURL sample.handler
    sample.promptedWorld sample.noEnv
    {| dispatch.UpdCallbackQuery := None;
       dispatch.UpdMessage :=
         Some {| dispatch.MsgChat := 2; dispatch.MsgText := lit "my answer";
                 dispatch.MsgVoice := None |} |}
  = sample.promptedWorld.
Proof.
  refine (proj2 (foreign_chat_is_refused sample.caseTable sample.sprint sample.validURL
                   sample.handler
                   sample.promptedWorld sample.noEnv
                   {| dispatch.UpdCallbackQuery := None;
                      dispatch.UpdMessage :=
                        Some {| dispatch.MsgChat := 2; dispatch.MsgText := lit "my answer";
                                dispatch.MsgVoice := None |} |}) _ _ _ _).
  - reflexivity.
  - reflexivity.
  - vm_compute. discriminate.
Defined.

Section Answers.
Import gostd dispatch keyboard.
Variable caseTable : rune → rune.
Variable Sprint_v : any → gostring.
Variable validURL : gostring → bool.

Lemma optionRows_lookup (id : gostring) (options : list gostring) : ∀ (idx : Z) (k : nat)
    (option : gostring),
  options !! k = Some option →
  Data <$> optionRows id idx options !! k
    = Some (CallbackData ActionOption (id ++ lit "|" ++ strings.Itoa (idx + Z.of_nat k))).
Proof.
  induction options as [|o options IH]; intros idx k option; [done|].
  destruct k as [|k].
  - intros _. simpl. by rewrite Z.add_0_r.
  - intros Hk.
    change (optionRows id idx (o :: options) !! S k)
      with (optionRows id (idx + 1) options !! k).
    rewrite (IH (idx + 1) k option Hk).
    by replace (idx + 1 + Z.of_nat k) with (idx + Z.of_nat (S k)) by lia.
Qed.

Lemma Resolve_live r id exec :
  execs r !! id = Some exec →
  Resolve r id
    = (fst (Resolve r id),
       (Some exec, (if bool_decide (promptCorrelation r = id) then promptMessageID r else 0),
        true)).
Proof. intros Hin. unfold Resolve. rewrite Hin. by case_bool_decide. Qed.

(** X20. Pressing the [k]-th option button of a registered execution
    whose correlation id has no vertical bar resolves that execution: the
    registry loses it, the prompt message it owned (if any) is deleted,
    the chat message is finalized with the note for that option, the
    result carries the option, its index, [custom = false] and input mode
    "button", and the query is acknowledged with the note. *)
Theorem option_button_resolves (s : telegram.Service) (h : handlers.Handler)
    (w : telegram.World) (env : Env) (queryID : gostring) (exec : Execution)
    (k : nat) (option : gostring) :
  let req := ExecRequest exec in
  execs (telegram.registry w) !! CorrelationID req = Some exec →
  124%N ∉ CorrelationID req →
  Options req !! k = Some option →
  Z.of_nat k ≤ maxInt →
  ∃ button,
    optionsKeyboard caseTable s req !! k = Some button ∧
    handleCallback caseTable Sprint_v validURL h w env
      {| QueryID := queryID; QueryData := Data button;
         QueryChat := Some (handlers.chatID h) |}
    = let promptID :=
        if bool_decide (promptCorrelation (telegram.registry w) = CorrelationID req)
        then promptMessageID (telegram.registry w) else 0 in
      let note :=
        selectedNote (i18n.SelectedNote (handlers.messageFor caseTable h (Lang req)))
          option in
      emit (withRegistry w (fst (Resolve (telegram.registry w) (CorrelationID req))))
        ((if promptID >? 0 then handlers.DeleteMessage promptID else [])
         ++ handlers.FinalizeExecution caseTable Sprint_v validURL h exec
              {| ResStatus := StatusSuccess;
                 Output := answerOutput (Question req) option (AInt (Z.of_nat k))
                             false (lit "button");
                 Note := note |} []
         ++ handlers.answerCallback queryID note).
Proof.
  intros req. subst req. intros Hin Hbar Hopt Hk.
  pose proof (optionRows_lookup (CorrelationID (ExecRequest exec))
                (Options (ExecRequest exec)) 0 k option Hopt) as Hrow.
  destruct (optionRows (CorrelationID (ExecRequest exec)) 0 (Options (ExecRequest exec)) !! k)
    as [button|] eqn:Hb; [|discriminate].
  injection Hrow as Hdata. rewrite Z.add_0_l in Hdata.
  exists button. split.
  { unfold optionsKeyboard. by rewrite lookup_app_l_Some with (x := button). }
  unfold handleCallback, allowedChat. cbn [QueryChat QueryID QueryData].
  rewrite Z.eqb_refl. cbn [negb]. rewrite Hdata.
  rewrite parseCallback_reads
    by (match goal with |- ?P => apply (bool_decide_unpack P) end; vm_compute; exact I).
  rewrite (bool_decide_eq_true_2 (ActionOption = ActionOption)) by done.
  unfold resolveOption.
  assert (minInt ≤ Z.of_nat k ≤ maxInt) as Hrange by (unfold minInt in *; lia).
  pose proof (proj1 (parseOptionPayload_reads (CorrelationID (ExecRequest exec))
                       (Z.of_nat k) Hrange) Hbar) as Hparse.
  match goal with
  | |- context [parseOptionPayload ?p] =>
      change p with (CorrelationID (ExecRequest exec) ++ lit "|" ++ strings.Itoa (Z.of_nat k))
  end.
  rewrite Hparse.
  unfold Get. rewrite Hin.
  pose proof (lookup_lt_Some _ _ _ Hopt) as Hlt.
  assert (((Z.of_nat k <? 0)
           || (Z.of_nat (length (Options (ExecRequest exec))) <=? Z.of_nat k))
          = false) as ->.
  { apply orb_false_iff. split; [apply Z.ltb_ge|apply Z.leb_gt]; lia. }
  rewrite (Resolve_live _ _ _ Hin). cbn zeta.
  rewrite Nat2Z.id.
  assert (nth k (Options (ExecRequest exec)) [] = option) as ->.
  { apply nth_lookup_Some with (d := []) in Hopt. exact Hopt. }
  reflexivity.
Qed.

(** X21. When an execution owns the prompt, a text message from the
    configured chat that is not blank resolves that execution with the
    trimmed text as a custom answer (result with [custom = true], no index
    and input mode "text"), deleting the prompt message if one was
    recorded; a blank text leaves everything as it was. *)
Theorem text_answer_resolves_owner (h : handlers.Handler) (w : telegram.World)
    (env : Env) (message : Message) (exec : Execution) (promptID : Z) :
  let req := ExecRequest exec in
  facts.keyed (telegram.registry w) →
  CurrentPrompt (telegram.registry w) = (Some exec, promptID) →
  MsgChat message = handlers.chatID h →
  MsgText message ≠ [] →
  (strings.TrimSpace (MsgText message) = [] →
     handleMessage caseTable Sprint_v validURL h w env message = w) ∧
  (strings.TrimSpace (MsgText message) ≠ [] →
     handleMessage caseTable Sprint_v validURL h w env message
     = (let answer := strings.TrimSpace (MsgText message) in
       let note :=
         selectedNote (i18n.SelectedNote (handlers.messageFor caseTable h (Lang req)))
           answer in
       emit (withRegistry w (fst (Resolve (telegram.registry w) (CorrelationID req))))
         ((if promptID >? 0 then handlers.DeleteMessage promptID else [])
          ++ handlers.FinalizeExecution caseTable Sprint_v validURL h exec
               {| ResStatus := StatusSuccess;
                  Output := answerOutput (Question req) answer ANil true (lit "text");
                  Note := note |} [])) ∧
     execs (telegram.registry (handleMessage caseTable Sprint_v validURL h w env message))
       !! CorrelationID req = None).
Proof.
  intros req. subst req. intros Hkeyed Hcur Hchat Htext.
  assert (AwaitingText exec = true ∧
          execs (telegram.registry w) !! CorrelationID (ExecRequest exec) = Some exec ∧
          promptCorrelation (telegram.registry w) = CorrelationID (ExecRequest exec) ∧
          promptID = promptMessageID (telegram.registry w)) as (Haw & Hin & Hown & ->).
  { unfold CurrentPrompt in Hcur.
    destruct (bool_decide (promptCorrelation (telegram.registry w) = [])); [discriminate|].
    destruct (execs (telegram.registry w) !! promptCorrelation (telegram.registry w))
      as [e|] eqn:He; [|discriminate].
    destruct (AwaitingText e) eqn:Ha; [|discriminate].
    simpl in Hcur. injection Hcur as -> <-.
    pose proof (Hkeyed _ _ He) as Hid.
    rewrite Hid. auto. }
  unfold handleMessage, allowedChat. rewrite Hchat, Z.eqb_refl, Hcur, Haw. cbn [negb].
  destruct (MsgText message) as [|c text] eqn:Hm; [done|]. rewrite <- Hm.
  split.
  - intros ->. reflexivity.
  - intros Hne. destruct (strings.TrimSpace (MsgText message)) as [|a answer] eqn:Ha; [done|].
    unfold resolveCustom. rewrite (Resolve_live _ _ _ Hin).
    rewrite (bool_decide_eq_true_2 _ Hown). split; [reflexivity|].
    cbn. unfold Resolve. rewrite Hin, (bool_decide_eq_true_2 _ Hown). cbn.
    apply lookup_delete_eq.
Qed.

End Answers.

Lemma option_button_resolves_witness :
  ∃ button,
    keyboard.optionsKeyboard sample.caseTable sample.service (sample.request (lit "r1")) !! 1%nat
      = Some button ∧
    keyboard.Data button = lit "option:r1|1".
Proof.
  destruct (option_button_resolves sample.caseTable sample.sprint sample.validURL sample.service
              sample.handler
              sample.promptedWorld sample.noEnv
              (lit "q1") sample.promptedExecution 1 (lit "B"))
    as (button & Hbutton & _).
  - vm_compute. reflexivity.
  - match goal with |- ?P => apply (bool_decide_unpack P) end. vm_compute. exact I.
  - reflexivity.
  - vm_compute. discriminate.
  - exists button. split; [exact Hbutton|].
    vm_compute in Hbutton. injection Hbutton as <-. reflexivity.
Defined.

Lemma text_answer_resolves_owner_witness :
  execs (telegram.registry
           (dispatch.handleMessage sample.caseTable sample.sprint sample.validURL sample.handler
              sample.promptedWorld sample.noEnv sample.textMessage))
    !! lit "r1" = None.
Proof.
  destruct (text_answer_resolves_owner sample.caseTable sample.sprint sample.validURL sample.handler
              sample.promptedWorld sample.noEnv sample.textMessage
              sample.promptedExecution 7) as [_ Hanswer].
  - apply (keyed_run
             [OpAdd (sample.request (lit "r1")) 0; OpSetMessage (lit "r1") 5 (lit "text");
              OpStartCustomInput (lit "r1"); OpSetPromptMessage (lit "r1") 7]
             NewRegistry keyed_new).
  - vm_compute. reflexivity.
  - reflexivity.
  - discriminate.
  - apply Hanswer. vm_compute. discriminate.
Defined.

(** ** The custom prompt *)

Section PromptFlow.
Variable caseTable : rune → rune.

(** X22. Pressing the custom button of a registered execution that
    allows custom input makes it the owner of the prompt, even when the
    prompt message could not be sent: [CurrentPrompt] then returns the
    execution, awaiting text, with the id of the sent prompt, or 0 when
    sending failed, in which case the query is acknowledged with the
    error label.  Cancelling the prompt of that execution afterwards
    deletes the prompt message if one was recorded, empties the prompt and
    leaves the execution registered, no longer awaiting text. *)
Theorem custom_button_opens_prompt (h : handlers.Handler) (r : Registry)
    (queryID cancelID id : gostring) (exec : Execution) (sent : option Z) :
  id ≠ [] →
  execs r !! id = Some exec →
  AllowCustom (ExecRequest exec) = true →
  let opened := handlers.startCustomPrompt caseTable h r queryID id sent in
  let cancelled := handlers.cancelCustomPrompt (fst opened) cancelID id in
  CurrentPrompt (fst opened) = (Some (withAwaitingText exec true), default 0 sent) ∧
  (sent = None →
     ∃ cs, snd opened
           = cs ++ handlers.answerCallback queryID
                     (i18n.ErrorNote
                        (handlers.messageFor caseTable h (Lang (ExecRequest exec))))) ∧
  CurrentPrompt (fst cancelled) = (None, 0) ∧
  execs (fst cancelled) !! id = Some (withAwaitingText exec false) ∧
  snd cancelled
    = (if default 0 sent >? 0 then [DeleteMessageCall (default 0 sent)] else [])
      ++ handlers.answerCallback cancelID [].
Proof.
  intros Hid Hexec Hallow opened cancelled. subst opened cancelled.
  unfold handlers.startCustomPrompt, Get. rewrite Hexec, Hallow. simpl.
  destruct (StartCustomInput r id) as [r1 [prev ok]] eqn:Hstart.
  assert (ok = true ∧ promptCorrelation r1 = id ∧ promptMessageID r1 = 0 ∧
          execs r1 !! id = Some (withAwaitingText exec true)) as (-> & Hc & Hm & He).
  { unfold StartCustomInput in Hstart. rewrite Hexec in Hstart.
    injection Hstart as <- <- <-. simpl. by rewrite lookup_insert_eq. }
  simpl.
  assert (∀ r2 m, promptCorrelation r2 = id → promptMessageID r2 = m →
            execs r2 !! id = Some (withAwaitingText exec true) →
            CurrentPrompt r2 = (Some (withAwaitingText exec true), m) ∧
            CurrentPrompt (fst (handlers.cancelCustomPrompt r2 cancelID id)) = (None, 0) ∧
            execs (fst (handlers.cancelCustomPrompt r2 cancelID id)) !! id
              = Some (withAwaitingText exec false) ∧
            snd (handlers.cancelCustomPrompt r2 cancelID id)
              = (if m >? 0 then [DeleteMessageCall m] else [])
                ++ handlers.answerCallback cancelID []) as Hflow.
  { intros r2 m H2c H2m H2e.
    unfold CurrentPrompt, handlers.cancelCustomPrompt, ClearPrompt.
    rewrite (bool_decide_eq_true_2 _ H2c), H2c, H2e, H2m.
    rewrite (bool_decide_eq_false_2 _ Hid). simpl.
    rewrite lookup_insert_eq. split; [done|]. split; [done|]. split; [done|].
    unfold handlers.DeleteMessage. by destruct m. }
  destruct sent as [promptID|]; simpl.
  - destruct (Hflow (SetPromptMessage r1 id promptID) promptID) as (H1 & H2 & H3 & H4);
      try (unfold SetPromptMessage; rewrite (bool_decide_eq_true_2 _ Hc); simpl; done).
    split; [done|]. split; [done|]. done.
  - destruct (Hflow r1 0 Hc Hm He) as (H1 & H2 & H3 & H4).
    split; [done|]. split; [|done].
    intros _. eexists (_ ++ [_]). by rewrite <- app_assoc.
Qed.

End PromptFlow.

Lemma custom_button_opens_prompt_witness :
  CurrentPrompt
    (fst (handlers.startCustomPrompt sample.caseTable sample.handler
            sample.promptedRegistry (lit "q1") (lit "r1") None))
  = (Some sample.promptedExecution, 0).
Proof.
  refine (proj1 (custom_button_opens_prompt sample.caseTable sample.handler
                   sample.promptedRegistry (lit "q1") (lit "q2") (lit "r1")
                   sample.promptedExecution None _ _ _)).
  - discriminate.
  - vm_compute. reflexivity.
  - reflexivity.
Defined.

(** ** The running program *)

Section ProgramMore.
Import gostd dispatch program facts.
Variable caseTable : rune → rune.
Variable Sprint_v : any → gostring.
Variable validURL : gostring → bool.
Variable overflowInt : Z → Z.

Lemma webhooksFor_app id cs1 cs2 :
  webhooksFor id (cs1 ++ cs2) = (webhooksFor id cs1 + webhooksFor id cs2)%nat.
Proof. unfold webhooksFor. by rewrite List.filter_app, length_app. Qed.

Lemma webhooksFor_answerCallback id queryID text :
  webhooksFor id (handlers.answerCallback queryID text) = 0%nat.
Proof. reflexivity. Qed.

Lemma webhooksFor_DeleteMessage id messageID :
  webhooksFor id (handlers.DeleteMessage messageID) = 0%nat.
Proof. unfold handlers.DeleteMessage. by destruct (messageID <=? 0). Qed.

Lemma webhooksFor_prompt_deletion id (promptID : Z) :
  webhooksFor id (if promptID >? 0 then handlers.DeleteMessage promptID else []) = 0%nat.
Proof. destruct (promptID >? 0); [apply webhooksFor_DeleteMessage|done]. Qed.

Lemma webhooksFor_FinalizeExecution id h exec result timeoutMessage :
  (webhooksFor id
     (handlers.FinalizeExecution caseTable Sprint_v validURL h exec result timeoutMessage)
   ≤ if bool_decide (CorrelationID (ExecRequest exec) = id) then 1 else 0)%nat.
Proof.
  unfold handlers.FinalizeExecution, handlers.sendWebhook, webhooksFor. simpl.
  case_bool_decide; simpl; [lia|]. destruct (validURL _); simpl; [|lia].
  case_bool_decide; simpl; lia.
Qed.

Lemma handled_quiet w cs :
  (∀ id, webhooksFor id cs = 0%nat) → handled w (emit w cs).
Proof.
  intros Hcs. exists cs. split; [done|]. left. exists []. by repeat split.
Qed.

Lemma handled_refl w : handled w w.
Proof.
  exists []. split; [by rewrite app_nil_r|]. left. exists []. by repeat split.
Qed.

Lemma resolution_calls id h exec result timeoutMessage (promptID : Z) post :
  (∀ i, webhooksFor i post = 0%nat) →
  (webhooksFor id
     ((if promptID >? 0 then handlers.DeleteMessage promptID else [])
      ++ handlers.FinalizeExecution caseTable Sprint_v validURL h exec result timeoutMessage
      ++ post)
   ≤ if bool_decide (CorrelationID (ExecRequest exec) = id) then 1 else 0)%nat.
Proof.
  intros Hpost. rewrite !webhooksFor_app, webhooksFor_prompt_deletion, Hpost.
  pose proof (webhooksFor_FinalizeExecution id h exec result timeoutMessage). lia.
Qed.

Lemma handled_resolveCustom h w exec answer inputMode :
  handled w (resolveCustom caseTable Sprint_v validURL h w exec answer inputMode).
Proof.
  unfold resolveCustom.
  destruct (execs (telegram.registry w) !! CorrelationID (ExecRequest exec))
    as [e|] eqn:E.
  - rewrite (Resolve_live _ _ _ E). eexists. split; [reflexivity|]. right.
    exists (CorrelationID (ExecRequest exec)), e. split; [done|]. split; [done|].
    intros id'. rewrite <- (app_nil_r (handlers.FinalizeExecution _ _ _ _ _ _ _)).
    by apply resolution_calls.
  - rewrite (Resolve_absent _ _ E). exists []. split; [by rewrite app_nil_r|].
    left. exists []. by repeat split.
Qed.

Lemma handled_resolveOption h w queryID payload :
  handled w (resolveOption caseTable Sprint_v validURL h w queryID payload).
Proof.
  unfold resolveOption.
  destruct (parseOptionPayload payload) as [[correlationID optionIndex]|];
    [|by apply handled_quiet].
  unfold Get.
  destruct (execs (telegram.registry w) !! correlationID) as [exec|] eqn:E;
    [|by apply handled_quiet].
  destruct (_ || _); [by apply handled_quiet|].
  rewrite (Resolve_live _ _ _ E). eexists. split; [reflexivity|]. right.
  exists correlationID, exec. split; [done|]. split; [done|].
  intros id'. by apply resolution_calls.
Qed.

Lemma handled_startCustomPrompt h w queryID correlationID sent :
  handled w
    (let '(r1, cs) :=
       handlers.startCustomPrompt caseTable h (telegram.registry w) queryID
         correlationID sent in
     emit (withRegistry w r1) cs).
Proof.
  unfold handlers.startCustomPrompt, Get.
  destruct (execs (telegram.registry w) !! correlationID) as [exec|] eqn:E;
    [|eexists; split; [reflexivity|]; left; exists []; by repeat split].
  destruct (negb _);
    [eexists; split; [reflexivity|]; left; exists []; by repeat split|].
  assert (StartCustomInput (telegram.registry w) correlationID
          = (executions.step (telegram.registry w) (OpStartCustomInput correlationID),
             (snd (StartCustomInput (telegram.registry w) correlationID)))) as Hs.
  { simpl. by destruct (StartCustomInput _ _). }
  assert (snd (snd (StartCustomInput (telegram.registry w) correlationID)) = true) as Hok.
  { unfold StartCustomInput. by rewrite E. }
  rewrite Hs. destruct (snd (StartCustomInput _ _)) as [prev ok]. simpl in Hok. subst ok.
  cbn [negb]. destruct sent as [promptID|].
  - eexists. split; [reflexivity|]. left.
    exists [OpStartCustomInput correlationID; OpSetPromptMessage correlationID promptID].
    split; [by repeat constructor|]. split; [done|]. intros id.
    by rewrite webhooksFor_app, webhooksFor_prompt_deletion.
  - eexists. split; [reflexivity|]. left.
    exists [OpStartCustomInput correlationID].
    split; [by repeat constructor|]. split; [done|]. intros id.
    by rewrite webhooksFor_app, webhooksFor_prompt_deletion.
Qed.

Lemma handled_cancelCustomPrompt w queryID correlationID :
  handled w
    (let '(r1, cs) :=
       handlers.cancelCustomPrompt (telegram.registry w) queryID correlationID in
     emit (withRegistry w r1) cs).
Proof.
  unfold handlers.cancelCustomPrompt.
  assert (ClearPrompt (telegram.registry w) correlationID
          = (executions.step (telegram.registry w) (OpClearPrompt correlationID),
             snd (ClearPrompt (telegram.registry w) correlationID))) as ->.
  { simpl. by destruct (ClearPrompt _ _). }
  eexists. split; [reflexivity|]. left. exists [OpClearPrompt correlationID].
  split; [by repeat constructor|]. split; [done|]. intros id.
  by rewrite webhooksFor_app, webhooksFor_prompt_deletion.
Qed.

Lemma handled_deleteMessage h w queryID payload :
  handled w (deleteMessage caseTable h w queryID payload).
Proof.
  unfold deleteMessage. destruct (Atoi payload) as [messageID|];
    [destruct (messageID <=? 0)|]; apply handled_quiet; intros id; try done.
  by rewrite webhooksFor_app, webhooksFor_DeleteMessage.
Qed.

Lemma handled_HandleUpdate h w env update :
  handled w (HandleUpdate caseTable Sprint_v validURL h w env update).
Proof.
  unfold HandleUpdate.
  destruct (UpdCallbackQuery update) as [query|].
  - unfold handleCallback. destruct (QueryChat query) as [chat|]; [|apply handled_refl].
    destruct (negb _); [by apply handled_quiet|].
    destruct (parseCallback (QueryData query)) as [action payload].
    case_bool_decide; [apply handled_resolveOption|].
    case_bool_decide; [apply handled_startCustomPrompt|].
    case_bool_decide; [apply handled_cancelCustomPrompt|].
    case_bool_decide; [apply handled_deleteMessage|].
    by apply handled_quiet.
  - destruct (UpdMessage update) as [message|]; [|apply handled_refl].
    unfold handleMessage. destruct (negb _); [apply handled_refl|].
    destruct (CurrentPrompt _) as [[exec|] promptID]; [|apply handled_refl].
    destruct (negb _); [apply handled_refl|].
    destruct (MsgText message) as [|c text].
    + destruct (MsgVoice message) as [voice|]; [|apply handled_refl].
      destruct (transcribeVoice _ _ _ _) as [answer| |];
        [|by apply handled_quiet|by apply handled_quiet].
      destruct (strings.TrimSpace answer); [apply handled_refl|].
      apply handled_resolveCustom.
    + destruct (strings.TrimSpace (c :: text)); [apply handled_refl|].
      apply handled_resolveCustom.
Qed.

Lemma timers_HandleUpdate h w env update :
  telegram.timers (HandleUpdate caseTable Sprint_v validURL h w env update) = telegram.timers w.
Proof.
  assert (∀ h w exec answer mode,
            telegram.timers (resolveCustom caseTable Sprint_v validURL h w exec answer mode)
            = telegram.timers w) as Hcustom.
  { intros. unfold resolveCustom.
    by destruct (Resolve _ _) as [r1 [[[x|] pid] [|]]]. }
  unfold HandleUpdate.
  destruct (UpdCallbackQuery update) as [query|].
  - unfold handleCallback. destruct (QueryChat query) as [chat|]; [|done].
    destruct (negb _); [done|].
    destruct (parseCallback (QueryData query)) as [action payload].
    case_bool_decide.
    { unfold resolveOption.
      destruct (parseOptionPayload payload) as [[correlationID optionIndex]|]; [|done].
      destruct (Get _ _); [|done]. destruct (_ || _); [done|].
      by destruct (Resolve _ _) as [r1 [[[x|] pid] [|]]]. }
    case_bool_decide; [by destruct (handlers.startCustomPrompt _ _ _ _ _ _)|].
    case_bool_decide; [by destruct (handlers.cancelCustomPrompt _ _ _)|].
    case_bool_decide; [|done].
    unfold deleteMessage. destruct (Atoi payload) as [messageID|]; [|done].
    by destruct (messageID <=? 0).
  - destruct (UpdMessage update) as [message|]; [|done].
    unfold handleMessage. destruct (negb _); [done|].
    destruct (CurrentPrompt _) as [[exec|] promptID]; [|done].
    destruct (negb _); [done|].
    destruct (MsgText message) as [|c text].
    + destruct (MsgVoice message) as [voice|]; [|done].
      destruct (transcribeVoice _ _ _ _) as [answer| |]; [|done|done].
      destruct (strings.TrimSpace answer); [done|]. apply Hcustom.
    + destruct (strings.TrimSpace (c :: text)); [done|]. apply Hcustom.
Qed.

Lemma handled_fireTimeout svc w t :
  handled w (telegram.fireTimeout caseTable Sprint_v validURL svc w t) ∧
  telegram.timers (telegram.fireTimeout caseTable Sprint_v validURL svc w t) = telegram.timers w.
Proof.
  unfold telegram.fireTimeout.
  destruct (execs (telegram.registry w) !! telegram.timerCorrelationID t) as [e|] eqn:E.
  - rewrite (Resolve_live _ _ _ E). split; [|done].
    eexists. split; [reflexivity|]. right.
    exists (telegram.timerCorrelationID t), e. split; [done|]. split; [done|].
    intros id'. rewrite <- (app_nil_r (handlers.FinalizeExecution _ _ _ _ _ _ _)).
    by apply resolution_calls.
  - rewrite (Resolve_absent _ _ E). split; [apply handled_refl|done].
Qed.

(** What [handled] preserves. *)

Lemma quiet_wf o : quiet o → wf_op o.
Proof. destruct o; simpl; tauto. Qed.

Lemma live_quiet_step r o id : quiet o → live (executions.step r o) id = live r id.
Proof.
  intros Hq. unfold live.
  destruct (execs r !! id) as [e|] eqn:E.
  - destruct (step_present r id o) as [e' ->];
      [by rewrite E|destruct o; simpl in *; tauto|done].
  - rewrite step_absent; [done|done|destruct o; simpl in *; tauto].
Qed.

Lemma live_quiet_run ops : ∀ r id,
  Forall quiet ops → live (executions.run ops r) id = live r id.
Proof.
  induction ops as [|o ops IH]; intros r id Hall; simpl; [done|].
  inversion Hall; subst. rewrite IH by done. by apply live_quiet_step.
Qed.

Lemma handled_invariants w w' :
  handled w w' →
  prompt_inv (telegram.registry w) → keyed (telegram.registry w) →
  prompt_inv (telegram.registry w') ∧ keyed (telegram.registry w') ∧
  ∀ id, (webhooksFor id (telegram.calls w') + live (telegram.registry w') id
         ≤ webhooksFor id (telegram.calls w) + live (telegram.registry w) id)%nat.
Proof.
  intros (cs & Hcalls & [(ops & Hq & Hreg & Hno)|(id0 & exec & Hin & Hreg & Hone)])
    Hinv Hkeyed; rewrite Hreg, Hcalls.
  - split; [|split].
    + apply prompt_inv_run; [|done]. eapply Forall_impl; [done|apply quiet_wf].
    + by apply keyed_run.
    + intros id. rewrite webhooksFor_app, Hno, live_quiet_run by done. lia.
  - split; [|split].
    + by apply (prompt_inv_step _ (OpResolve id0)).
    + by apply (keyed_step _ (OpResolve id0)).
    + intros id. rewrite webhooksFor_app. specialize (Hone id).
      rewrite (Hkeyed _ _ Hin) in Hone. unfold live, Resolve. rewrite Hin.
      case_bool_decide as Hid.
      * subst id. rewrite Hin.
        case_bool_decide; simpl; rewrite lookup_delete_eq; lia.
      * case_bool_decide; simpl; rewrite lookup_delete_ne by done; lia.
Qed.

Variable cfg : config.Config.
Variable svc : telegram.Service.

Lemma ServeHTTP_step w r now sent :
  let w' := fst (httpapi.ServeHTTP caseTable overflowInt cfg svc w r now sent) in
  (∃ ops, Forall wf_op ops ∧
          telegram.registry w' = executions.run ops (telegram.registry w)) ∧
  (∃ cs, telegram.calls w' = telegram.calls w ++ cs ∧ ∀ id, webhooksFor id cs = 0%nat) ∧
  (∀ id, (live (telegram.registry w') id
          ≤ live (telegram.registry w) id
            + if isExecuteFor id (Execute r now sent) then 1 else 0)%nat) ∧
  (timersPositive w → timersPositive w').
Proof.
  assert (∀ x : telegram.World,
            (∃ ops, Forall wf_op ops ∧
                    telegram.registry x = executions.run ops (telegram.registry x)) ∧
            (∃ cs, telegram.calls x = telegram.calls x ++ cs ∧
                   ∀ id, webhooksFor id cs = 0%nat)) as Hsame.
  { intros x. split; [by exists []|]. exists []. by rewrite app_nil_r. }
  unfold httpapi.ServeHTTP. destruct (negb _).
  { simpl. destruct (Hsame w) as [H1 H2]. repeat split; try done. intros id. lia. }
  destruct (httpapi.decodeAndValidate caseTable overflowInt cfg r) as [[req timeout]|msg] eqn:Hv;
    [|simpl; destruct (Hsame w) as [H1 H2]; repeat split; try done; intros id; lia].
  destruct (decodeAndValidate_valid _ _ _ _ _ _ Hv)
    as (raw & options & Hraw & Hid & Hblank & _).
  assert (CorrelationID req ≠ []) as Hne by (intros Heq; by rewrite Heq in Hblank).
  destruct (execs (telegram.registry w) !! CorrelationID req) as [e|] eqn:E.
  { rewrite SubmitExecution_duplicate by (by rewrite E). simpl.
    destruct (Hsame w) as [H1 H2]. repeat split; try done. intros id. lia. }
  rewrite SubmitExecution_fresh by done.
  assert (∀ id, (live (fst (Add (telegram.registry w) req now)) id
                 ≤ live (telegram.registry w) id
                   + if isExecuteFor id (Execute r now sent) then 1 else 0)%nat) as Hlive.
  { intros id. unfold Add, live, isExecuteFor. rewrite E, Hraw, <- Hid. simpl.
    case_bool_decide as Hc.
    - subst id. rewrite lookup_insert_eq, E. lia.
    - rewrite lookup_insert_ne by done. destruct (execs _ !! id); lia. }
  destruct sent as [messageID|]; simpl.
  - split; [|split; [|split]].
    + exists [OpAdd req now;
              OpSetMessage (CorrelationID req) messageID
                (telegram.renderMessage caseTable svc req)].
      split; [by repeat constructor|done].
    + eexists. split; [reflexivity|done].
    + intros id.
      etransitivity; [|apply (Hlive id)]. apply Nat.eq_le_incl.
      apply (live_quiet_step (fst (Add (telegram.registry w) req now))
               (OpSetMessage (CorrelationID req) messageID
                  (telegram.renderMessage caseTable svc req)) id I).
    + intros Hpos. apply Forall_app. split; [done|]. constructor; [|constructor].
      simpl. destruct (timeout <=? 0) eqn:Ht; [done|]. by apply Z.leb_gt in Ht.
  - split; [|split; [|split]].
    + exists [OpAdd req now]. split; [by repeat constructor|done].
    + eexists. split; [reflexivity|done].
    + apply Hlive.
    + done.
Qed.

Lemma executesFor_cons id e events :
  executesFor id (e :: events)
    = ((if isExecuteFor id e then 1 else 0) + executesFor id events)%nat.
Proof. unfold executesFor. simpl. by destruct (isExecuteFor id e). Qed.

Lemma live_registered r id : live r id = if registered r id then 1%nat else 0%nat.
Proof. unfold live, registered. by destruct (execs r !! id). Qed.

(** Only a request that carries the id registers it. *)
Lemma registers_isExecuteFor id w e :
  registers caseTable Sprint_v validURL overflowInt cfg svc id w e = true →
  isExecuteFor id e = true.
Proof.
  destruct e as [r now sent|update env|n]; [|discriminate..].
  unfold registers. rewrite andb_true_iff, negb_true_iff. intros [Hfree Htaken].
  destruct (ServeHTTP_step w r now sent) as (_ & _ & Hlive & _).
  specialize (Hlive id). cbn zeta in Hlive. rewrite !live_registered in Hlive.
  simpl in Htaken. rewrite Hfree, Htaken in Hlive.
  destruct (isExecuteFor id (Execute r now sent)); [done|lia].
Qed.

Lemma registrationsFor_le_executesFor id (events : list event) : ∀ w,
  (registrationsFor caseTable Sprint_v validURL overflowInt cfg svc id events w
   ≤ executesFor id events)%nat.
Proof.
  induction events as [|e events IH]; intros w; simpl; [unfold executesFor; simpl; lia|].
  rewrite executesFor_cons. specialize (IH (program.step caseTable Sprint_v validURL
                                              overflowInt cfg svc w e)).
  destruct (registers caseTable Sprint_v validURL overflowInt cfg svc id w e) eqn:Hreg; [|lia].
  rewrite (registers_isExecuteFor id w e Hreg). lia.
Qed.

Lemma step_invariants (w : telegram.World) (e : event) (bound : gostring → nat) :
  prompt_inv (telegram.registry w) → keyed (telegram.registry w) → timersPositive w →
  (∀ id, (webhooksFor id (telegram.calls w) + live (telegram.registry w) id
          ≤ bound id)%nat) →
  let w' := program.step caseTable Sprint_v validURL overflowInt cfg svc w e in
  prompt_inv (telegram.registry w') ∧ keyed (telegram.registry w') ∧ timersPositive w' ∧
  ∀ id, (webhooksFor id (telegram.calls w') + live (telegram.registry w') id
         ≤ bound id
           + if registers caseTable Sprint_v validURL overflowInt cfg svc id w e
             then 1 else 0)%nat.
Proof.
  intros Hinv Hkeyed Hpos Hbound.
  destruct e as [r now sent|update env|n].
  - destruct (ServeHTTP_step w r now sent)
      as ((ops & Hwf & Hreg) & (cs & Hcalls & Hno) & _ & Htimers).
    cbn zeta in *. unfold registers. simpl.
    split; [rewrite Hreg; by apply prompt_inv_run|].
    split; [rewrite Hreg; by apply keyed_run|].
    split; [by apply Htimers|]. intros id.
    rewrite Hcalls, webhooksFor_app, Hno. specialize (Hbound id).
    rewrite !live_registered in *.
    destruct (registered (telegram.registry w) id),
             (registered (telegram.registry
                (fst (httpapi.ServeHTTP caseTable overflowInt cfg svc w r now sent))) id);
      simpl; lia.
  - simpl.
    destruct (handled_invariants _ _ (handled_HandleUpdate (telegram.handler svc) w env update)
                Hinv Hkeyed) as (H1 & H2 & H3).
    split; [done|]. split; [done|]. split.
    + unfold timersPositive. by rewrite timers_HandleUpdate.
    + intros id. specialize (H3 id). specialize (Hbound id). lia.
  - simpl. destruct (telegram.timers w !! n) as [t|] eqn:Ht.
    + destruct (handled_fireTimeout svc w t) as [Hh Htimers].
      destruct (handled_invariants _ _ Hh Hinv Hkeyed) as (H1 & H2 & H3). simpl.
      split; [done|]. split; [done|]. split.
      * unfold timersPositive. simpl. rewrite Htimers. by apply Forall_delete.
      * intros id. specialize (H3 id). specialize (Hbound id). lia.
    + split; [done|]. split; [done|]. split; [done|].
      intros id. specialize (Hbound id). lia.
Qed.

Lemma run_invariants (events : list event) : ∀ (w : telegram.World) (bound : gostring → nat),
  prompt_inv (telegram.registry w) → keyed (telegram.registry w) → timersPositive w →
  (∀ id, (webhooksFor id (telegram.calls w) + live (telegram.registry w) id
          ≤ bound id)%nat) →
  let w' := program.run caseTable Sprint_v validURL overflowInt cfg svc events w in
  prompt_inv (telegram.registry w') ∧ keyed (telegram.registry w') ∧ timersPositive w' ∧
  ∀ id, (webhooksFor id (telegram.calls w') + live (telegram.registry w') id
         ≤ bound id
           + registrationsFor caseTable Sprint_v validURL overflowInt cfg svc id events w)%nat.
Proof.
  induction events as [|e events IH]; intros w bound Hinv Hkeyed Hpos Hbound; simpl.
  - split; [done|]. split; [done|]. split; [done|].
    intros id. specialize (Hbound id). lia.
  - destruct (step_invariants w e bound Hinv Hkeyed Hpos Hbound) as (H1 & H2 & H3 & H4).
    destruct (IH _ (λ id, (bound id
                           + if registers caseTable Sprint_v validURL overflowInt
                                  cfg svc id w e
                             then 1 else 0)%nat)
                H1 H2 H3 H4) as (G1 & G2 & G3 & G4).
    split; [done|]. split; [done|]. split; [done|].
    intros id. specialize (G4 id). simpl in G4. lia.
Qed.

Lemma start_invariants :
  prompt_inv (telegram.registry start) ∧ keyed (telegram.registry start) ∧
  timersPositive start ∧
  ∀ id, (webhooksFor id (telegram.calls start) + live (telegram.registry start) id
         ≤ 0)%nat.
Proof.
  split; [apply prompt_inv_new|]. split; [by intros id e|]. split; [constructor|].
  intros id. reflexivity.
Qed.

(** X23. However [/execute] requests, chat updates and timers interleave
    from an empty registry, at most one registered execution awaits text
    and the prompt singleton names it (or is empty when none does), and
    every registered execution is stored under the correlation id of its
    request. *)
Theorem program_keeps_prompt_singleton (events : list event) :
  let r := telegram.registry
             (program.run caseTable Sprint_v validURL overflowInt cfg svc events start) in
  prompt_singleton r ∧
  (∀ id e, execs r !! id = Some e → CorrelationID (ExecRequest e) = id) ∧
  (∀ e promptID, CurrentPrompt r = (Some e, promptID) →
     execs r !! CorrelationID (ExecRequest e) = Some e ∧ AwaitingText e = true).
Proof.
  destruct start_invariants as (S1 & S2 & S3 & S4).
  destruct (run_invariants events start (λ _, 0%nat) S1 S2 S3 S4) as (H1 & H2 & _).
  simpl. split; [by apply prompt_inv_singleton|]. split; [exact H2|].
  intros e promptID. unfold CurrentPrompt. case_bool_decide; [discriminate|].
  destruct (execs _ !! promptCorrelation _) as [x|] eqn:Hx; [|discriminate].
  destruct (AwaitingText x) eqn:Ha; [|discriminate]. simpl. intros [= <- <-].
  by rewrite (H2 _ _ Hx).
Qed.

(** X24. In every run of the program from an empty registry, the number
    of callbacks posted for a correlation id is at most the number of
    requests that registered an execution under it (a refused duplicate,
    an invalid body or a refused method registers nothing), and is
    strictly smaller while an execution with that id is still registered:
    no registration leads to two callbacks.  Every registration is the
    work of a request that carries the id. *)
Theorem at_most_one_callback_per_request (events : list event) (id : gostring) :
  let w := program.run caseTable Sprint_v validURL overflowInt cfg svc events start in
  let registrations :=
    registrationsFor caseTable Sprint_v validURL overflowInt cfg svc id events start in
  (webhooksFor id (telegram.calls w) ≤ registrations)%nat ∧
  (is_Some (execs (telegram.registry w) !! id) →
   (webhooksFor id (telegram.calls w) < registrations)%nat) ∧
  (registrations ≤ executesFor id events)%nat.
Proof.
  destruct start_invariants as (S1 & S2 & S3 & S4).
  destruct (run_invariants events start (λ _, 0%nat) S1 S2 S3 S4) as (_ & _ & _ & H).
  specialize (H id). simpl in *. split; [lia|]. split.
  - intros [e He]. unfold live in H. rewrite He in H. lia.
  - apply registrationsFor_le_executesFor.
Qed.

(** X25. Every timer the program arms has a positive duration: a
    non-positive effective timeout, such as one that overflowed, is
    replaced by one hour. *)
Theorem armed_timers_are_positive (events : list event) :
  Forall (λ t, 0 < telegram.timerTimeout t)
    (telegram.timers (program.run caseTable Sprint_v validURL overflowInt cfg svc events start)).
Proof.
  destruct start_invariants as (S1 & S2 & S3 & S4).
  by destruct (run_invariants events start (λ _, 0%nat) S1 S2 S3 S4) as (_ & _ & H & _).
Qed.

Lemma TrimSpace_head_nonempty c rest :
  strings.notSpace c → strings.TrimSpace (c :: rest) ≠ [].
Proof.
  intros Hc. unfold strings.TrimSpace. rewrite (TrimLeftSpace_head c rest Hc).
  unfold strings.TrimRightSpace. simpl rev.
  destruct (TrimLeftSpace_keeps (rev rest) c [] Hc) as [pre' ->].
  rewrite rev_app_distr. simpl. done.
Qed.

(** X26. A timer resolves by correlation id alone.  When no execution is
    registered under its id as it fires, nothing happens.  When one is,
    be it the execution the timer was armed for or one registered under
    the same id since, that execution is removed, the prompt message it
    owned (if any) is deleted, its chat message is edited to its text, a
    blank line and the timeout note (the timeout message of the request
    when that is not blank, else the clock sign and the timeout label for
    the language of the request), and the result with status "error" and
    output "execution timeout" is posted to the callback URL if that URL
    is not blank and parses.  Either way no execution is registered under
    the id afterwards and the armed timers are as before. *)
Theorem timeout_fires (w : telegram.World) (t : telegram.Timer) :
  let id := telegram.timerCorrelationID t in
  let w' := telegram.fireTimeout caseTable Sprint_v validURL svc w t in
  execs (telegram.registry w') !! id = None ∧
  telegram.timers w' = telegram.timers w ∧
  (execs (telegram.registry w) !! id = None → w' = w) ∧
  (∀ exec, execs (telegram.registry w) !! id = Some exec →
     let req := ExecRequest exec in
     let promptID :=
       if bool_decide (promptCorrelation (telegram.registry w) = id)
       then promptMessageID (telegram.registry w) else 0 in
     let note :=
       if bool_decide (strings.TrimSpace (telegram.timerMessage t) = [])
       then [9201; 65039; 32]%N
            ++ i18n.TimeoutNote
                 (handlers.messageFor caseTable (telegram.handler svc) (Lang req))
       else telegram.timerMessage t in
     telegram.calls w'
     = telegram.calls w
       ++ (if promptID >? 0 then [DeleteMessageCall promptID] else [])
       ++ [EditMessageTextCall (MessageID exec) (MessageText exec ++ [10; 10]%N ++ note)
             (handlers.parseMode caseTable (Markup req))]
       ++ (if bool_decide (strings.TrimSpace (URL (ReqCallback req)) = [])
              || negb (validURL (URL (ReqCallback req)))
           then []
           else [WebhookPost (URL (ReqCallback req)) (CorrelationID req) StatusError
                   (AString (lit "execution timeout")) (Name (ReqTool req))])).
Proof.
  intros id w'. subst id w'. unfold telegram.fireTimeout.
  destruct (execs (telegram.registry w) !! telegram.timerCorrelationID t) as [e|] eqn:E.
  - rewrite (Resolve_live _ _ _ E). simpl. split.
    { unfold Resolve. rewrite E. case_bool_decide; simpl; apply lookup_delete_eq. }
    split; [done|]. split; [done|]. intros exec [= <-].
    f_equal. f_equal.
    { unfold handlers.DeleteMessage.
      destruct (if bool_decide _ then _ else _) as [|q|q]; reflexivity. }
    unfold handlers.FinalizeExecution, handlers.noteForResult, handlers.sendWebhook.
    simpl.
    assert (∀ (b c : bool) (x : list BotCall),
              (if b then [] else if negb c then [] else x)
              = (if b || negb c then [] else x)) as -> by (by intros [] []).
    destruct (bool_decide (strings.TrimSpace (telegram.timerMessage t) = [])) eqn:Hblank;
      simpl.
    + rewrite bool_decide_eq_false_2 by (by apply TrimSpace_head_nonempty). done.
    + apply bool_decide_eq_false_1 in Hblank. rewrite bool_decide_eq_false_2 by done. done.
  - rewrite (Resolve_absent _ _ E). split; [done|]. split; [done|]. split; [done|].
    intros exec Hexec. discriminate.
Qed.

End ProgramMore.

(** A timer outlives the execution it was armed for: after ["r1"] is
    answered and registered again, the timer of the first registration
    times the second one out. *)
Lemma timeout_fires_witness :
  is_Some (execs (telegram.registry sample.registeredAgain) !! lit "r1") ∧
  telegram.timers sample.registeredAgain !! 0%nat = Some sample.firstTimer ∧
  execs (telegram.registry
           (telegram.fireTimeout sample.caseTable sample.sprint sample.validURL
              sample.service sample.registeredAgain sample.firstTimer))
    !! lit "r1" = None.
Proof.
  split; [vm_compute; eauto|]. split; [vm_compute; reflexivity|].
  apply (timeout_fires sample.caseTable sample.sprint sample.validURL sample.service
           sample.registeredAgain sample.firstTimer).
Defined.
